(** * RS Code Simulator: the headless runtime of [src/runtime/simulator.ts]

    A shallow embedding of the simulator runtime (the error translator
    [extractErrors], the orchestrator [RobloxSimulator.run] with its helpers
    [initializePrelude], [executeChunk] and [registerLoggingFunction]) and of
    the guarded call of [run] in [simulateDocument] of the extension host.

    Conventions of the model.
    - A JavaScript string is a [string]: a sequence of code units, here
      restricted to the code units 0..255.  Among these the ECMAScript
      WhiteSpace and LineTerminator characters (what [trim] removes and the
      class [\s] matches) are 9, 10, 11, 12, 13, 32 and 160.
    - A JavaScript number holding an integer is a [Z]; [undefined] in an
      optional field is [None].
    - A Lua string is a [string] as well, the sequence of its bytes.
      [to_jsstring] turns it into a JavaScript string by decoding UTF-8,
      and throws for bytes that are not valid UTF-8; the decoder is part
      of the interface of the interpreter.
    - The Fengari interpreter is an external collaborator.  Its observable
      behaviour is an interface ([Fengari]) of operations on a host world;
      the Lua stack the program manipulates is explicit. *)

From Stdlib Require Import String Ascii List ZArith Lia Bool DecimalString.
Import ListNotations.
Open Scope string_scope.
Open Scope list_scope.

(** ** JavaScript strings *)

Section JsStrings.

(** WhiteSpace or LineTerminator, the set shared by [String.prototype.trim]
    and the regular expression class [\s]. *)
Definition isWhiteSpace (c : ascii) : bool :=
  let n := nat_of_ascii c in
  ((9 <=? n) && (n <=? 13) || (n =? 32) || (n =? 160))%nat.

Definition isDigit (c : ascii) : bool :=
  let n := nat_of_ascii c in ((48 <=? n) && (n <=? 57))%nat.

Definition dquote : ascii := "034"%char.
Definition LF : ascii := "010"%char.
Definition CR : ascii := "013"%char.
Definition TAB : ascii := "009"%char.

(** A text between double quotes. *)
Definition quoted (s : string) : string :=
  (String dquote s ++ String dquote EmptyString)%string.

Fixpoint trimStart (s : string) : string :=
  match s with
  | String c s' => if isWhiteSpace c then trimStart s' else s
  | EmptyString => EmptyString
  end.

Fixpoint trimEnd (s : string) : string :=
  match s with
  | EmptyString => EmptyString
  | String c s' =>
      match trimEnd s' with
      | EmptyString => if isWhiteSpace c then EmptyString else String c EmptyString
      | t => String c t
      end
  end.

(** [s.trim()] *)
Definition trim (s : string) : string := trimEnd (trimStart s).

(** [!s] for a string: true exactly for the empty string. *)
Definition isEmpty (s : string) : bool :=
  match s with EmptyString => true | _ => false end.

(** [s.split(/\r?\n/)]: the separators are the occurrences of a line feed,
    together with the carriage return right before it when there is one. *)
Fixpoint splitLines (s : string) : list string :=
  match s with
  | EmptyString => [EmptyString]
  | String c s' =>
      if Ascii.eqb c LF then EmptyString :: splitLines s'
      else
        let keep :=
          match splitLines s' with
          | h :: t => String c h :: t
          | [] => [String c EmptyString]
          end in
        if Ascii.eqb c CR then
          match s' with
          | String c' s'' =>
              if Ascii.eqb c' LF then EmptyString :: splitLines s'' else keep
          | EmptyString => keep
          end
        else keep
  end.

(** [lines.join(sep)] *)
Definition join (sep : string) (l : list string) : string := String.concat sep l.

(** [s.replace(/^@/, '')] *)
Definition stripSigil (s : string) : string :=
  match s with
  | String c s' => if Ascii.eqb c "@"%char then s' else s
  | EmptyString => EmptyString
  end.

(** [x || fallback] for a string [x]. *)
Definition orElse (x fallback : string) : string :=
  if isEmpty x then fallback else x.

(** [x || undefined] for a string [x]. *)
Definition orUndefined (x : string) : option string :=
  if isEmpty x then None else Some x.

Definition digitValue (c : ascii) : Z := Z.of_nat (nat_of_ascii c) - 48.

(** The longest prefix of decimal digits, read as an integer; [None] when
    the string does not start with a digit. *)
Fixpoint readDigits (s : string) (acc : option Z) : option Z :=
  match s with
  | String c s' =>
      if isDigit c
      then readDigits s' (Some (10 * match acc with Some a => a | None => 0 end + digitValue c)%Z)
      else acc
  | EmptyString => acc
  end.

(** The Number value of a non-negative integer: the nearest double, ties
    to even.  A double has 53 significant bits, so every integer below 2^53
    is one, and from there on the integer is rounded to 53 bits. *)
Definition toNumber (n : Z) : Z :=
  if (n <? 2 ^ 53)%Z then n
  else
    let e := (Z.log2 n - 52)%Z in
    let q := Z.shiftr n e in
    let r := (n - Z.shiftl q e)%Z in
    let half := Z.shiftl 1 (e - 1) in
    let q' := if (half <? r)%Z || ((r =? half)%Z && Z.odd q) then (q + 1)%Z else q in
    Z.shiftl q' e.

(** [Number.parseInt(s, 10)]: leading white space is skipped, one sign is
    accepted, the digits that follow are read, and the integer they write
    is rounded to a double; [None] stands for NaN.  An integer that rounds
    to 2^1024 or more is Infinity in JavaScript: the integers of the model
    have no such number, and the rounded integer stands for it. *)
Definition parseInt (s : string) : option Z :=
  match trimStart s with
  | String c s' =>
      if Ascii.eqb c "-"%char
      then option_map (fun n => Z.opp (toNumber n)) (readDigits s' None)
      else if Ascii.eqb c "+"%char then option_map toNumber (readDigits s' None)
      else option_map toNumber (readDigits (String c s') None)
  | EmptyString => None
  end.

(** Every character of the string is in the class. *)
Fixpoint allChars (p : ascii -> bool) (s : string) : bool :=
  match s with
  | String c s' => p c && allChars p s'
  | EmptyString => true
  end.

(** The string is empty or starts outside the class. *)
Definition stopsAt (p : ascii -> bool) (s : string) : bool :=
  match s with
  | String c _ => negb (p c)
  | EmptyString => true
  end.

End JsStrings.

(** ** Regular expressions, as far as the translator's pattern needs them

    A backtracking matcher in continuation-passing style.  Quantifiers are
    greedy and apply to character classes, which is the only place where the
    pattern repeats anything. *)

Inductive regex : Type :=
| AssertStart                       (* ^ *)
| AssertEnd                         (* $ *)
| Lit (c : ascii)                   (* one literal character *)
| Star (p : ascii -> bool)          (* [class]* *)
| Plus (p : ascii -> bool)          (* [class]+ *)
| Seq (r1 r2 : regex)
| Alt (r1 r2 : regex)               (* r1|r2 *)
| Group (name : string) (r : regex) (* (?<name>r) *).

Record mstate : Type := MState {
  pos : nat;                        (* index of the next character *)
  rest : string;                    (* the input from [pos] on *)
  groups : list (string * string)   (* named captures, latest first *)
}.

Definition cont : Type := mstate -> option mstate.

(** The characters consumed between two states of one match. *)
Definition consumed (before after : mstate) : string :=
  substring 0 (pos after - pos before) (rest before).

Fixpoint greedy (p : ascii -> bool) (s : string) (i : nat)
    (g : list (string * string)) (k : cont) : option mstate :=
  match s with
  | String c s' =>
      if p c then
        match greedy p s' (S i) g k with
        | Some r => Some r
        | None => k (MState i s g)
        end
      else k (MState i s g)
  | EmptyString => k (MState i s g)
  end.

Fixpoint rmatch (r : regex) (st : mstate) (k : cont) : option mstate :=
  match r with
  | AssertStart => if (pos st =? 0)%nat then k st else None
  | AssertEnd => if isEmpty (rest st) then k st else None
  | Lit c =>
      match rest st with
      | String c' s' =>
          if Ascii.eqb c c' then k (MState (S (pos st)) s' (groups st)) else None
      | EmptyString => None
      end
  | Star p => greedy p (rest st) (pos st) (groups st) k
  | Plus p =>
      match rest st with
      | String c s' =>
          if p c then greedy p s' (S (pos st)) (groups st) k else None
      | EmptyString => None
      end
  | Seq r1 r2 => rmatch r1 st (fun st' => rmatch r2 st' k)
  | Alt r1 r2 =>
      match rmatch r1 st k with
      | Some res => Some res
      | None => rmatch r2 st k
      end
  | Group name r1 =>
      rmatch r1 st (fun st' =>
        k (MState (pos st') (rest st') ((name, consumed st st') :: groups st')))
  end.

(** [r.exec(s)] for a pattern without flags: the first start index, from 0
    up to the length of [s], at which the pattern matches. *)
Fixpoint execFrom (r : regex) (i : nat) (s : string) : option mstate :=
  match rmatch r (MState i s []) Some with
  | Some res => Some res
  | None =>
      match s with
      | String _ s' => execFrom r (S i) s'
      | EmptyString => None
      end
  end.

Definition exec (r : regex) (s : string) : option mstate := execFrom r 0 s.

(** [match.groups.name]; [None] is [undefined]. *)
Fixpoint group (name : string) (g : list (string * string)) : option string :=
  match g with
  | (n, v) :: g' => if String.eqb n name then Some v else group name g'
  | [] => None
  end.

(** A sequence of literal characters. *)
Fixpoint lits (c : ascii) (s : string) : regex :=
  match s with
  | EmptyString => Lit c
  | String c' s' => Seq (Lit c) (lits c' s')
  end.

Definition notQuote (c : ascii) : bool := negb (Ascii.eqb c dquote).
Definition notColon (c : ascii) : bool := negb (Ascii.eqb c ":"%char).
Definition anyChar (c : ascii) : bool := isWhiteSpace c || negb (isWhiteSpace c).

(** The translator's pattern.  Writing Q for the double quote character, it
    is the start anchor, then one of [\[string Q(?<chunk>[^Q]+)Q\]] and
    [(?<direct>[^:]+)], then [:(?<line>\d+):], then [\s*], then the group
    [message] holding any characters ([\s\S], repeated), then the end anchor. *)
Definition patternQuoted : regex :=
  Seq (lits "["%char "string ")
 (Seq (Lit dquote)
 (Seq (Group "chunk" (Plus notQuote))
 (Seq (Lit dquote) (Lit "]"%char)))).

Definition patternDirect : regex := Group "direct" (Plus notColon).

Definition patternTail : regex :=
  Seq (Lit ":"%char)
 (Seq (Group "line" (Plus isDigit))
 (Seq (Lit ":"%char)
 (Seq (Star isWhiteSpace)
 (Seq (Group "message" (Star anyChar))
      AssertEnd)))).

Definition pattern : regex :=
  Seq AssertStart (Seq (Alt patternQuoted patternDirect) patternTail).

(** ** Diagnostics and the error translator *)

Inductive Severity : Type := error | warning.

Record SimulationError : Type := mkError {
  message : string;
  chunkName : string;
  line : option Z;
  column : option Z;
  stack : option string;
  severity : Severity
}.

(** [a ?? b] on an optional string. *)
Definition coalesce (a : option string) (b : string) : string :=
  match a with Some x => x | None => b end.

Definition headlineOf (trimmed : string) : string :=
  hd EmptyString (splitLines trimmed).

Definition stackOf (trimmed : string) : string :=
  join (String LF EmptyString) (tl (splitLines trimmed)).

(** [match.groups.chunk ?? match.groups.direct ?? fallbackChunk] *)
Definition capturedIdentity (m : mstate) (fallbackChunk : string) : string :=
  match group "chunk" (groups m) with
  | Some c => c
  | None => coalesce (group "direct" (groups m)) fallbackChunk
  end.

Definition extractErrors (rawMessage fallbackChunk : string) : list SimulationError :=
  let trimmed := trim rawMessage in
  if isEmpty trimmed then
    [ mkError "Unknown error raised by Roblox simulator runtime."
              fallbackChunk None None None error ]
  else
    let headline := headlineOf trimmed in
    let stack := stackOf trimmed in
    match exec pattern headline with
    | None =>
        [ mkError headline fallbackChunk None None (orUndefined stack) error ]
    | Some m =>
        let chunkName := stripSigil (capturedIdentity m fallbackChunk) in
        let line := parseInt (coalesce (group "line" (groups m)) "1") in
        let message :=
          orElse (trim (coalesce (group "message" (groups m)) "")) "Runtime error" in
        [ mkError message chunkName line None (orUndefined stack) error ]
    end.


(** ** Chunks, options and results *)

Module Chunk.
Record SimulationChunk : Type := mkChunk {
  code : string;
  chunkName : string
}.
End Chunk.
Definition SimulationChunk : Type := Chunk.SimulationChunk.
Definition mkChunk : string -> string -> SimulationChunk := Chunk.mkChunk.

Record SimulationResult : Type := mkResult {
  success : bool;
  durationMs : Z;
  errors : list SimulationError;
  output : list string
}.

Record SimulationOptions : Type := mkOptions {
  chunk : SimulationChunk;
  prelude : option SimulationChunk;
  preloads : option (list SimulationChunk);
  stubbedServices : option (list string)
}.

(** ** Exceptions and the host interface *)

(** A value thrown by JavaScript code: an [Error] object with its message,
    or any other value with the text [String(value)] gives for it. *)
Inductive JsException : Type :=
| JsError (msg : string)
| JsThrown (text : string).

(** The result of running host code from a state of type [S]. *)
Inductive outcome (S A : Type) : Type :=
| Normal (a : A) (s : S)
| Throw (e : JsException) (s : S).
Arguments Normal {S A} a s.
Arguments Throw {S A} e s.

(** How a call of a native function ends: it returns, it raises a Lua
    error to the script that called it, or it throws a JavaScript
    exception. *)
Inductive ended (A : Type) : Type :=
| Returns (a : A)
| Raises
| Throws (e : JsException).
Arguments Returns {A} a.
Arguments Raises {A}.
Arguments Throws {A} e.

(** A Lua value as the program observes it: a string, with its bytes, or
    anything else. *)
Inductive TValue (O : Type) : Type :=
| TString (s : string)
| TOther (o : O).
Arguments TString {O} s.
Arguments TOther {O} o.

Definition LUA_OK : Z := 0.

(** What one protected call did: the native functions the script invoked,
    each with the global name it was registered under and its arguments, in
    order; the status; and the values left on the stack (the error value on
    failure, the returned values otherwise). *)
Record CallReport (O : Type) : Type := mkReport {
  calls : list (string * list (TValue O));
  callStatus : Z;
  results : list (TValue O)
}.
Arguments mkReport {O} calls callStatus results.
Arguments calls {O} c.
Arguments callStatus {O} c.
Arguments results {O} c.

(** The Fengari interpreter and the host around it ([node:perf_hooks] and
    the environment builder of [./prelude], which is not part of the runtime
    file).  A [world] is the state of the host: its clock and the
    interpreter's heap and globals. *)
Class Fengari : Type := {
  world : Type;
  TObject : Type;
  (* performance.now(): the clock reading, in ticks of the clock *)
  performance_now : world -> Z;
  (* lua_tolstring on a value that is not a string: the text of a number,
     null for everything else *)
  cvt2str : TObject -> option string;
  (* luaL_tolstring on a value: the bytes of the string it pushes (the
     result of the __tostring metamethod when the value has one, the string
     itself or the interpreter's text for the value otherwise); None when
     the metamethod raises or returns no string, so that luaL_tolstring
     raises a Lua error *)
  displayOf : TValue TObject -> option string;
  (* to_jsstring on the bytes of a Lua string: the JavaScript string they
     encode in UTF-8, or the RangeError it throws when they are not valid
     UTF-8 *)
  decodeUtf8 : string -> JsException + string;
  newstate : world -> outcome world unit;
  openlibs : world -> outcome world unit;
  (* lua_pushcfunction followed by lua_setglobal under the given name *)
  setglobal : string -> world -> outcome world unit;
  (* luaL_loadbuffer(L, code, size, identity): the status and the value
     pushed, the compiled function or the error message *)
  loadbuffer : string -> nat -> string -> world -> outcome world (Z * TValue TObject);
  (* lua_pcall(L, 0, LUA_MULTRET, 0), given the stack: the function to call
     is the value on top *)
  pcall : list (TValue TObject) -> world -> outcome world (CallReport TObject);
  (* lua.lua_close, when the binding exports it *)
  lua_close : option (world -> outcome world unit);
  (* the exports of ./prelude the runtime imports *)
  buildPrelude : list string -> string;
  DEFAULT_STUBBED_SERVICES : list string
}.

Abbreviation value := (TValue TObject).

Section Runtime.

Context {F : Fengari}.

(** A native function installed in the interpreter: the closure [logger]
    of [registerLoggingFunction] with the prefix it captured.  The output
    array it captured is the one of the machine below. *)
Inductive native : Type := Logger (prefix : string).

(** The state a run works on.  The stack lists the values from index 1 up,
    the top last. *)
Record machine : Type := mkMachine {
  lstack : list value;
  natives : list (string * native);
  transcript : list string;
  host : world
}.

Definition M (A : Type) : Type := machine -> outcome machine A.

Definition ret {A} (a : A) : M A := fun m => Normal a m.

Definition bind {A B} (c : M A) (k : A -> M B) : M B :=
  fun m => match c m with
           | Normal a m' => k a m'
           | Throw e m' => Throw e m'
           end.

Notation "x <- c ;; k" := (bind c (fun x => k))
  (at level 61, c at next level, right associativity).
Notation "c ;;; k" := (bind c (fun _ => k))
  (at level 61, right associativity).

(** [try { body } finally { fin }] *)
Definition tryFinally {A} (body : M A) (fin : M unit) : M A :=
  fun m => match body m with
           | Normal a m' =>
               match fin m' with
               | Normal _ m'' => Normal a m''
               | Throw e m'' => Throw e m''
               end
           | Throw e m' =>
               match fin m' with
               | Normal _ m'' => Throw e m''
               | Throw e' m'' => Throw e' m''
               end
           end.

(** An operation of the interpreter that only touches the host world. *)
Definition liftHost {A} (op : world -> outcome world A) : M A :=
  fun m => match op (host m) with
           | Normal a w => Normal a (mkMachine (lstack m) (natives m) (transcript m) w)
           | Throw e w => Throw e (mkMachine (lstack m) (natives m) (transcript m) w)
           end.

(** *** The stack API *)

Definition lua_gettop (stk : list value) : nat := length stk.

(** The value at a positive index, or at a negative index counted from
    the top; [None] when the index is not acceptable. *)
Definition index2value (stk : list value) (idx : Z) : option value :=
  if (0 <? idx)%Z then nth_error stk (Z.to_nat idx - 1)
  else if (idx <? 0)%Z then
    if (Z.to_nat (- idx) <=? length stk)%nat
    then nth_error stk (length stk - Z.to_nat (- idx))
    else None
  else None.

(** [lua_tostring(L, idx)]; [None] is null. *)
Definition lua_tostring (stk : list value) (idx : Z) : option string :=
  match index2value stk idx with
  | Some (TString s) => Some s
  | Some (TOther o) => cvt2str o
  | None => None
  end.

(** [luaL_tolstring(L, idx)]: pushes the display string of the value;
    [None] when it raises a Lua error.  An index above the top holds nil. *)
Definition luaL_tolstring (stk : list value) (idx : Z) : option (list value) :=
  match index2value stk idx with
  | Some v =>
      match displayOf v with
      | Some s => Some (stk ++ [TString s])
      | None => None
      end
  | None => Some (stk ++ [TString "nil"])
  end.

(** [lua_pop(L, n)] *)
Definition lua_pop (stk : list value) (n : nat) : list value :=
  firstn (length stk - n) stk.

(** [to_jsstring(value)]: throws a TypeError when given null, and decodes
    the bytes of a Lua string otherwise, which throws a RangeError when
    they are not valid UTF-8. *)
Definition to_jsstring (v : option string) : JsException + string :=
  match v with
  | Some bytes => decodeUtf8 bytes
  | None => inl (JsError "to_jsstring expects a Uint8Array")
  end.

(** *** The output capture bridge *)

(** The body of the loop of [logger], from [index] on, [n] iterations. *)
Fixpoint loggerLoop (n : nat) (index : Z) (frame : list value) (buffer : list string)
  : ended (list value * list string) :=
  match n with
  | O => Returns (frame, buffer)
  | S n' =>
      match luaL_tolstring frame index with
      | None => Raises
      | Some frame1 =>
          match to_jsstring (lua_tostring frame1 (-1)) with
          | inl e => Throws e
          | inr text =>
              loggerLoop n' (index + 1) (lua_pop frame1 1) (buffer ++ [text])
          end
      end
  end.

(** The closure [logger] called on a frame holding the arguments: the
    number of values it returns to the script and the output array after
    the call, when it gets to its [return]. *)
Definition logger (prefix : string) (frame : list value) (out : list string)
  : ended (Z * list string) :=
  let top := lua_gettop frame in
  match loggerLoop top 1 frame [] with
  | Returns (_, buffer) =>
      Returns (0%Z, out ++ [(prefix ++ join (String TAB EmptyString) buffer)%string])
  | Raises => Raises
  | Throws e => Throws e
  end.

Definition registerLoggingFunction (functionName prefix : string) : M unit :=
  fun m =>
    match setglobal functionName (host m) with
    | Normal _ w =>
        Normal tt (mkMachine (lstack m) ((functionName, Logger prefix) :: natives m) (transcript m) w)
    | Throw e w => Throw e (mkMachine (lstack m) (natives m) (transcript m) w)
    end.

Fixpoint lookupNative (name : string) (l : list (string * native)) : option native :=
  match l with
  | (n, f) :: l' => if String.eqb n name then Some f else lookupNative name l'
  | [] => None
  end.

(** The script's calls of native functions, served in order.  A call that
    raises a Lua error has pushed nothing to the output array; what the
    script does next is in the calls that follow. *)
Fixpoint serveCalls (nat_ : list (string * native)) (cs : list (string * list value))
    (out : list string) : JsException + list string :=
  match cs with
  | [] => inr out
  | (name, args) :: cs' =>
      match lookupNative name nat_ with
      | Some (Logger prefix) =>
          match logger prefix args out with
          | Returns (_, out') => serveCalls nat_ cs' out'
          | Raises => serveCalls nat_ cs' out
          | Throws e => inl e
          end
      | None => serveCalls nat_ cs' out
      end
  end.

(** *** Interpreter calls on the machine *)

Definition luaL_newstate : M unit :=
  fun m => match newstate (host m) with
           | Normal _ w => Normal tt (mkMachine [] [] (transcript m) w)
           | Throw e w => Throw e (mkMachine (lstack m) (natives m) (transcript m) w)
           end.

Definition luaL_openlibs : M unit := liftHost openlibs.

Definition luaL_loadbuffer (code : string) (size : nat) (identity : string) : M Z :=
  fun m => match loadbuffer code size identity (host m) with
           | Normal (status, v) w =>
               Normal status (mkMachine (lstack m ++ [v]) (natives m) (transcript m) w)
           | Throw e w => Throw e (mkMachine (lstack m) (natives m) (transcript m) w)
           end.

(** [lua_pcall(L, 0, LUA_MULTRET, 0)]: the function on top of the stack is
    popped and run; the calls the script makes to the installed native
    functions are served, each on the transcript the one before left; the
    error value or the returned values are pushed. *)
Definition lua_pcall : M Z :=
  fun m =>
    let below := lua_pop (lstack m) 1 in
    match pcall (lstack m) (host m) with
    | Throw e w => Throw e (mkMachine below (natives m) (transcript m) w)
    | Normal rep w =>
        match serveCalls (natives m) (calls rep) (transcript m) with
        | inl e => Throw e (mkMachine below (natives m) (transcript m) w)
        | inr out =>
            Normal (callStatus rep)
                   (mkMachine (below ++ results rep) (natives m) out w)
        end
    end.

(** [to_jsstring(lua.lua_tostring(L, -1))] *)
Definition topToJsString : M string :=
  fun m => match to_jsstring (lua_tostring (lstack m) (-1)) with
           | inl e => Throw e m
           | inr s => Normal s m
           end.

Definition pop (n : nat) : M unit :=
  fun m => Normal tt (mkMachine (lua_pop (lstack m) n) (natives m) (transcript m) (host m)).

Definition now : M Z := fun m => Normal (performance_now (host m)) m.

Definition closeState : M unit :=
  match lua_close with
  | Some close => liftHost close
  | None => ret tt
  end.

(** ** The orchestrator *)

Definition preludeChunkName : string := "@roblox-prelude".

Definition initializePrelude (extraServices : option (list string))
  : M (option SimulationError) :=
  let preludeCode :=
    buildPrelude (match extraServices with Some l => l | None => DEFAULT_STUBBED_SERVICES end) in
  status <- luaL_loadbuffer preludeCode (String.length preludeCode) preludeChunkName ;;
  if negb (status =? LUA_OK)%Z then
    message <- topToJsString ;;
    ret (hd_error (extractErrors message preludeChunkName))
  else
    callStatus <- lua_pcall ;;
    if negb (callStatus =? LUA_OK)%Z then
      message <- topToJsString ;;
      ret (hd_error (extractErrors message preludeChunkName))
    else ret None.

(** The identity a user chunk is compiled under. *)
Definition chunkIdentity (c : SimulationChunk) : string :=
  String "@"%char (Chunk.chunkName c).

(** [executeChunk] returns the [errors] array after its pushes. *)
Definition executeChunk (c : SimulationChunk) (errors : list SimulationError)
  : M (list SimulationError) :=
  status <- luaL_loadbuffer (Chunk.code c) (String.length (Chunk.code c)) (chunkIdentity c) ;;
  if negb (status =? LUA_OK)%Z then
    message <- topToJsString ;;
    let errors := errors ++ extractErrors message (Chunk.chunkName c) in
    pop 1 ;;;
    ret errors
  else
    callStatus <- lua_pcall ;;
    if negb (callStatus =? LUA_OK)%Z then
      message <- topToJsString ;;
      let errors := errors ++ extractErrors message (Chunk.chunkName c) in
      pop 1 ;;;
      ret errors
    else ret errors.

(** The object literal of a [return] statement of [run]. *)
Definition result (ok : bool) (runStart : Z) (errors : list SimulationError)
  : M SimulationResult :=
  fun m => Normal (mkResult ok (performance_now (host m) - runStart) errors (transcript m)) m.

Definition nonEmpty {A} (l : list A) : bool :=
  match l with [] => false | _ => true end.

(** The loop over the preloads; [k] is the rest of the function. *)
Fixpoint forPreloads (l : list SimulationChunk) (runStart : Z)
    (errors : list SimulationError)
    (k : list SimulationError -> M SimulationResult) : M SimulationResult :=
  match l with
  | [] => k errors
  | preload :: l' =>
      errors <- executeChunk preload errors ;;
      if nonEmpty errors then result false runStart errors
      else forPreloads l' runStart errors k
  end.

(** The [try] block of [run]. *)
Definition pipeline (options : SimulationOptions) (runStart : Z)
    (errors : list SimulationError) : M SimulationResult :=
  preludeError <- initializePrelude (stubbedServices options) ;;
  match preludeError with
  | Some e => result false runStart (errors ++ [e])
  | None =>
      let afterPrelude errors :=
        forPreloads (match preloads options with Some l => l | None => [] end)
          runStart errors
          (fun errors =>
             errors <- executeChunk (chunk options) errors ;;
             result (negb (nonEmpty errors)) runStart errors) in
      match prelude options with
      | Some p =>
          errors <- executeChunk p errors ;;
          if nonEmpty errors then result false runStart errors
          else afterPrelude errors
      | None => afterPrelude errors
      end
  end.

(** [const output = []] *)
Definition newOutput : M unit :=
  fun m => Normal tt (mkMachine (lstack m) (natives m) [] (host m)).

(** What [run] does before it reads the clock. *)
Definition prepare : M unit :=
  luaL_newstate ;;;
  luaL_openlibs ;;;
  newOutput ;;;
  registerLoggingFunction "print" "" ;;;
  registerLoggingFunction "warn" "[warn] ".

(** The body of [run]: preparation, [runStart], then the [try] block with
    its [finally]. *)
Definition runM (options : SimulationOptions) : M SimulationResult :=
  prepare ;;;
  runStart <- now ;;
  tryFinally (pipeline options runStart []) closeState.

(** The machine of a call of [run] made in host state [w]. *)
Definition boot (w : world) : machine := mkMachine [] [] [] w.

(** [RobloxSimulator.run] from a state of the host. *)
Definition run (options : SimulationOptions) (w : world) : outcome world SimulationResult :=
  match runM options (boot w) with
  | Normal r m => Normal r (host m)
  | Throw e m => Throw e (host m)
  end.

(** ** The guarded call in [simulateDocument] *)

(** [error instanceof Error ? error.message : String(error)] *)
Definition exceptionMessage (e : JsException) : string :=
  match e with JsError msg => msg | JsThrown text => text end.

(** The [try]/[catch] around [simulator.run] in [simulateDocument]. *)
Definition simulateDocument (c : SimulationChunk) (preloads : list SimulationChunk)
    (stubbedServices : list string) (w : world) : SimulationResult * world :=
  match run (mkOptions c None (Some preloads) (Some stubbedServices)) w with
  | Normal r w' => (r, w')
  | Throw e w' =>
      (mkResult false 0 [ mkError (exceptionMessage e) (Chunk.chunkName c) None None None error ] [],
       w')
  end.

End Runtime.

(** ** A small interpreter for examples

    Instances of the interface that run a handful of scripts the way Lua
    does: the clock advances by fixed amounts, and a chunk compiled under
    the identity [@name] reports its errors as [name:line: message]. *)

Module Toy.

Inductive object : Type :=
| Number (text : string)
| Table
| Function (code identity : string)
| Guarded.                      (* a table whose __tostring metamethod raises *)

Definition cvt (o : object) : option string :=
  match o with Number t => Some t | _ => None end.

Definition display (v : TValue object) : option string :=
  match v with
  | TString s => Some s
  | TOther (Number t) => Some t
  | TOther Table => Some "table: 0x01"
  | TOther (Function _ _) => Some "function: 0x02"
  | TOther Guarded => None
  end.

(** Whether a byte is a continuation byte of UTF-8, 128 to 191. *)
Definition continuation (c : ascii) : bool :=
  (128 <=? nat_of_ascii c)%nat && (nat_of_ascii c <=? 191)%nat.

(** The UTF-8 decoder onto the code units 0..255: a byte below 128 is
    itself, and the lead bytes 194 and 195 with a continuation byte give
    the code units 128 to 255.  The scripts of the examples hold no text
    beyond these, and every other sequence here is one that is not valid
    UTF-8: a lead byte that cannot start a sequence, or a sequence that
    is cut short. *)
Fixpoint decodeLatin (bytes : string) : option string :=
  match bytes with
  | EmptyString => Some EmptyString
  | String u0 rest =>
      if (nat_of_ascii u0 <? 128)%nat then option_map (String u0) (decodeLatin rest)
      else if (nat_of_ascii u0 =? 194)%nat || (nat_of_ascii u0 =? 195)%nat then
        match rest with
        | String u1 rest' =>
            if continuation u1
            then option_map
                   (String (ascii_of_nat ((nat_of_ascii u0 - 192) * 64
                                          + (nat_of_ascii u1 - 128))))
                   (decodeLatin rest')
            else None
        | EmptyString => None
        end
      else None
  end.

Definition decode (bytes : string) : JsException + string :=
  match decodeLatin bytes with
  | Some text => inr text
  | None => inl (JsError "cannot convert invalid utf8 to javascript string")
  end.

(** luaO_chunkid for the identities used here. *)
Definition chunkid (identity : string) : string :=
  match identity with
  | String c s' =>
      if Ascii.eqb c "@"%char then s' else ("[string " ++ quoted identity ++ "]")%string
  | EmptyString => ("[string " ++ quoted identity ++ "]")%string
  end.

Definition tick (n : Z) (w : Z) : outcome Z unit := Normal tt (w + n)%Z.

Definition load (code : string) (size : nat) (identity : string) (w : Z)
  : outcome Z (Z * TValue object) :=
  if String.eqb code "x = = 1"
  then Normal (3%Z, TString (chunkid identity ++ ":1: unexpected symbol near '='")%string)
              (w + 1)%Z
  else Normal (0%Z, TOther (Function code identity)) (w + 1)%Z.

(** Scripts whose error values are strings. *)
Definition script (code identity : string) : CallReport object :=
  if String.eqb code "print('hello', 'world')" then
    mkReport [("print", [TString "hello"; TString "world"])] 0 []
  else if String.eqb code "warn('careful', 42)" then
    mkReport [("warn", [TString "careful"; TOther (Number "42")])] 0 []
  else if String.eqb code "print('before') error('boom')" then
    mkReport [("print", [TString "before"])] 2
             [TString (chunkid identity ++ ":1: boom")%string]
  else if String.eqb code "error('plain', 0)" then
    mkReport [] 2 [TString "plain"]
  else if String.eqb code "error('@main.luau:7: custom', 0)" then
    mkReport [] 2 [TString "@main.luau:7: custom"]
  else mkReport [] 0 [].

(** The same scripts, and one that raises a table. *)
Definition scriptWithTables (code identity : string) : CallReport object :=
  if String.eqb code "error({})" then mkReport [] 2 [TOther Table]
  else script code identity.

(** The string of the one byte 255, which is not valid UTF-8. *)
Definition byte255 : string := String "255"%char EmptyString.

(** The same scripts, and three that handle values without a text: one
    prints the byte 255, one raises it, and one prints a value whose
    __tostring metamethod raises. *)
Definition scriptWithBytes (code identity : string) : CallReport object :=
  if String.eqb code "print('\255')" then
    mkReport [("print", [TString byte255])] 0 []
  else if String.eqb code "error('\255', 0)" then
    mkReport [] 2 [TString byte255]
  else if String.eqb code "print('before') print(guarded) print('after')" then
    mkReport [("print", [TString "before"]); ("print", [TOther Guarded])] 2
             [TString (chunkid identity ++ ":1: boom")%string]
  else script code identity.

Definition call (sem : string -> string -> CallReport object)
    (stk : list (TValue object)) (w : Z) : outcome Z (CallReport object) :=
  match last (map Some stk) None with
  | Some (TOther (Function code identity)) => Normal (sem code identity) (w + 2)%Z
  | _ => Normal (mkReport [] 2 [TString "attempt to call a nil value"]) (w + 2)%Z
  end.

Definition make (create : Z -> outcome Z unit)
    (sem : string -> string -> CallReport object) : Fengari := {|
  world := Z;
  TObject := object;
  performance_now := fun w => w;
  cvt2str := cvt;
  displayOf := display;
  decodeUtf8 := decode;
  newstate := create;
  openlibs := tick 1;
  setglobal := fun _ => tick 0;
  loadbuffer := load;
  pcall := call sem;
  lua_close := Some (tick 0);
  buildPrelude := String.concat ";";
  DEFAULT_STUBBED_SERVICES := ["Players"; "ReplicatedStorage"]
|}.

(** The interpreter at work. *)
Definition interp : Fengari := make (tick 5) script.


(** The interpreter with scripts that raise tables. *)
Definition tables : Fengari := make (tick 5) scriptWithTables.

(** The interpreter with scripts that handle values without a text. *)
Definition bytes : Fengari := make (tick 5) scriptWithBytes.

Definition options (target : SimulationChunk) (pre : list SimulationChunk)
  : SimulationOptions :=
  mkOptions target None (Some pre) None.

End Toy.

(** ** Vocabulary of the specification *)

Section Vocabulary.

Context {F : Fengari}.

(** What [lua_tostring] gives for a value; [None] is null. *)
Definition valueText (v : value) : option string :=
  match v with
  | TString s => Some s
  | TOther o => cvt2str o
  end.

(** The stages of the pipeline as the specification lists them. *)
Inductive stage : Type :=
| Setup (services : option (list string))
| Load (c : SimulationChunk).

Definition runStage (s : stage) : M (list SimulationError) :=
  match s with
  | Setup services =>
      bind (initializePrelude services)
           (fun e => ret (match e with Some d => [d] | None => [] end))
  | Load c => executeChunk c []
  end.

(** The stages in order, up to and including the first one that yields
    Diagnostics. *)
Fixpoint firstFailure (l : list stage) : M (list SimulationError) :=
  match l with
  | [] => ret []
  | s :: l' =>
      bind (runStage s)
           (fun errs => if nonEmpty errs then ret errs else firstFailure l')
  end.

Definition optionalStage (c : option SimulationChunk) : list stage :=
  match c with Some p => [Load p] | None => [] end.

Definition preloadsOf (o : SimulationOptions) : list SimulationChunk :=
  match preloads o with Some l => l | None => [] end.

(** Environment setup, optional shared bootstrap, preloads in the supplied
    order, target. *)
Definition stagesOf (o : SimulationOptions) : list stage :=
  Setup (stubbedServices o)
    :: optionalStage (prelude o) ++ map Load (preloadsOf o) ++ [Load (chunk o)].

Definition pipelineInOrder (o : SimulationOptions) (runStart : Z) : M SimulationResult :=
  bind (firstFailure (stagesOf o))
       (fun errs => result (negb (nonEmpty errs)) runStart errs).

(** The run as the specification times it: the clock is read before the
    interpreter is created. *)
Definition runTimedFromCreation (options : SimulationOptions) (w : world)
  : outcome world SimulationResult :=
  match bind now (fun runStart =>
          bind prepare (fun _ =>
            tryFinally (pipeline options runStart []) closeState)) (boot w) with
  | Normal r m => Normal r (host m)
  | Throw e m => Throw e (host m)
  end.

(** The text a hook writes for an argument: the display string of the
    value, decoded.  [None] when [luaL_tolstring] raises or [to_jsstring]
    throws. *)
Definition displayText (v : value) : option string :=
  match displayOf v with
  | Some bytes =>
      match decodeUtf8 bytes with
      | inr text => Some text
      | inl _ => None
      end
  | None => None
  end.

(** The texts of all the arguments of a call, when each has one. *)
Fixpoint displayTexts (args : list value) : option (list string) :=
  match args with
  | [] => Some []
  | v :: args' =>
      match displayText v, displayTexts args' with
      | Some text, Some texts => Some (text :: texts)
      | _, _ => None
      end
  end.

(** The code a stage compiles, the identity it compiles it under, and the
    fallback chunk name it gives the translator. *)
Definition codeOf (s : stage) : string :=
  match s with
  | Setup services =>
      buildPrelude (match services with Some l => l | None => DEFAULT_STUBBED_SERVICES end)
  | Load c => Chunk.code c
  end.

Definition identityOf (s : stage) : string :=
  match s with
  | Setup _ => preludeChunkName
  | Load c => chunkIdentity c
  end.


(** What the interpreter answers when code is compiled under an identity
    and called, from a machine: a call into the binding threw; or the code
    compiled and ran with the status [LUA_OK]; or a status reported a
    failure, and [lua_tostring(L, -1)] gives this for the error value
    ([None] is null). *)
Inductive answer : Type :=
| Threw (e : JsException)
| Passed
| Failed (text : option string).

Definition answerOf (code identity : string) (m : machine) : answer :=
  match loadbuffer code (String.length code) identity (host m) with
  | Throw e _ => Threw e
  | Normal (status, v) w =>
      if negb (status =? LUA_OK)%Z then Failed (valueText v)
      else
        match pcall (lstack m ++ [v]) w with
        | Throw e _ => Threw e
        | Normal rep _ =>
            match serveCalls (natives m) (calls rep) (transcript m) with
            | inl e => Threw e
            | inr _ =>
                if negb (callStatus rep =? LUA_OK)%Z
                then Failed (lua_tostring (lstack m ++ results rep) (-1))
                else Passed
            end
        end
  end.






(** The headline has the direct shape and names the identity: the
    identity, which holds no colon and does not start with a bracket, then
    a colon, digits, a colon and the message. *)
Definition directShape (identity headline : string) : Prop :=
  exists c I d D M,
    identity = String c I
    /\ Ascii.eqb "["%char c = false
    /\ allChars notColon identity = true
    /\ allChars isDigit (String d D) = true
    /\ headline = (identity ++ ":" ++ String d D ++ ":" ++ M)%string.

(** The headline has the quoted shape and names the identity, which holds
    no double quote. *)
Definition quotedShape (identity headline : string) : Prop :=
  exists c I d D M,
    identity = String c I
    /\ allChars notQuote identity = true
    /\ allChars isDigit (String d D) = true
    /\ headline = ("[string " ++ quoted identity ++ "]:" ++ String d D ++ ":" ++ M)%string.

Definition namesIdentity (identity headline : string) : Prop :=
  directShape identity headline \/ quotedShape identity headline.

(** The Diagnostics of severity error in a list. *)
Definition errorsOnly (l : list SimulationError) : list SimulationError :=
  filter (fun d => match severity d with error => true | warning => false end) l.

(** The result a [return] statement of [run] builds in machine [m], for a
    run started at [runStart]: the clock is read there, and the arrays are
    the ones of the run. *)
Definition returnedAt (runStart : Z) (r : SimulationResult) (m : machine) : Prop :=
  durationMs r = (performance_now (host m) - runStart)%Z
  /\ output r = transcript m
  /\ ((success r = true /\ errors r = [])
      \/ (success r = false /\ exists d, errors r = [d] /\ severity d = error)).

End Vocabulary.

(** ** Vocabulary of the further properties *)

Definition notLF (c : ascii) : bool := negb (Ascii.eqb c LF).
Definition notCR (c : ascii) : bool := negb (Ascii.eqb c CR).

(** The integer a string of decimal digits writes. *)
Fixpoint decimalFrom (digits : string) (acc : Z) : Z :=
  match digits with
  | String c digits' => decimalFrom digits' (10 * acc + digitValue c)
  | EmptyString => acc
  end.

Definition decimal (digits : string) : Z := decimalFrom digits 0.

(** The text a Diagnostic keeps: its message, then its stack on the lines
    after it. *)
Definition keptText (d : SimulationError) : string :=
  (message d ++ match stack d with
                | Some trailer => String LF trailer
                | None => ""
                end)%string.

Section OutputVocabulary.
Context {F : Fengari}.

(** The calls of native functions the interpreter reports when code is
    compiled under an identity and called, from a machine; none when the
    code is not run. *)
Definition callsOf (code identity : string) (m : machine)
  : list (string * list value) :=
  match loadbuffer code (String.length code) identity (host m) with
  | Normal (status, f) w =>
      if (status =? LUA_OK)%Z then
        match pcall (lstack m ++ [f]) w with
        | Normal rep _ => calls rep
        | Throw _ _ => []
        end
      else []
  | Throw _ _ => []
  end.

(** The lines the calls of a report add to the output, in order: for each
    call of a registered logging function whose arguments all have a
    display text, its prefix and the texts joined by tabs; nothing for a
    call of another name or a call that raised. *)
Fixpoint linesOfCalls (registry : list (string * native))
    (cs : list (string * list value)) : list string :=
  match cs with
  | [] => []
  | (name, args) :: cs' =>
      match lookupNative name registry, displayTexts args with
      | Some (Logger prefix), Some texts =>
          (prefix ++ join (String TAB EmptyString) texts)%string
          :: linesOfCalls registry cs'
      | _, _ => linesOfCalls registry cs'
      end
  end.

(** The lines of the stages of a list run in order from a machine, up to
    and including the first one that yields Diagnostics. *)
Fixpoint linesOfStages (l : list stage) (m : machine) : list string :=
  match l with
  | [] => []
  | s :: l' =>
      linesOfCalls (natives m) (callsOf (codeOf s) (identityOf s) m)
      ++ match runStage s m with
         | Normal [] m' => linesOfStages l' m'
         | _ => []
         end
  end.

End OutputVocabulary.

(** ** Counting the calls of [lua_close]

    The host [F] with a counter beside its world: every operation leaves
    the counter alone, except [lua_close], which adds one to it whether it
    returns or throws. *)

Definition countedOp {W A} (op : W -> outcome W A) (tick : nat -> nat)
    (wn : W * nat) : outcome (W * nat) A :=
  match op (fst wn) with
  | Normal a w' => Normal a (w', tick (snd wn))
  | Throw e w' => Throw e (w', tick (snd wn))
  end.

Definition Counted (F : Fengari) : Fengari := {|
  world := (@world F * nat)%type;
  TObject := @TObject F;
  performance_now := fun wn => @performance_now F (fst wn);
  cvt2str := @cvt2str F;
  displayOf := @displayOf F;
  decodeUtf8 := @decodeUtf8 F;
  newstate := countedOp (@newstate F) (fun n => n);
  openlibs := countedOp (@openlibs F) (fun n => n);
  setglobal := fun name => countedOp (@setglobal F name) (fun n => n);
  loadbuffer := fun code size identity =>
    countedOp (@loadbuffer F code size identity) (fun n => n);
  pcall := fun stk => countedOp (@pcall F stk) (fun n => n);
  lua_close := option_map (fun close => countedOp close S) (@lua_close F);
  buildPrelude := @buildPrelude F;
  DEFAULT_STUBBED_SERVICES := @DEFAULT_STUBBED_SERVICES F
|}.

(** Whether the preparation of [run] returns. *)
Definition prepared {F : Fengari} (w : world) : bool :=
  match prepare (boot w) with
  | Normal _ _ => true
  | Throw _ _ => false
  end.


Section Counting.

Context {F : Fengari}.

(** A machine of the host, with the counter beside its host state. *)
Definition withCount (m : machine) (n : nat) : @machine (Counted F) :=
  @mkMachine (Counted F) (lstack m) (natives m) (transcript m) (host m, n).

Definition counted {A} (o : outcome (@machine F) A) (n : nat)
  : outcome (@machine (Counted F)) A :=
  match o with
  | Normal a m => Normal a (withCount m n)
  | Throw e m => Throw e (withCount m n)
  end.

(** [c'] on the counting host does what [c] does and leaves the counter. *)
Definition mirrors {A} (c' : @M (Counted F) A) (c : @M F A) : Prop :=
  forall m n, c' (withCount m n) = counted (c m) n.

(** The number of calls of [lua_close] a call of [run] makes from the host
    state [w]: one when [lua_close] is a function and the statements before
    the [try] block return, none otherwise. *)
Definition closesOf (w : world) : nat :=
  match @lua_close F with
  | Some _ => if prepared w then 1 else 0
  | None => 0
  end.

End Counting.

(** ** The extension host: [src/extension.ts] *)

(** [s.toLowerCase()], on the code units 0..255: the letters A to Z and
    the capital letters 192 to 222, the multiplication sign apart. *)
Definition lowerChar (c : ascii) : ascii :=
  let n := nat_of_ascii c in
  if ((65 <=? n) && (n <=? 90) || (192 <=? n) && (n <=? 222) && negb (n =? 215))%nat
  then ascii_of_nat (n + 32)
  else c.

Fixpoint toLowerCase (s : string) : string :=
  match s with
  | String c s' => String (lowerChar c) (toLowerCase s')
  | EmptyString => EmptyString
  end.

(** The text of an integer in a template literal. *)
Definition showNumber (z : Z) : string := NilZero.string_of_int (Z.to_int z).

Module Vscode.

Inductive DiagnosticSeverity : Type := Error | Warning.

(** [new vscode.Range(startLine, startCharacter, endLine, endCharacter)] *)
Record Range : Type := mkRange {
  startLine : Z;
  startCharacter : Z;
  endLine : Z;
  endCharacter : Z
}.

Record Diagnostic : Type := mkDiagnostic {
  range : Range;
  message : string;
  severity : DiagnosticSeverity;
  source : string
}.

End Vscode.

(** What the extension reads of a [vscode.TextDocument]. *)
Record TextDocument : Type := mkDocument {
  uriScheme : string;        (* document.uri.scheme *)
  uriFsPath : string;        (* document.uri.fsPath *)
  fileName : string;
  languageId : string;
  lineCount : Z;
  lineEnd : Z -> Z;          (* lineAt(i).range.end.character on a line of the document *)
  getText : string
}.

(** [document.lineAt(i)], as far as its end character: it throws for an
    index that is not a line of the document. *)
Definition lineAt (document : TextDocument) (i : Z) : JsException + Z :=
  if ((0 <=? i) && (i <? lineCount document))%Z
  then inr (lineEnd document i)
  else inl (JsError "Illegal value for `line`").

Inductive SimulationMode : Type := single | batch | save.

(** What the extension does to the editor: lines appended to its output
    channel, the channel revealed, notifications, the status bar. *)
Inductive UiEvent : Type :=
| AppendLine (text : string)
| ShowChannel
| ShowInformationMessage (text : string)
| ShowWarningMessage (text : string)
| ShowErrorMessage (text : string)
| SetStatusBarMessage (text : string) (hideAfter : Z).

(** The settings of the section [rs-code-simulator], each [None] when it
    is not set. *)
Record Configuration : Type := mkConfiguration {
  stubbedServicesSetting : option (list string);
  preloadScriptsSetting : option (list string);
  showOutputOnSuccessSetting : option bool;
  runOnSaveSetting : option bool
}.

(** The modules of Node and of VS Code the extension calls: [node:path],
    [process.platform], [vscode.Uri] and the decoding of a file's bytes. *)
Class ExtensionHost : Type := {
  Uri : Type;
  Bytes : Type;
  Uri_file : string -> Uri;
  Uri_joinPath : Uri -> string -> Uri;
  fsPath : Uri -> string;
  utf8 : Bytes -> string;
  path_normalize : string -> string;
  path_basename : string -> string;
  path_dirname : string -> string;
  path_isAbsolute : string -> bool;
  path_join : string -> string -> string;
  platform : string
}.

(** The state of the workspace a command finds. *)
Record Workspace {H : ExtensionHost} : Type := mkWorkspace {
  workspaceFolders : option (list Uri);
  readFile : Uri -> option Bytes;     (* None: the read is rejected *)
  configurationOf : TextDocument -> Configuration
}.

Section Extension.

Context {H : ExtensionHost}.

Definition normalizePath (value : string) : string :=
  let normalized := path_normalize value in
  if String.eqb platform "win32" then toLowerCase normalized else normalized.

Definition equalsPath (left right : string) : bool :=
  String.eqb (normalizePath left) (normalizePath right).

Definition clampToDocument (document : TextDocument) (line : Z) : Z :=
  if (line <? 0)%Z then 0%Z
  else if (line >=? lineCount document)%Z then (lineCount document - 1)%Z
  else line.

Definition isLuauDocument (document : TextDocument) : bool :=
  let languageId := toLowerCase (languageId document) in
  String.eqb languageId "lua" || String.eqb languageId "luau".

Definition getChunkName (document : TextDocument) : string :=
  if String.eqb (uriScheme document) "file" then uriFsPath document
  else fileName document.

(** The callback of [relevantErrors.map] in [applyDiagnostics]. *)
Definition toDiagnostic (document : TextDocument) (e : SimulationError)
  : JsException + Vscode.Diagnostic :=
  let zeroIndexedLine :=
    clampToDocument document ((match line e with Some n => n | None => 1 end) - 1) in
  match lineAt document zeroIndexedLine with
  | inl ex => inl ex
  | inr endCharacter =>
      inr (Vscode.mkDiagnostic
             (Vscode.mkRange zeroIndexedLine 0 zeroIndexedLine endCharacter)
             (message e)
             (match severity e with
              | warning => Vscode.Warning
              | error => Vscode.Error
              end)
             "Roblox simulator")
  end.

(** [array.map(f)] for a callback that may throw. *)
Fixpoint mapThrowing {A B} (f : A -> JsException + B) (l : list A) : JsException + list B :=
  match l with
  | [] => inr []
  | a :: l' =>
      match f a with
      | inl ex => inl ex
      | inr b =>
          match mapThrowing f l' with
          | inl ex => inl ex
          | inr bs => inr (b :: bs)
          end
      end
  end.

(** [applyDiagnostics]: the list it sets for the document's uri. *)
Definition applyDiagnostics (document : TextDocument) (result : SimulationResult)
  : JsException + list Vscode.Diagnostic :=
  let relevantErrors :=
    filter (fun e => equalsPath (chunkName e) (getChunkName document)) (errors result) in
  if (length relevantErrors =? 0)%nat then inr []
  else mapThrowing (toDiagnostic document) relevantErrors.

(** The lines [logResult] writes for one Diagnostic. *)
Definition errorLines (e : SimulationError) : list UiEvent :=
  AppendLine ("  [" ++ chunkName e ++ "] " ++ message e)%string
  :: match stack e with
     | Some trailer => if isEmpty trailer then [] else [AppendLine ("    " ++ trailer)%string]
     | None => []
     end.

(** [logResult].  [Math.round] is the identity on the integer durations of
    the model. *)
Definition logResult (document : TextDocument) (result : SimulationResult)
    (mode : SimulationMode) (showOutputOnSuccess : bool) : list UiEvent :=
  let header := ("[" ++ fileName document ++ "]")%string in
  let duration := (showNumber (durationMs result) ++ "ms")%string in
  let outputBlock :=
    if nonEmpty (output result) then
      AppendLine (header ++ " Output (" ++ duration ++ "):")%string
      :: map (fun line => AppendLine ("  " ++ line)%string) (output result)
    else [] in
  if negb (success result) then
    outputBlock
    ++ AppendLine (header ++ " Errors (" ++ duration ++ "):")%string
    :: flat_map errorLines (errors result)
    ++ [ ShowErrorMessage ("Roblox simulation failed for "
                           ++ path_basename (fileName document)
                           ++ ". See the output channel for details.")%string;
         ShowChannel ]
  else
    outputBlock
    ++ match mode with
       | single =>
           SetStatusBarMessage ("Roblox simulation succeeded for "
                                ++ path_basename (fileName document)
                                ++ " in " ++ duration ++ ".")%string 4000
           :: (if showOutputOnSuccess && nonEmpty (output result) then [ShowChannel] else [])
       | _ => []
       end.

(** The uris tried for one entry, in order. *)
Definition candidateUris (ws : Workspace) (docFolder : option string) (entry : string)
  : list Uri :=
  if path_isAbsolute entry then [Uri_file entry]
  else
    (match docFolder with
     | Some folder => if isEmpty folder then [] else [Uri_file (path_join folder entry)]
     | None => []
     end)
    ++ map (fun folder => Uri_joinPath folder entry)
           (match workspaceFolders ws with Some l => l | None => [] end).

(** The loop over the candidates: the first one that can be read. *)
Fixpoint firstReadable (ws : Workspace) (candidates : list Uri) : option (Bytes * Uri) :=
  match candidates with
  | [] => None
  | candidate :: rest =>
      match readFile ws candidate with
      | Some content => Some (content, candidate)
      | None => firstReadable ws rest
      end
  end.

(** The loop over the entries, with the two arrays it fills. *)
Fixpoint resolveEntries (ws : Workspace) (docFolder : option string)
    (entries : list string) (chunks : list SimulationChunk) (missing : list string)
  : list SimulationChunk * list string :=
  match entries with
  | [] => (chunks, missing)
  | rawEntry :: rest =>
      let entry := trim rawEntry in
      if isEmpty entry then resolveEntries ws docFolder rest chunks missing
      else
        match firstReadable ws (candidateUris ws docFolder entry) with
        | None => resolveEntries ws docFolder rest chunks (missing ++ [entry])
        | Some (content, uri) =>
            resolveEntries ws docFolder rest
              (chunks ++ [mkChunk (utf8 content) (fsPath uri)]) missing
        end
  end.

Definition resolvePreloadChunks (ws : Workspace) (entries : list string)
    (document : TextDocument) : list SimulationChunk * list string :=
  let docFolder :=
    if String.eqb (uriScheme document) "file"
    then Some (path_dirname (uriFsPath document))
    else None in
  resolveEntries ws docFolder entries [] [].

End Extension.

Section ExtensionVocabulary.
Context {H : ExtensionHost}.

Definition isAppendLine (e : UiEvent) : bool :=
  match e with AppendLine _ => true | _ => false end.

(** The entries of the setting as the loop sees them: trimmed, the blank
    ones left out. *)
Definition nonBlankEntries (entries : list string) : list string :=
  filter (fun entry => negb (isEmpty entry)) (map trim entries).

(** The chunk an entry resolves to, if any of its candidates can be read. *)
Definition resolveEntry (ws : Workspace) (docFolder : option string) (entry : string)
  : option SimulationChunk :=
  match firstReadable ws (candidateUris ws docFolder entry) with
  | Some (content, uri) => Some (mkChunk (utf8 content) (fsPath uri))
  | None => None
  end.

Definition resolvedChunks (ws : Workspace) (docFolder : option string)
    (entries : list string) : list SimulationChunk :=
  flat_map (fun entry => match resolveEntry ws docFolder entry with
                         | Some c => [c]
                         | None => []
                         end) entries.

Definition unresolved (ws : Workspace) (docFolder : option string)
    (entries : list string) : list string :=
  filter (fun entry => match resolveEntry ws docFolder entry with
                       | Some _ => false
                       | None => true
                       end) entries.

(** What one editor Diagnostic has to do with the Diagnostic of the run it
    comes from, in a document. *)
Definition marks (document : TextDocument) (e : SimulationError) (g : Vscode.Diagnostic)
  : Prop :=
  (0 <= Vscode.startLine (Vscode.range g) < lineCount document)%Z
  /\ Vscode.startLine (Vscode.range g)
     = clampToDocument document ((match line e with Some n => n | None => 1 end) - 1)
  /\ Vscode.endLine (Vscode.range g) = Vscode.startLine (Vscode.range g)
  /\ Vscode.startCharacter (Vscode.range g) = 0%Z
  /\ Vscode.endCharacter (Vscode.range g) = lineEnd document (Vscode.startLine (Vscode.range g))
  /\ Vscode.message g = message e
  /\ Vscode.severity g = match severity e with
                          | warning => Vscode.Warning
                          | error => Vscode.Error
                          end
  /\ Vscode.source g = "Roblox simulator".

End ExtensionVocabulary.

(** ** One simulation of a document, and the workspace command *)

Section Sessions.

Context {F : Fengari} {H : ExtensionHost}.

(** What a call of [simulateDocument] did: the events in order, the list
    it set for the document in the diagnostics collection ([None] when it
    did not get there), what it returned or threw, the host state. *)
Record Session : Type := mkSession {
  events : list UiEvent;
  published : option (list Vscode.Diagnostic);
  returned : JsException + SimulationResult;
  worldAfter : world
}.

(** The chunks and services [simulateDocument] passes to [run]. *)
Definition sessionServices (ws : Workspace) (document : TextDocument) : list string :=
  match stubbedServicesSetting (configurationOf ws document) with
  | Some l => l
  | None => DEFAULT_STUBBED_SERVICES
  end.

Definition sessionEntries (ws : Workspace) (document : TextDocument) : list string :=
  match preloadScriptsSetting (configurationOf ws document) with
  | Some l => l
  | None => []
  end.

Definition sessionChunk (document : TextDocument) : SimulationChunk :=
  mkChunk (getText document) (getChunkName document).

(** [simulateDocument(document, diagnostics, mode)] of the extension as a
    whole, around its guarded call of [run] (the definition
    [simulateDocument] above): the settings, the preloads, the call, then
    [applyDiagnostics] and [logResult].  When [applyDiagnostics] throws the
    promise is rejected and nothing is logged. *)
Definition simulateDocumentSession (ws : Workspace) (document : TextDocument)
    (mode : SimulationMode) (w : world) : Session :=
  let stubbedServices := sessionServices ws document in
  let preloadEntries := sessionEntries ws document in
  let showOutputOnSuccess :=
    match showOutputOnSuccessSetting (configurationOf ws document) with
    | Some b => b
    | None => match mode with single => true | _ => false end
    end in
  let (preloads, missing) := resolvePreloadChunks ws preloadEntries document in
  let missingEvents :=
    if nonEmpty missing then
      AppendLine ("[" ++ fileName document ++ "] Missing preload scripts: "
                  ++ join ", " missing)%string
      :: match mode with
         | single =>
             [ShowWarningMessage ("Roblox simulator skipped missing preload scripts: "
                                  ++ join ", " missing)%string]
         | _ => []
         end
    else [] in
  let (result, w') := simulateDocument (sessionChunk document) preloads stubbedServices w in
  match applyDiagnostics document result with
  | inl ex => mkSession missingEvents None (inl ex) w'
  | inr diagnostics =>
      mkSession (missingEvents ++ logResult document result mode showOutputOnSuccess)
                (Some diagnostics) (inr result) w'
  end.

(** The options of the call of [run] in a session. *)
Definition sessionOptions (ws : Workspace) (document : TextDocument) : SimulationOptions :=
  mkOptions (sessionChunk document) None
            (Some (fst (resolvePreloadChunks ws (sessionEntries ws document) document)))
            (Some (sessionServices ws document)).

(** The summary line of the workspace command. *)
Definition workspaceSummary (failed : Z) : string :=
  if (failed =? 0)%Z
  then "Roblox workspace simulation completed without runtime errors."
  else ("Roblox workspace simulation found issues in " ++ showNumber failed ++ " file"
        ++ (if (failed =? 1)%Z then "" else "s") ++ ".")%string.

(** The loop of the workspace command over the documents it opened. *)
Fixpoint simulateAll (ws : Workspace) (documents : list TextDocument)
    (failed : Z) (log : list UiEvent) (w : world)
  : JsException + (Z * list UiEvent * world) :=
  match documents with
  | [] => inr (failed, log, w)
  | document :: rest =>
      let s := simulateDocumentSession ws document batch w in
      match returned s with
      | inl ex => inl ex
      | inr result =>
          simulateAll ws rest
            (if negb (success result) then failed + 1 else failed)%Z
            (log ++ events s) (worldAfter s)
      end
  end.

(** The command [rs-code-simulator.runWorkspace], on the documents that
    [findFiles] and [openTextDocument] gave it.  The diagnostics collection
    is cleared before the loop; each session then sets the list of its own
    document ([published]). *)
Definition runWorkspace (ws : Workspace) (candidateFiles : list TextDocument) (w : world)
  : JsException + (list UiEvent * world) :=
  if (length candidateFiles =? 0)%nat then
    inr ([ShowInformationMessage "No Luau files found to execute."], w)
  else
    match simulateAll ws candidateFiles 0 [] w with
    | inl ex => inl ex
    | inr (failed, log, w') =>
        let summary := workspaceSummary failed in
        inr (log ++ AppendLine summary
                 :: (if (failed =? 0)%Z then [SetStatusBarMessage summary 4000]
                     else [ShowErrorMessage summary; ShowChannel]),
             w')
    end.

End Sessions.

Section SessionVocabulary.
Context {F : Fengari} {H : ExtensionHost}.

(** The sessions of the workspace command, one per document, each from
    the host state the one before left. *)
Fixpoint sessionsOf (ws : Workspace) (documents : list TextDocument) (w : world)
  : list Session :=
  match documents with
  | [] => []
  | document :: rest =>
      let s := simulateDocumentSession ws document batch w in
      s :: sessionsOf ws rest (worldAfter s)
  end.

Definition failedSession (s : Session) : bool :=
  match returned s with
  | inr result => negb (success result)
  | inl _ => false
  end.

Definition lastWorld (sessions : list Session) (w : world) : world :=
  last (map worldAfter sessions) w.

End SessionVocabulary.

(** ** A toy editor, for examples *)

Module ToyEditor.

Fixpoint hasSlash (s : string) : bool :=
  match s with
  | String c s' => Ascii.eqb c "/"%char || hasSlash s'
  | EmptyString => false
  end.

Fixpoint basename (s : string) : string :=
  match s with
  | String c s' =>
      if hasSlash s' then basename s'
      else if Ascii.eqb c "/"%char then s' else s
  | EmptyString => EmptyString
  end.

Fixpoint dirname (s : string) : string :=
  match s with
  | String c s' => if hasSlash s' then String c (dirname s') else EmptyString
  | EmptyString => EmptyString
  end.

(** A POSIX host whose uris are their paths and whose files hold text. *)
Definition posix : ExtensionHost := {|
  Uri := string;
  Bytes := string;
  Uri_file := fun p => p;
  Uri_joinPath := fun folder entry => (folder ++ "/" ++ entry)%string;
  fsPath := fun uri => uri;
  utf8 := fun content => content;
  path_normalize := fun p => p;
  path_basename := basename;
  path_dirname := dirname;
  path_isAbsolute := prefix "/";
  path_join := fun folder entry => (folder ++ "/" ++ entry)%string;
  platform := "linux"
|}.

Definition document (path text : string) : TextDocument :=
  mkDocument "file" path path "luau" 3 (fun _ => 20%Z) text.

Definition files (uri : string) : option string :=
  if String.eqb uri "/game/lib.luau" then Some "warn('careful', 42)"
  else if String.eqb uri "/opt/shared.luau" then Some "print('hello', 'world')"
  else None.

Definition settings (entries : list string) : Configuration :=
  mkConfiguration None (Some entries) None None.

Definition workspace (folders : list string) (entries : list string)
  : @Workspace posix :=
  @mkWorkspace posix (Some folders) files (fun _ => settings entries).

End ToyEditor.

(** * Properties *)

(** ** The error translator *)

Section TranslatorFacts.

Lemma extractErrors_singleton (raw fb : string) :
  exists d, extractErrors raw fb = [d] /\ severity d = error.
Proof.
  unfold extractErrors.
  destruct (isEmpty (trim raw)).
  - eexists; split; reflexivity.
  - destruct (exec pattern (headlineOf (trim raw))); eexists; split; reflexivity.
Qed.

Lemma extractErrors_unmatched (raw fb : string) :
  isEmpty (trim raw) = true \/ exec pattern (headlineOf (trim raw)) = None ->
  forall d, In d (extractErrors raw fb) -> chunkName d = fb.
Proof.
  unfold extractErrors. intros H d Hd.
  destruct (isEmpty (trim raw)) eqn:E.
  - destruct Hd as [<- | []]. reflexivity.
  - destruct H as [H | H]; [discriminate |].
    rewrite H in Hd. destruct Hd as [<- | []]. reflexivity.
Qed.

Lemma extractErrors_matched (raw fb : string) (m : mstate) :
  isEmpty (trim raw) = false ->
  exec pattern (headlineOf (trim raw)) = Some m ->
  forall d, In d (extractErrors raw fb) ->
    chunkName d = stripSigil (capturedIdentity m fb).
Proof.
  unfold extractErrors. intros E H d Hd.
  rewrite E, H in Hd. destruct Hd as [<- | []]. reflexivity.
Qed.

(** C5.  The translator on the two known error shapes and on the empty
    text: [[string "X"]:12: boom] gives chunk name [X], line 12 and
    message [boom]; [myfile.luau:3: nil index] gives chunk name
    [myfile.luau], line 3 and message [nil index]; the empty text gives
    exactly one Diagnostic, the generic unknown-error one, under the
    fallback identity. *)
Theorem extractErrors_known_shapes (fallbackChunk : string) :
  extractErrors ("[string " ++ quoted "X" ++ "]:12: boom")%string fallbackChunk
    = [ mkError "boom" "X" (Some 12%Z) None None error ]
  /\ extractErrors "myfile.luau:3: nil index" fallbackChunk
    = [ mkError "nil index" "myfile.luau" (Some 3%Z) None None error ]
  /\ extractErrors "" fallbackChunk
    = [ mkError "Unknown error raised by Roblox simulator runtime."
                fallbackChunk None None None error ].
Proof.
  split; [| split].
  - unfold extractErrors.
    replace (trim ("[string " ++ quoted "X" ++ "]:12: boom")%string)
      with ("[string " ++ quoted "X" ++ "]:12: boom")%string by (vm_compute; reflexivity).
    vm_compute. reflexivity.
  - unfold extractErrors.
    replace (trim "myfile.luau:3: nil index") with "myfile.luau:3: nil index"
      by (vm_compute; reflexivity).
    vm_compute. reflexivity.
  - unfold extractErrors. simpl. reflexivity.
Qed.

(** C6.  The translator is total and returns exactly one Diagnostic, of
    severity error, for every raw text and fallback identity; when the
    text is not blank and its headline matches neither known shape, the
    Diagnostic has the headline verbatim as message, the remaining lines
    (joined by line feeds) as stack when there are any, no line, and the
    fallback identity as chunk name. *)
Theorem extractErrors_total_with_fallback (rawMessage fallbackChunk : string) :
  (exists d, extractErrors rawMessage fallbackChunk = [d] /\ severity d = error)
  /\ (isEmpty (trim rawMessage) = false ->
      exec pattern (hd EmptyString (splitLines (trim rawMessage))) = None ->
      extractErrors rawMessage fallbackChunk =
        [ mkError (hd EmptyString (splitLines (trim rawMessage)))
                  fallbackChunk None None
                  (orUndefined
                     (join (String LF EmptyString) (tl (splitLines (trim rawMessage)))))
                  error ]).
Proof.
  split.
  - apply extractErrors_singleton.
  - intros Hblank Hshape.
    unfold extractErrors, headlineOf, stackOf.
    rewrite Hblank, Hshape. reflexivity.
Qed.

(** An unrecognised error text with a trailer of two lines. *)
Lemma extractErrors_total_with_fallback_witness :
  extractErrors ("attempt to call a nil value" ++ String LF "stack traceback:"
                   ++ String CR (String LF "  [C]: in ?"))%string "main.luau"
  = [ mkError "attempt to call a nil value" "main.luau" None None
              (Some ("stack traceback:" ++ String LF "  [C]: in ?")%string) error ].
Proof.
  refine (eq_trans
    (proj2 (extractErrors_total_with_fallback
       ("attempt to call a nil value" ++ String LF "stack traceback:"
          ++ String CR (String LF "  [C]: in ?"))%string "main.luau") _ _) _);
    vm_compute; reflexivity.
Defined.

End TranslatorFacts.

(** ** The pattern on texts of the two shapes *)

Section PatternFacts.

Open Scope string_scope.

Lemma append_empty_r (s : string) : s ++ "" = s.
Proof. induction s; simpl; congruence. Qed.

Lemma append_assoc (a b c : string) : (a ++ b) ++ c = a ++ (b ++ c).
Proof. induction a; simpl; congruence. Qed.

Lemma substring_app_prefix (a b : string) :
  substring 0 (String.length a) (a ++ b) = a.
Proof.
  induction a as [| c a IH]; simpl.
  - destruct b; reflexivity.
  - now rewrite IH.
Qed.

Lemma consumed_prefix (before after : mstate) (a b : string) :
  rest before = a ++ b -> pos after = (pos before + String.length a)%nat ->
  consumed before after = a.
Proof.
  intros Hr Hp. unfold consumed. rewrite Hr, Hp.
  replace (pos before + String.length a - pos before)%nat with (String.length a) by lia.
  apply substring_app_prefix.
Qed.

Lemma greedy_longest p a b i g k r :
  allChars p a = true -> stopsAt p b = true ->
  k (MState (i + String.length a) b g) = Some r ->
  greedy p (a ++ b) i g k = Some r.
Proof.
  revert i. induction a as [| c a IH]; intros i Ha Hb Hk; simpl in *.
  - rewrite Nat.add_0_r in Hk.
    destruct b as [| c b]; simpl in *; [exact Hk |].
    apply negb_true_iff in Hb. rewrite Hb. exact Hk.
  - apply andb_true_iff in Ha as [Hc Ha]. rewrite Hc.
    rewrite (IH (S i)); auto.
    now replace (S i + String.length a)%nat with (i + S (String.length a))%nat by lia.
Qed.

Lemma trimStart_split (s : string) :
  exists ws, s = ws ++ trimStart s /\ allChars isWhiteSpace ws = true
             /\ stopsAt isWhiteSpace (trimStart s) = true.
Proof.
  induction s as [| c s IH]; simpl.
  - exists "". auto.
  - destruct (isWhiteSpace c) eqn:E.
    + destruct IH as (ws & H1 & H2 & H3). exists (String c ws). simpl.
      rewrite E, H2, <- H1. auto.
    + exists "". simpl. rewrite E. auto.
Qed.

Lemma allChars_anyChar (s : string) : allChars anyChar s = true.
Proof.
  induction s as [| c s IH]; simpl; auto. rewrite IH.
  unfold anyChar. now destruct (isWhiteSpace c).
Qed.

(** Steps of a successful match, one per construct of the pattern. *)

Lemma step_seq r1 r2 st k res :
  rmatch r1 st (fun st' => rmatch r2 st' k) = Some res ->
  rmatch (Seq r1 r2) st k = Some res.
Proof. exact (fun H => H). Qed.

Lemma step_lit c s i g k res :
  k (MState (S i) s g) = Some res ->
  rmatch (Lit c) (MState i (String c s) g) k = Some res.
Proof. intros H. cbn [rmatch rest pos groups]. now rewrite Ascii.eqb_refl. Qed.

Lemma step_lits s : forall c t i g k res,
  k (MState (i + S (String.length s)) t g) = Some res ->
  rmatch (lits c s) (MState i (String c s ++ t) g) k = Some res.
Proof.
  induction s as [| c' s IH]; intros c t i g k res H.
  - cbn [lits append]. apply step_lit. now rewrite Nat.add_1_r in H.
  - cbn [lits]. apply step_seq. cbn [append]. apply step_lit.
    apply (IH c' t (S i) g k res).
    cbn [String.length] in H.
    now replace (S i + S (String.length s))%nat with (i + S (S (String.length s)))%nat by lia.
Qed.

Lemma step_group_plus name p c a b i g k res :
  allChars p (String c a) = true -> stopsAt p b = true ->
  k (MState (i + S (String.length a)) b ((name, String c a) :: g)) = Some res ->
  rmatch (Group name (Plus p)) (MState i (String c a ++ b) g) k = Some res.
Proof.
  intros Ha Hb Hk. simpl in Ha. apply andb_true_iff in Ha as [Hc Ha].
  cbn [rmatch rest pos groups append]. rewrite Hc.
  apply greedy_longest; [exact Ha | exact Hb |].
  cbn [pos rest groups].
  rewrite (consumed_prefix _ _ (String c a) b);
    [| reflexivity | cbn [pos String.length]; lia].
  now replace (S i + String.length a)%nat with (i + S (String.length a))%nat by lia.
Qed.

Lemma step_star p a b i g k res :
  allChars p a = true -> stopsAt p b = true ->
  k (MState (i + String.length a) b g) = Some res ->
  rmatch (Star p) (MState i (a ++ b) g) k = Some res.
Proof. intros Ha Hb Hk. cbn [rmatch rest pos groups]. now apply greedy_longest. Qed.

Lemma step_group_star_end name p a i g k res :
  allChars p a = true ->
  k (MState (i + String.length a) "" ((name, a) :: g)) = Some res ->
  rmatch (Seq (Group name (Star p)) AssertEnd) (MState i a g) k = Some res.
Proof.
  intros Ha Hk. apply step_seq. cbn [rmatch rest pos groups].
  rewrite <- (append_empty_r a) at 1.
  apply greedy_longest; [exact Ha | reflexivity |].
  cbn [rest pos groups isEmpty].
  rewrite (consumed_prefix _ _ a "");
    [exact Hk | cbn [rest]; now rewrite append_empty_r | reflexivity].
Qed.

(** The part of the pattern after the identity. *)
Lemma patternTail_matches (d : ascii) (D M : string) i g :
  allChars isDigit (String d D) = true ->
  exists n,
    rmatch patternTail (MState i (":" ++ String d D ++ ":" ++ M) g) Some
    = Some (MState n "" (("message", trimStart M) :: ("line", String d D) :: g)).
Proof.
  intros HD.
  destruct (trimStart_split M) as (ws & HM & Hws & Hstop).
  eexists. unfold patternTail.
  apply step_seq, step_lit. apply step_seq.
  apply step_group_plus; [exact HD | reflexivity |].
  apply step_seq, step_lit. apply step_seq.
  rewrite HM at 1.
  apply step_star; [exact Hws | exact Hstop |].
  apply step_group_star_end; [apply allChars_anyChar |].
  reflexivity.
Qed.

(** The direct shape: an identity without colon that does not start with
    a bracket, a colon, digits, a colon, the message. *)
Lemma exec_direct (c d : ascii) (I D M : string) :
  Ascii.eqb "["%char c = false ->
  allChars notColon (String c I) = true ->
  allChars isDigit (String d D) = true ->
  exists n,
    exec pattern (String c I ++ ":" ++ String d D ++ ":" ++ M)
    = Some (MState n "" [("message", trimStart M); ("line", String d D);
                         ("direct", String c I)]).
Proof.
  intros Hc HI HD.
  destruct (patternTail_matches d D M (0 + S (String.length I))
              [("direct", String c I)] HD) as (n & Htail).
  exists n.
  assert (E : rmatch pattern
                (MState 0 (String c I ++ ":" ++ String d D ++ ":" ++ M) []) Some
              = Some (MState n "" [("message", trimStart M); ("line", String d D);
                                   ("direct", String c I)])).
  { unfold pattern. cbn [rmatch pos Nat.eqb].
    unfold patternQuoted at 1. cbn [lits rmatch rest append]. rewrite Hc.
    unfold patternDirect.
    apply step_group_plus; [exact HI | reflexivity | exact Htail]. }
  unfold exec, execFrom.
  destruct (String c I ++ ":" ++ String d D ++ ":" ++ M); rewrite E; reflexivity.
Qed.

(** The quoted shape: the identity, without quote, between [[string "]
    and ["]], then a colon, digits, a colon, the message. *)
Lemma exec_quoted (c d : ascii) (I D M : string) :
  allChars notQuote (String c I) = true ->
  allChars isDigit (String d D) = true ->
  exists n,
    exec pattern ("[string " ++ quoted (String c I) ++ "]:" ++ String d D ++ ":" ++ M)
    = Some (MState n "" [("message", trimStart M); ("line", String d D);
                         ("chunk", String c I)]).
Proof.
  intros HI HD.
  destruct (patternTail_matches d D M (S (S (0 + 8 + 1 + S (String.length I))))
              [("chunk", String c I)] HD) as (n & Htail).
  exists n.
  assert (Shape : "[string " ++ quoted (String c I) ++ "]:" ++ String d D ++ ":" ++ M
                  = String "["%char "string "
                    ++ String dquote
                         (String c I
                          ++ String dquote
                               (String "]"%char (":" ++ String d D ++ ":" ++ M)))).
  { unfold quoted. cbn [append]. now rewrite append_assoc. }
  assert (E : rmatch pattern
                (MState 0 ("[string " ++ quoted (String c I) ++ "]:"
                             ++ String d D ++ ":" ++ M) []) Some
              = Some (MState n "" [("message", trimStart M); ("line", String d D);
                                   ("chunk", String c I)])).
  { rewrite Shape. unfold pattern. cbn [rmatch pos Nat.eqb].
    assert (Q : rmatch patternQuoted
                  (MState 0 (String "["%char "string "
                     ++ String dquote
                          (String c I
                           ++ String dquote
                                (String "]"%char (":" ++ String d D ++ ":" ++ M)))) [])
                  (fun st' => rmatch patternTail st' Some)
                = Some (MState n "" [("message", trimStart M); ("line", String d D);
                                     ("chunk", String c I)])).
    { unfold patternQuoted.
      apply step_seq, step_lits. apply step_seq, step_lit. apply step_seq.
      apply step_group_plus; [exact HI | reflexivity |].
      apply step_seq, step_lit. apply step_lit. exact Htail. }
    now rewrite Q. }
  unfold exec, execFrom.
  destruct ("[string " ++ quoted (String c I) ++ "]:" ++ String d D ++ ":" ++ M);
    rewrite E; reflexivity.
Qed.

End PatternFacts.

(** ** The monad of the machine *)

Section MonadFacts.

Context {F : Fengari}.

Lemma bind_Normal {A B} (c : M A) (k : A -> M B) m b m' :
  bind c k m = Normal b m' ->
  exists a m1, c m = Normal a m1 /\ k a m1 = Normal b m'.
Proof.
  unfold bind. destruct (c m) as [a m1 | e m1]; [| discriminate].
  intros H. now exists a, m1.
Qed.

Lemma bind_step {A B} (c : M A) (k : A -> M B) m a m1 :
  c m = Normal a m1 -> bind c k m = k a m1.
Proof. unfold bind. now intros ->. Qed.

Lemma tryFinally_Normal {A} (body : M A) (fin : M unit) m a m' :
  tryFinally body fin m = Normal a m' ->
  exists m1, body m = Normal a m1 /\ fin m1 = Normal tt m'.
Proof.
  unfold tryFinally.
  destruct (body m) as [a1 m1 | e m1].
  - destruct (fin m1) as [[] m2 | e m2] eqn:E; [| discriminate].
    intros H. injection H as <- <-. now exists m1.
  - destruct (fin m1); discriminate.
Qed.

End MonadFacts.

(** Case analysis on the outcome of the next operation in a hypothesis. *)
Ltac next_outcome H :=
  match type of H with
  | context [match ?x with Normal _ _ => _ | Throw _ _ => _ end] =>
      let E := fresh "E" in destruct x eqn:E; try discriminate H
  end.

(** ** The output capture bridge *)

Section BridgeFacts.

Context {F : Fengari}.

Lemma index2value_top (stk : list value) (v : value) :
  index2value (stk ++ [v]) (-1) = Some v.
Proof.
  unfold index2value.
  change (0 <? -1)%Z with false. change (-1 <? 0)%Z with true.
  change (Z.to_nat (- -1)) with 1%nat.
  rewrite length_app. cbn [length].
  replace (1 <=? length stk + 1)%nat with true by (symmetry; apply Nat.leb_le; lia).
  replace (length stk + 1 - 1)%nat with (length stk + 0)%nat by lia.
  rewrite nth_error_app2 by lia.
  replace (length stk + 0 - length stk)%nat with 0%nat by lia.
  reflexivity.
Qed.

Lemma index2value_positive (stk : list value) (i : nat) :
  index2value stk (Z.of_nat i + 1) = nth_error stk i.
Proof.
  unfold index2value.
  replace (0 <? Z.of_nat i + 1)%Z with true by (symmetry; apply Z.ltb_lt; lia).
  f_equal. lia.
Qed.

Lemma lua_pop_pushed (stk : list value) (v : value) : lua_pop (stk ++ [v]) 1 = stk.
Proof.
  unfold lua_pop. rewrite length_app. cbn [length].
  replace (length stk + 1 - 1)%nat with (length stk) by lia.
  rewrite firstn_app, Nat.sub_diag, firstn_all. cbn [firstn]. now rewrite app_nil_r.
Qed.

Lemma skipn_nth {A} (l : list A) : forall i v,
  nth_error l i = Some v -> skipn i l = v :: skipn (S i) l.
Proof.
  induction l as [| x l IH]; intros [| i] v Hv; cbn in *; try discriminate.
  - now injection Hv as ->.
  - now apply IH.
Qed.

(** The loop of [logger]: each iteration leaves the frame as it was and
    adds the display text of the argument at that index to the buffer; the
    loop stops at the first argument that has none. *)
Lemma loggerLoop_all (n : nat) : forall (i : nat) (frame : list value) (buffer : list string),
  (i + n <= length frame)%nat ->
  match displayTexts (firstn n (skipn i frame)) with
  | Some texts =>
      loggerLoop n (Z.of_nat i + 1) frame buffer = Returns (frame, buffer ++ texts)
  | None =>
      loggerLoop n (Z.of_nat i + 1) frame buffer = Raises
      \/ exists e bytes,
           decodeUtf8 bytes = inl e
           /\ loggerLoop n (Z.of_nat i + 1) frame buffer = Throws e
  end.
Proof.
  induction n as [| n IH]; intros i frame buffer Hlen.
  - cbn [loggerLoop firstn displayTexts]. now rewrite app_nil_r.
  - cbn [loggerLoop]. unfold luaL_tolstring.
    rewrite index2value_positive.
    destruct (nth_error frame i) as [v |] eqn:Hv.
    2: { apply nth_error_None in Hv. lia. }
    rewrite (skipn_nth _ _ _ Hv). cbn [firstn displayTexts]. unfold displayText.
    destruct (displayOf v) as [bytes |]; [| now left].
    unfold lua_tostring. rewrite index2value_top. cbn [to_jsstring].
    destruct (decodeUtf8 bytes) as [e | text] eqn:D; [right; eauto |].
    rewrite lua_pop_pushed.
    replace (Z.of_nat i + 1 + 1)%Z with (Z.of_nat (S i) + 1)%Z by lia.
    specialize (IH (S i) frame (buffer ++ [text]) ltac:(lia)).
    destruct (displayTexts (firstn n (skipn (S i) frame))) as [texts |].
    + rewrite IH, <- app_assoc. reflexivity.
    + exact IH.
Qed.

(** A call of [logger]: one line when every argument has a display text,
    no line otherwise. *)
Lemma logger_line (prefix : string) (args : list value) (out : list string) :
  match displayTexts args with
  | Some texts =>
      logger prefix args out
      = Returns (0%Z, out ++ [(prefix ++ join (String TAB EmptyString) texts)%string])
  | None =>
      logger prefix args out = Raises
      \/ exists e bytes, decodeUtf8 bytes = inl e /\ logger prefix args out = Throws e
  end.
Proof.
  unfold logger, lua_gettop.
  change 1%Z with (Z.of_nat 0 + 1)%Z.
  pose proof (loggerLoop_all (length args) 0 args [] ltac:(cbn; lia)) as H.
  cbn [skipn] in H. rewrite firstn_all in H.
  destruct (displayTexts args) as [texts |].
  - rewrite H. reflexivity.
  - destruct H as [-> | (e & bytes & D & ->)]; [now left | right; eauto].
Qed.

Lemma prepare_natives (m0 m : machine) :
  prepare m0 = Normal tt m ->
  natives m = [("warn", Logger "[warn] "); ("print", Logger "")].
Proof.
  unfold prepare. intros H.
  apply bind_Normal in H as ([] & m1 & H1 & H).
  apply bind_Normal in H as ([] & m2 & H2 & H).
  apply bind_Normal in H as ([] & m3 & H3 & H).
  apply bind_Normal in H as ([] & m4 & H4 & H).
  unfold luaL_newstate in H1. next_outcome H1. injection H1 as <-.
  unfold luaL_openlibs, liftHost in H2. next_outcome H2. injection H2 as _ <-.
  injection H3 as <-.
  unfold registerLoggingFunction in H4, H.
  next_outcome H4. injection H4 as <-.
  next_outcome H. injection H as <-.
  reflexivity.
Qed.

(** C7 as amended.  Once [run] has installed the hooks, a script call of
    the bare logging hook [print] whose arguments v1 ... vn all have a
    display text (the display string [luaL_tolstring] pushes, decoded by
    [to_jsstring]) appends exactly one line to the transcript, the texts of
    v1 ... vn joined by horizontal tabs with no prefix; a call of the
    warning hook [warn] appends the same line after the literal prefix
    [[warn] ]; and the native function behind either hook returns no values
    (the count 0) to the script.  When an argument has no display text, the
    native function appends no line: it raises the Lua error of
    [luaL_tolstring], or throws the exception of [to_jsstring]. *)
Theorem logging_hooks_append_one_line
    (m0 m : machine) (args : list value) (out : list string) :
  prepare m0 = Normal tt m ->
  (forall texts,
      displayTexts args = Some texts ->
      serveCalls (natives m) [("print", args)] out
        = inr (out ++ [join (String TAB EmptyString) texts])
      /\ serveCalls (natives m) [("warn", args)] out
        = inr (out ++ [("[warn] " ++ join (String TAB EmptyString) texts)%string])
      /\ (forall prefix name, lookupNative name (natives m) = Some (Logger prefix) ->
          logger prefix args out
          = Returns (0%Z, out ++ [(prefix ++ join (String TAB EmptyString) texts)%string])))
  /\ (displayTexts args = None ->
      forall prefix name, lookupNative name (natives m) = Some (Logger prefix) ->
        logger prefix args out = Raises
        \/ exists e bytes,
             decodeUtf8 bytes = inl e /\ logger prefix args out = Throws e).
Proof.
  intros Hprep. rewrite (prepare_natives _ _ Hprep).
  split.
  - intros texts Htexts.
    assert (Hline : forall prefix,
               logger prefix args out
               = Returns (0%Z, out ++ [(prefix ++ join (String TAB EmptyString) texts)%string])).
    { intros prefix. pose proof (logger_line prefix args out) as H.
      now rewrite Htexts in H. }
    split; [| split].
    + cbn [serveCalls lookupNative String.eqb Ascii.eqb Bool.eqb].
      rewrite Hline. reflexivity.
    + cbn [serveCalls lookupNative String.eqb Ascii.eqb Bool.eqb].
      rewrite Hline. reflexivity.
    + intros prefix name _. apply Hline.
  - intros Hnone prefix name _.
    pose proof (logger_line prefix args out) as H. now rewrite Hnone in H.
Qed.

End BridgeFacts.

(** The hooks of a toy run, called with a string and a number. *)
Lemma logging_hooks_append_one_line_witness :
  serveCalls (F:=Toy.interp) [("warn", Logger "[warn] "); ("print", Logger "")]
    [("print", [TString "score"; TOther (Toy.Number "42")])] ["earlier"]
    = inr ["earlier"; ("score" ++ String TAB "42")%string]
  /\ serveCalls (F:=Toy.interp) [("warn", Logger "[warn] "); ("print", Logger "")]
    [("warn", [TString "score"; TOther (Toy.Number "42")])] ["earlier"]
    = inr ["earlier"; ("[warn] score" ++ String TAB "42")%string].
Proof.
  pose proof (proj1 (logging_hooks_append_one_line (F:=Toy.interp)
                (boot (F:=Toy.interp) 0%Z)
                (mkMachine (F:=Toy.interp) [] [("warn", Logger "[warn] "); ("print", Logger "")] [] 6%Z)
                [TString "score"; TOther (Toy.Number "42")] ["earlier"]
                ltac:(vm_compute; reflexivity))
              ["score"; "42"] ltac:(vm_compute; reflexivity)) as (Hprint & Hwarn & _).
  split; [exact Hprint | exact Hwarn].
Defined.

(** C7 as stated fails: a call of the bare hook with a string and the
    string of the one byte 255, which is not valid UTF-8, does not get to
    append its line: the native function throws instead of returning; and
    a call with a value whose __tostring metamethod raises ends with that
    Lua error, without a line either. *)
Lemma logging_hook_appends_nothing_without_text :
  logger (F:=Toy.bytes) "" [TString "score"; TString Toy.byte255] ["earlier"]
  = Throws (JsError "cannot convert invalid utf8 to javascript string")
  /\ logger (F:=Toy.bytes) "" [TString "score"; TOther Toy.Guarded] ["earlier"]
     = Raises.
Proof. split; vm_compute; reflexivity. Qed.

(** ** The orchestrator *)

Section RunFacts.

Context {F : Fengari}.

Lemma executeChunk_cases c errs m errs' m' :
  executeChunk c errs m = Normal errs' m' ->
  errs' = errs \/ exists raw, errs' = errs ++ extractErrors raw (Chunk.chunkName c).
Proof.
  unfold executeChunk. intros H.
  apply bind_Normal in H as (status & m1 & _ & H).
  destruct (negb (status =? LUA_OK)%Z).
  - apply bind_Normal in H as (msg & m2 & _ & H).
    apply bind_Normal in H as ([] & m3 & _ & H).
    injection H as <- <-. right. eauto.
  - apply bind_Normal in H as (cs & m2 & _ & H).
    destruct (negb (cs =? LUA_OK)%Z).
    + apply bind_Normal in H as (msg & m3 & _ & H).
      apply bind_Normal in H as ([] & m4 & _ & H).
      injection H as <- <-. right. eauto.
    + injection H as <- <-. now left.
Qed.

Lemma executeChunk_fresh c m errs m' :
  executeChunk c [] m = Normal errs m' ->
  errs = [] \/ exists d, errs = [d] /\ severity d = error.
Proof.
  intros H. apply executeChunk_cases in H as [-> | (raw & ->)]; [now left | right].
  cbn [app]. apply extractErrors_singleton.
Qed.

Lemma initializePrelude_cases services m oe m' :
  initializePrelude services m = Normal oe m' ->
  oe = None \/ exists raw d, extractErrors raw preludeChunkName = [d] /\ oe = Some d.
Proof.
  unfold initializePrelude. intros H.
  apply bind_Normal in H as (status & m1 & _ & H).
  destruct (negb (status =? LUA_OK)%Z).
  - apply bind_Normal in H as (msg & m2 & _ & H). injection H as <- <-.
    right. destruct (extractErrors_singleton msg preludeChunkName) as (d & Hd & _).
    exists msg, d. now rewrite Hd.
  - apply bind_Normal in H as (cs & m2 & _ & H).
    destruct (negb (cs =? LUA_OK)%Z).
    + apply bind_Normal in H as (msg & m3 & _ & H). injection H as <- <-.
      right. destruct (extractErrors_singleton msg preludeChunkName) as (d & Hd & _).
      exists msg, d. now rewrite Hd.
    + injection H as <- <-. now left.
Qed.

Lemma result_failure rs d m r m' :
  severity d = error ->
  result false rs [d] m = Normal r m' -> returnedAt rs r m'.
Proof.
  intros Hd H. injection H as <- <-. unfold returnedAt. cbn.
  repeat split. right. eauto.
Qed.

Lemma forPreloads_returnedAt l rs (k : list SimulationError -> M SimulationResult) :
  (forall m r m', k [] m = Normal r m' -> returnedAt rs r m') ->
  forall m r m', forPreloads l rs [] k m = Normal r m' -> returnedAt rs r m'.
Proof.
  intros Hk. induction l as [| p l IH]; intros m r m' H; cbn [forPreloads] in H.
  - now apply Hk in H.
  - apply bind_Normal in H as (errs & m1 & H1 & H).
    apply executeChunk_fresh in H1 as [-> | (d & -> & Hd)]; cbn [nonEmpty] in H.
    + now apply IH in H.
    + now apply result_failure in H.
Qed.

Lemma target_returnedAt c rs m r m' :
  bind (executeChunk c []) (fun errors => result (negb (nonEmpty errors)) rs errors) m
    = Normal r m' ->
  returnedAt rs r m'.
Proof.
  intros H. apply bind_Normal in H as (errs & m1 & H1 & H).
  apply executeChunk_fresh in H1 as [-> | (d & -> & Hd)]; cbn [nonEmpty negb] in H.
  - injection H as <- <-. unfold returnedAt. cbn. repeat split. now left.
  - now apply result_failure in H.
Qed.

Lemma pipeline_returnedAt options rs m r m' :
  pipeline options rs [] m = Normal r m' -> returnedAt rs r m'.
Proof.
  unfold pipeline. intros H.
  apply bind_Normal in H as (oe & m1 & H1 & H).
  apply initializePrelude_cases in H1 as [-> | (raw & d & Hd & ->)].
  - destruct (prelude options) as [p |].
    + apply bind_Normal in H as (errs & m2 & H2 & H).
      apply executeChunk_fresh in H2 as [-> | (d & -> & Hd)]; cbn [nonEmpty] in H.
      * revert H. apply forPreloads_returnedAt. intros ? ? ?. apply target_returnedAt.
      * now apply result_failure in H.
    + revert H. apply forPreloads_returnedAt. intros ? ? ?. apply target_returnedAt.
  - cbn [app] in H. apply result_failure in H; [exact H |].
    destruct (extractErrors_singleton raw preludeChunkName) as (d' & Hd' & Hs).
    rewrite Hd in Hd'. now injection Hd' as ->.
Qed.

(** How a returning call of [run] went: the preparation, the clock
    reading, the pipeline, the release of the interpreter. *)
Lemma run_inversion options w r w' :
  run options w = Normal r w' ->
  exists m1 m2 m3,
    prepare (boot w) = Normal tt m1
    /\ pipeline options (performance_now (host m1)) [] m1 = Normal r m2
    /\ closeState m2 = Normal tt m3
    /\ w' = host m3.
Proof.
  unfold run, runM. intros H.
  destruct (bind prepare _ (boot w)) as [r0 m3 | e m3] eqn:E; [| discriminate].
  injection H as -> <-.
  apply bind_Normal in E as ([] & m1 & Hprep & E).
  apply bind_Normal in E as (rs & m1' & Hnow & E).
  injection Hnow as <- <-.
  apply tryFinally_Normal in E as (m2 & Hpipe & Hclose).
  now exists m1, m2, m3.
Qed.

Lemma run_returnedAt options w r w' :
  run options w = Normal r w' ->
  exists m1 m2,
    prepare (boot w) = Normal tt m1
    /\ pipeline options (performance_now (host m1)) [] m1 = Normal r m2
    /\ returnedAt (performance_now (host m1)) r m2.
Proof.
  intros H. apply run_inversion in H as (m1 & m2 & m3 & Hprep & Hpipe & _ & _).
  exists m1, m2. repeat split; try assumption.
  - now apply pipeline_returnedAt in Hpipe as (? & _).
  - now apply pipeline_returnedAt in Hpipe as (_ & ? & _).
  - now apply pipeline_returnedAt in Hpipe as (_ & _ & ?).
Qed.

(** C2.  In the result of every returning run, [success] is true exactly
    when the errors list holds no Diagnostic of severity error; and a
    result with [success] false holds at least one Diagnostic of severity
    error. *)
Theorem success_iff_no_error_diagnostic
    (options : SimulationOptions) (w w' : world) (r : SimulationResult) :
  run options w = Normal r w' ->
  (success r = true <-> errorsOnly (errors r) = [])
  /\ (success r = false -> exists d, In d (errors r) /\ severity d = error).
Proof.
  intros H.
  apply run_returnedAt in H as (m1 & m2 & _ & _ & _ & _ & Hshape).
  destruct Hshape as [(Hs & He) | (Hs & d & He & Hd)]; rewrite Hs, He.
  - split; [now split |]. discriminate.
  - split.
    + unfold errorsOnly. cbn [filter]. rewrite Hd. split; discriminate.
    + intros _. exists d. split; [now left | exact Hd].
Qed.

(** C9.  The errors list of the result of every returning run holds at
    most one Diagnostic: it is empty when [success] is true and a
    singleton when [success] is false. *)
Theorem errors_at_most_one
    (options : SimulationOptions) (w w' : world) (r : SimulationResult) :
  run options w = Normal r w' ->
  (length (errors r) <= 1)%nat
  /\ (success r = true -> errors r = [])
  /\ (success r = false -> exists d, errors r = [d]).
Proof.
  intros H.
  apply run_returnedAt in H as (m1 & m2 & _ & _ & _ & _ & Hshape).
  destruct Hshape as [(Hs & He) | (Hs & d & He & Hd)]; rewrite Hs, He; cbn [length].
  - repeat split; [lia | discriminate].
  - repeat split; [lia | discriminate | eauto].
Qed.

End RunFacts.

(** ** Order of the stages and short-circuit *)

Section PipelineFacts.

Context {F : Fengari}.

Lemma run_after_prepare options w m1 :
  prepare (boot w) = Normal tt m1 ->
  run options w =
    match tryFinally (pipeline options (performance_now (host m1)) []) closeState m1 with
    | Normal r m => Normal r (host m)
    | Throw e m => Throw e (host m)
    end.
Proof.
  intros Hprep. unfold run, runM.
  rewrite (bind_step _ _ _ _ _ Hprep). reflexivity.
Qed.

Lemma forPreloads_app l1 l2 rs k : forall errs m,
  forPreloads (l1 ++ l2) rs errs k m
  = forPreloads l1 rs errs (fun errs' => forPreloads l2 rs errs' k) m.
Proof.
  induction l1 as [| p l1 IH]; intros errs m; cbn [app forPreloads]; [reflexivity |].
  unfold bind. destruct (executeChunk p errs m) as [errs1 m1 | e m1]; [| reflexivity].
  destruct (nonEmpty errs1); [reflexivity | apply IH].
Qed.

Lemma forPreloads_failure l rs (k1 k2 : list SimulationError -> M SimulationResult) :
  (forall errs m r m', k1 errs m = Normal r m' -> success r = false ->
                       k2 errs m = Normal r m') ->
  forall errs m r m',
    forPreloads l rs errs k1 m = Normal r m' -> success r = false ->
    forPreloads l rs errs k2 m = Normal r m'.
Proof.
  intros Hk. induction l as [| p l IH]; intros errs m r m' H Hs; cbn [forPreloads] in *.
  - now apply Hk.
  - apply bind_Normal in H as (errs1 & m1 & H1 & H).
    rewrite (bind_step _ _ _ _ _ H1).
    destruct (nonEmpty errs1); [exact H | now apply IH].
Qed.

(** A failing last stage fails in the same way as a preload. *)
Lemma target_as_preload p post rs k errs m r m' :
  bind (executeChunk p errs) (fun errors => result (negb (nonEmpty errors)) rs errors) m
    = Normal r m' ->
  success r = false ->
  forPreloads (p :: post) rs errs k m = Normal r m'.
Proof.
  intros H Hs. cbn [forPreloads].
  apply bind_Normal in H as (errs1 & m1 & H1 & H).
  rewrite (bind_step _ _ _ _ _ H1).
  injection H as <- <-. cbn [success] in Hs.
  apply negb_false_iff in Hs. rewrite Hs. reflexivity.
Qed.

Lemma pipeline_preload_failure target bootstrap pre p post services rs m r m' :
  pipeline (mkOptions p bootstrap (Some pre) services) rs [] m = Normal r m' ->
  success r = false ->
  pipeline (mkOptions target bootstrap (Some (pre ++ p :: post)) services) rs [] m
    = Normal r m'.
Proof.
  unfold pipeline.
  cbn [stubbedServices prelude preloads chunk]. intros H Hs.
  apply bind_Normal in H as (oe & m1 & H1 & H).
  rewrite (bind_step _ _ _ _ _ H1).
  destruct oe as [e |]; [exact H |].
  assert (Hloop : forall errs m0,
             forPreloads pre rs errs
               (fun errors =>
                  bind (executeChunk p errors)
                       (fun errors => result (negb (nonEmpty errors)) rs errors)) m0
               = Normal r m' ->
             forPreloads (pre ++ p :: post) rs errs
               (fun errors =>
                  bind (executeChunk target errors)
                       (fun errors => result (negb (nonEmpty errors)) rs errors)) m0
               = Normal r m').
  { intros errs m0 H0. rewrite forPreloads_app.
    revert H0 Hs. apply forPreloads_failure.
    intros errs' m2 r2 m2' Hk Hs2. now apply target_as_preload. }
  destruct bootstrap as [b |].
  - apply bind_Normal in H as (errs1 & m2 & H2 & H).
    rewrite (bind_step _ _ _ _ _ H2).
    destruct (nonEmpty errs1); [exact H | now apply Hloop].
  - now apply Hloop.
Qed.

Lemma run_preload_failure target bootstrap pre p post services w r w' :
  run (mkOptions p bootstrap (Some pre) services) w = Normal r w' ->
  success r = false ->
  run (mkOptions target bootstrap (Some (pre ++ p :: post)) services) w = Normal r w'.
Proof.
  intros H Hs.
  apply run_inversion in H as (m1 & m2 & m3 & Hprep & Hpipe & Hclose & ->).
  rewrite (run_after_prepare _ _ _ Hprep).
  unfold tryFinally.
  rewrite (pipeline_preload_failure target _ _ _ post _ _ _ _ _ Hpipe Hs), Hclose.
  reflexivity.
Qed.

Lemma pipeline_setup_failure options rs m e m2 :
  initializePrelude (stubbedServices options) m = Normal (Some e) m2 ->
  pipeline options rs [] m = result false rs [e] m2.
Proof.
  intros H. unfold pipeline. now rewrite (bind_step _ _ _ _ _ H).
Qed.

Lemma nonEmpty_false {A} (l : list A) : nonEmpty l = false -> l = [].
Proof. destruct l; [reflexivity | discriminate]. Qed.

Lemma preloads_in_order target rs : forall pre m,
  forPreloads pre rs []
    (fun errors =>
       bind (executeChunk target errors)
            (fun errors => result (negb (nonEmpty errors)) rs errors)) m
  = bind (firstFailure (map Load pre ++ [Load target]))
         (fun errs => result (negb (nonEmpty errs)) rs errs) m.
Proof.
  induction pre as [| p pre IH]; intros m;
    cbn [map app forPreloads firstFailure runStage]; unfold bind.
  - destruct (executeChunk target [] m) as [errs m1 | e m1]; [| reflexivity].
    destruct errs as [| d errs]; reflexivity.
  - destruct (executeChunk p [] m) as [errs m1 | e m1]; [| reflexivity].
    destruct errs as [| d errs]; [apply IH | reflexivity].
Qed.

Lemma pipeline_in_order options rs m :
  pipeline options rs [] m = pipelineInOrder options rs m.
Proof.
  unfold pipeline, pipelineInOrder, stagesOf, preloadsOf.
  cbn [firstFailure runStage]. unfold bind.
  destruct (initializePrelude (stubbedServices options) m) as [[e |] m1 | e m1];
    [reflexivity | | reflexivity].
  cbn [ret nonEmpty].
  destruct (prelude options) as [p |]; cbn [optionalStage app firstFailure runStage].
  - unfold bind.
    destruct (executeChunk p [] m1) as [errs m2 | e m2]; [| reflexivity].
    destruct errs as [| d errs]; [apply preloads_in_order | reflexivity].
  - apply preloads_in_order.
Qed.

(** C3.  The pipeline of [run] is the list of stages environment setup,
    optional shared bootstrap chunk, preloads in the supplied order, target
    chunk, executed in that order up to and including the first stage that
    yields a Diagnostic.  When the environment setup fails, the run is the
    same whatever the other chunks are: no later stage runs.  When the
    pipeline that ends with preload [p] fails, the run with further
    preloads and a target after [p] returns that very result: none of its
    Diagnostics and output lines comes from a later preload or from the
    target. *)
Theorem pipeline_order_and_short_circuit (options : SimulationOptions) (w : world) :
  (forall runStart m,
      pipeline options runStart [] m = pipelineInOrder options runStart m)
  /\ (forall m1 e m2 other,
        prepare (boot w) = Normal tt m1 ->
        initializePrelude (stubbedServices options) m1 = Normal (Some e) m2 ->
        stubbedServices other = stubbedServices options ->
        run other w = run options w)
  /\ (forall pre p post r w',
        preloads options = Some (pre ++ p :: post) ->
        run (mkOptions p (prelude options) (Some pre) (stubbedServices options)) w
          = Normal r w' ->
        success r = false ->
        run options w = Normal r w').
Proof.
  split; [| split].
  - intros runStart m. apply pipeline_in_order.
  - intros m1 e m2 other Hprep Hsetup Hsame.
    rewrite !(run_after_prepare _ _ _ Hprep). unfold tryFinally.
    rewrite (pipeline_setup_failure options _ _ _ _ Hsetup).
    rewrite <- Hsame in Hsetup.
    rewrite (pipeline_setup_failure other _ _ _ _ Hsetup).
    reflexivity.
  - intros pre p post r w' Hpre Hrun Hfail.
    destruct options as [target bootstrap pl services].
    cbn [preloads prelude stubbedServices] in *. subst pl.
    now apply run_preload_failure.
Qed.

(** C4 as amended.  The duration a returning run reports is the clock
    reading at its [return] statement minus the reading taken after the
    interpreter was created, the standard library opened and the two
    hooks installed: it spans the stages of the pipeline that were
    executed, up to the short-circuit point, and nothing before them. *)
Theorem durationMs_spans_pipeline
    (options : SimulationOptions) (w w' : world) (r : SimulationResult) :
  run options w = Normal r w' ->
  exists m1 m2,
    prepare (boot w) = Normal tt m1
    /\ pipeline options (performance_now (host m1)) [] m1 = Normal r m2
    /\ durationMs r = (performance_now (host m2) - performance_now (host m1))%Z.
Proof.
  intros H. apply run_returnedAt in H as (m1 & m2 & Hprep & Hpipe & Hd & _).
  now exists m1, m2.
Qed.

End PipelineFacts.

(** ** Chunk identities in Diagnostics *)

Section IdentityFacts.

Context {F : Fengari}.

Lemma namesIdentity_captured identity headline :
  namesIdentity identity headline ->
  exists mt, exec pattern headline = Some mt
             /\ forall fb, capturedIdentity mt fb = identity.
Proof.
  intros [(c & I & d & D & M & -> & Hc & HI & HD & ->)
         | (c & I & d & D & M & -> & HI & HD & ->)].
  - destruct (exec_direct c d I D M Hc HI HD) as (n & E).
    eexists. split; [exact E |]. reflexivity.
  - destruct (exec_quoted c d I D M HI HD) as (n & E).
    eexists. split; [exact E |]. reflexivity.
Qed.

Lemma namesIdentity_not_blank identity headline raw :
  namesIdentity identity headline -> headline = headlineOf (trim raw) ->
  isEmpty (trim raw) = false.
Proof.
  intros H E. destruct (trim raw) eqn:T; [| reflexivity].
  cbn in E. subst headline.
  destruct H as [(c & I & d & D & M & -> & _ & _ & _ & H)
                | (c & I & d & D & M & -> & _ & _ & H)]; discriminate H.
Qed.

(** The translator on a headline that names an identity. *)
Lemma extractErrors_named raw fb identity d :
  namesIdentity identity (headlineOf (trim raw)) ->
  In d (extractErrors raw fb) ->
  chunkName d = stripSigil identity.
Proof.
  intros H Hd.
  pose proof (namesIdentity_not_blank _ _ raw H eq_refl) as Hblank.
  destruct (namesIdentity_captured _ _ H) as (mt & E & Hid).
  rewrite (extractErrors_matched raw fb mt Hblank E d Hd). now rewrite Hid.
Qed.

(** [executeChunk], with the call of the compiler made explicit. *)
Lemma executeChunk_compiles c errs m errs' m' :
  executeChunk c errs m = Normal errs' m' ->
  exists status v w,
    loadbuffer (Chunk.code c) (String.length (Chunk.code c))
               (String "@"%char (Chunk.chunkName c)) (host m)
    = Normal (status, v) w.
Proof.
  unfold executeChunk, chunkIdentity. intros H.
  apply bind_Normal in H as (status & m1 & H1 & _).
  unfold luaL_loadbuffer in H1.
  destruct (loadbuffer _ _ _ (host m)) as [[st v] w | e w]; [| discriminate].
  now exists st, v, w.
Qed.

Lemma lua_tostring_pushed (stk : list value) (v : value) :
  lua_tostring (stk ++ [v]) (-1) = valueText v.
Proof. unfold lua_tostring. rewrite index2value_top. now destruct v. Qed.

(** A returning [executeChunk]: the stage passed, or the error text was
    read, decoded and translated under the chunk's name. *)
Lemma executeChunk_Normal c errs m errs' m' :
  executeChunk c errs m = Normal errs' m' ->
  (answerOf (Chunk.code c) (chunkIdentity c) m = Passed /\ errs' = errs)
  \/ exists text raw,
       answerOf (Chunk.code c) (chunkIdentity c) m = Failed text
       /\ to_jsstring text = inr raw
       /\ errs' = errs ++ extractErrors raw (Chunk.chunkName c).
Proof.
  unfold executeChunk, answerOf, bind at 1, luaL_loadbuffer.
  destruct (loadbuffer _ _ _ (host m)) as [[status v] w | e w]; [| discriminate].
  destruct (negb (status =? LUA_OK)%Z).
  - unfold bind, topToJsString, pop, ret. cbn [lstack natives transcript host].
    rewrite lua_tostring_pushed.
    destruct (to_jsstring (valueText v)) as [e | raw] eqn:T; [discriminate |].
    intros H. injection H as <- _. right. exists (valueText v), raw. now rewrite T.
  - unfold bind at 1, lua_pcall. cbn [lstack natives transcript host].
    rewrite lua_pop_pushed.
    destruct (pcall (lstack m ++ [v]) w) as [rep w2 | e w2]; [| discriminate].
    destruct (serveCalls (natives m) (calls rep) (transcript m)) as [e | out];
      [discriminate |].
    destruct (negb (callStatus rep =? LUA_OK)%Z).
    + unfold bind, topToJsString, pop, ret. cbn [lstack natives transcript host].
      destruct (to_jsstring (lua_tostring (lstack m ++ results rep) (-1)))
        as [e | raw] eqn:T; [discriminate |].
      intros H. injection H as <- _. right. eexists _, raw. now rewrite T.
    + unfold ret. intros H. injection H as <- _. now left.
Qed.

(** A returning [initializePrelude], likewise. *)
Lemma initializePrelude_Normal services m oe m' :
  initializePrelude services m = Normal oe m' ->
  (answerOf (codeOf (Setup services)) preludeChunkName m = Passed /\ oe = None)
  \/ exists text raw,
       answerOf (codeOf (Setup services)) preludeChunkName m = Failed text
       /\ to_jsstring text = inr raw
       /\ to_jsstring (lua_tostring (lstack m') (-1)) = inr raw
       /\ oe = hd_error (extractErrors raw preludeChunkName).
Proof.
  unfold initializePrelude, answerOf, codeOf, bind at 1, luaL_loadbuffer.
  destruct (loadbuffer _ _ _ (host m)) as [[status v] w | e w]; [| discriminate].
  destruct (negb (status =? LUA_OK)%Z).
  - unfold bind, topToJsString, ret. cbn [lstack natives transcript host].
    rewrite lua_tostring_pushed.
    destruct (to_jsstring (valueText v)) as [e | raw] eqn:T; [discriminate |].
    intros H. injection H as <- <-. right. exists (valueText v), raw.
    cbn [lstack]. now rewrite lua_tostring_pushed, T.
  - unfold bind at 1, lua_pcall. cbn [lstack natives transcript host].
    rewrite lua_pop_pushed.
    destruct (pcall (lstack m ++ [v]) w) as [rep w2 | e w2]; [| discriminate].
    destruct (serveCalls (natives m) (calls rep) (transcript m)) as [e | out];
      [discriminate |].
    destruct (negb (callStatus rep =? LUA_OK)%Z).
    + unfold bind, topToJsString, ret. cbn [lstack natives transcript host].
      destruct (to_jsstring (lua_tostring (lstack m ++ results rep) (-1)))
        as [e | raw] eqn:T; [discriminate |].
      intros H. injection H as <- <-. right. eexists _, raw.
      cbn [lstack]. now rewrite T.
    + unfold ret. intros H. injection H as <- _. now left.
Qed.

(** C8 as amended.  A user chunk is compiled under its chunk name prefixed
    with the sigil [@].  A Diagnostic [executeChunk] adds is the
    translation, with the chunk's own name as fallback, of the error text
    the interpreter reported for the chunk ([lua_tostring] on the error
    value, decoded by [to_jsstring]).  When that text is blank or its
    headline matches neither shape, the Diagnostic carries the chunk's
    name.  When the headline matches, it carries the captured identity
    without its leading [@]: that is the chunk's original name when the
    captured identity is the one the chunk was compiled under, and in
    particular when the headline has a known shape naming that identity;
    when the headline names the chunk by its bare name, it is that name
    less a leading [@]. *)
Theorem chunk_diagnostic_carries_chunkName
    (c : SimulationChunk) (errs errs' : list SimulationError) (m m' : machine) :
  executeChunk c errs m = Normal errs' m' ->
  (exists status v w,
      loadbuffer (Chunk.code c) (String.length (Chunk.code c))
                 (String "@"%char (Chunk.chunkName c)) (host m)
      = Normal (status, v) w)
  /\ ((answerOf (Chunk.code c) (String "@"%char (Chunk.chunkName c)) m = Passed
       /\ errs' = errs)
      \/ exists text raw d,
          answerOf (Chunk.code c) (String "@"%char (Chunk.chunkName c)) m = Failed text
          /\ to_jsstring text = inr raw
          /\ errs' = errs ++ [d]
          /\ extractErrors raw (Chunk.chunkName c) = [d]
          /\ (isEmpty (trim raw) = true \/ exec pattern (headlineOf (trim raw)) = None ->
              chunkName d = Chunk.chunkName c)
          /\ (forall mt,
                isEmpty (trim raw) = false ->
                exec pattern (headlineOf (trim raw)) = Some mt ->
                chunkName d = stripSigil (capturedIdentity mt (Chunk.chunkName c))
                /\ (capturedIdentity mt (Chunk.chunkName c)
                      = String "@"%char (Chunk.chunkName c) ->
                    chunkName d = Chunk.chunkName c))
          /\ (namesIdentity (String "@"%char (Chunk.chunkName c)) (headlineOf (trim raw)) ->
              chunkName d = Chunk.chunkName c)
          /\ (namesIdentity (Chunk.chunkName c) (headlineOf (trim raw)) ->
              chunkName d = stripSigil (Chunk.chunkName c))).
Proof.
  intros H. split; [now apply executeChunk_compiles in H |].
  apply executeChunk_Normal in H as [(Hp & ->) | (text & raw & Hf & Ht & ->)];
    [now left | right].
  destruct (extractErrors_singleton raw (Chunk.chunkName c)) as (d & Hd & _).
  exists text, raw, d. rewrite Hd.
  assert (Hin : In d (extractErrors raw (Chunk.chunkName c))) by (rewrite Hd; now left).
  split; [exact Hf |]. split; [exact Ht |].
  split; [reflexivity |]. split; [reflexivity |].
  split; [| split; [| split]].
  - intros Hun. exact (extractErrors_unmatched raw _ Hun d Hin).
  - intros mt Hblank Hmatch.
    rewrite (extractErrors_matched raw _ mt Hblank Hmatch d Hin).
    split; [reflexivity |].
    intros ->. cbn [stripSigil]. now rewrite Ascii.eqb_refl.
  - intros Hnamed. rewrite (extractErrors_named raw _ _ d Hnamed Hin).
    cbn [stripSigil]. now rewrite Ascii.eqb_refl.
  - intros Hnamed. exact (extractErrors_named raw _ _ d Hnamed Hin).
Qed.

(** C10 as amended.  A Diagnostic of the environment setup is the
    translation, with the fallback identity [@roblox-prelude], of the error
    text the interpreter reported for the setup code.  When that text is
    blank or its headline matches neither shape, the Diagnostic carries the
    fallback verbatim, sigil included.  When the headline matches a shape,
    the Diagnostic carries the captured identity less its leading [@]: for
    a headline that names the setup chunk, [roblox-prelude] without the
    sigil. *)
Theorem prelude_diagnostic_identity
    (services : option (list string)) (m m' : machine) (d : SimulationError) :
  initializePrelude services m = Normal (Some d) m' ->
  exists text raw,
    answerOf (codeOf (Setup services)) "@roblox-prelude" m = Failed text
    /\ to_jsstring text = inr raw
    /\ to_jsstring (lua_tostring (lstack m') (-1)) = inr raw
    /\ extractErrors raw "@roblox-prelude" = [d]
    /\ (isEmpty (trim raw) = true \/ exec pattern (headlineOf (trim raw)) = None ->
        chunkName d = "@roblox-prelude")
    /\ (forall mt,
          isEmpty (trim raw) = false ->
          exec pattern (headlineOf (trim raw)) = Some mt ->
          chunkName d = stripSigil (capturedIdentity mt "@roblox-prelude"))
    /\ (namesIdentity "@roblox-prelude" (headlineOf (trim raw))
        \/ namesIdentity "roblox-prelude" (headlineOf (trim raw)) ->
        chunkName d = "roblox-prelude").
Proof.
  intros H.
  apply initializePrelude_Normal in H
    as [(_ & H) | (text & raw & Hf & Ht & Htop & H)]; [discriminate |].
  exists text, raw. unfold preludeChunkName in *.
  destruct (extractErrors_singleton raw "@roblox-prelude") as (d' & Hd & _).
  rewrite Hd in H. cbn [hd_error] in H. injection H as ->.
  assert (Hin : In d' (extractErrors raw "@roblox-prelude")) by (rewrite Hd; now left).
  split; [exact Hf |]. split; [exact Ht |]. split; [exact Htop |].
  split; [exact Hd |]. split; [| split].
  - intros Hun. exact (extractErrors_unmatched raw _ Hun d' Hin).
  - intros mt Hblank Hmatch. exact (extractErrors_matched raw _ mt Hblank Hmatch d' Hin).
  - intros [Hn | Hn]; now rewrite (extractErrors_named raw _ _ d' Hn Hin).
Qed.

End IdentityFacts.

(** ** Returning and throwing *)

Section ReturnFacts.

Context {F : Fengari}.













End ReturnFacts.



(** A chunk that raises a table: [lua_tostring] yields null for the error
    value, [to_jsstring] throws on it, and the exception leaves [run]. *)
Example run_throws_on_table_error :
  run (F:=Toy.tables) (Toy.options (mkChunk "error({})" "main.luau") []) 0%Z
  = Throw (JsError "to_jsstring expects a Uint8Array") 12%Z.
Proof. vm_compute. reflexivity. Qed.

(** A chunk that raises the string of the one byte 255: [lua_tostring]
    yields its bytes, [to_jsstring] throws because they are not valid
    UTF-8, and the exception leaves [run]. *)
Example run_throws_on_malformed_error_text :
  run (F:=Toy.bytes) (Toy.options (mkChunk "error('\255', 0)" "main.luau") []) 0%Z
  = Throw (JsError "cannot convert invalid utf8 to javascript string") 12%Z.
Proof. vm_compute. reflexivity. Qed.

(** A failing run on the toy interpreter. *)
Lemma success_iff_no_error_diagnostic_witness :
  exists r w',
    run (F:=Toy.interp)
        (Toy.options (mkChunk "print('before') error('boom')" "main.luau") []) 0%Z
    = Normal r w'
    /\ success r = false
    /\ exists d, In d (errors r) /\ severity d = error.
Proof.
  eexists _, _. split; [vm_compute; reflexivity |]. split; [reflexivity |].
  refine (proj2 (success_iff_no_error_diagnostic (F:=Toy.interp)
            (Toy.options (mkChunk "print('before') error('boom')" "main.luau") [])
            0%Z _ _ _) _); vm_compute; reflexivity.
Defined.

(** A run whose second preload does not compile. *)
Lemma errors_at_most_one_witness :
  exists r w',
    run (F:=Toy.interp)
        (Toy.options (mkChunk "print('hello', 'world')" "main.luau")
           [mkChunk "warn('careful', 42)" "lib.luau"; mkChunk "x = = 1" "broken.luau"])
        0%Z
    = Normal r w'
    /\ (length (errors r) <= 1)%nat.
Proof.
  eexists _, _. split; [vm_compute; reflexivity |].
  refine (proj1 (errors_at_most_one (F:=Toy.interp)
            (Toy.options (mkChunk "print('hello', 'world')" "main.luau")
               [mkChunk "warn('careful', 42)" "lib.luau"; mkChunk "x = = 1" "broken.luau"])
            0%Z _ _ _)); vm_compute; reflexivity.
Defined.

(** Preload 2 of 3 fails: the result is the one of the pipeline that ends
    with preload 2, with the output of preload 1 only. *)
Lemma pipeline_order_and_short_circuit_witness :
  run (F:=Toy.interp)
      (Toy.options (mkChunk "print('hello', 'world')" "main.luau")
         [mkChunk "warn('careful', 42)" "one.luau";
          mkChunk "print('before') error('boom')" "two.luau";
          mkChunk "print('hello', 'world')" "three.luau"])
      0%Z
  = Normal (mkResult false 9
              [ mkError "boom" "two.luau" (Some 1%Z) None None error ]
              [ ("[warn] careful" ++ String TAB "42")%string; "before" ])
           15%Z.
Proof.
  refine (proj2 (proj2 (pipeline_order_and_short_circuit (F:=Toy.interp)
            (Toy.options (mkChunk "print('hello', 'world')" "main.luau")
               [mkChunk "warn('careful', 42)" "one.luau";
                mkChunk "print('before') error('boom')" "two.luau";
                mkChunk "print('hello', 'world')" "three.luau"])
            0%Z))
          [mkChunk "warn('careful', 42)" "one.luau"]
          (mkChunk "print('before') error('boom')" "two.luau")
          [mkChunk "print('hello', 'world')" "three.luau"]
          _ 15%Z _ _ _); [reflexivity | vm_compute; reflexivity | reflexivity].
Defined.

(** C4 as stated fails: with five ticks spent creating the interpreter
    and one opening the libraries, the run reports the six ticks of its
    pipeline, while the time from before the creation of the interpreter
    to the return is twelve ticks. *)
Lemma durationMs_excludes_interpreter_creation :
  run (F:=Toy.interp)
      (mkOptions (mkChunk "print('hello', 'world')" "main.luau") None None (Some []))
      0%Z
  = Normal (mkResult true 6 [] [("hello" ++ String TAB "world")%string]) 12%Z
  /\ runTimedFromCreation (F:=Toy.interp)
      (mkOptions (mkChunk "print('hello', 'world')" "main.luau") None None (Some []))
      0%Z
  = Normal (mkResult true 12 [] [("hello" ++ String TAB "world")%string]) 12%Z.
Proof. split; vm_compute; reflexivity. Qed.

(** The duration of a toy run is the span of its pipeline. *)
Lemma durationMs_spans_pipeline_witness :
  exists m1 m2,
    prepare (F:=Toy.interp) (boot (F:=Toy.interp) 0%Z) = Normal tt m1
    /\ pipeline (F:=Toy.interp)
         (mkOptions (mkChunk "print('hello', 'world')" "main.luau") None None (Some []))
         (performance_now (Fengari:=Toy.interp) (host m1)) [] m1
       = Normal (mkResult true 6 [] [("hello" ++ String TAB "world")%string]) m2
    /\ durationMs (mkResult true 6 [] [("hello" ++ String TAB "world")%string])
       = (performance_now (Fengari:=Toy.interp) (host m2)
          - performance_now (Fengari:=Toy.interp) (host m1))%Z.
Proof.
  apply (durationMs_spans_pipeline (F:=Toy.interp)
           (mkOptions (mkChunk "print('hello', 'world')" "main.luau") None None (Some []))
           0%Z 12%Z).
  vm_compute. reflexivity.
Defined.

(** A chunk whose error text names the identity it was compiled under. *)
Lemma chunk_diagnostic_carries_chunkName_witness :
  (exists status v w,
      loadbuffer (Fengari:=Toy.interp) "error('@main.luau:7: custom', 0)" 32 "@main.luau" 6%Z
      = Normal (status, v) w)
  /\ namesIdentity "@main.luau" (headlineOf (trim "@main.luau:7: custom"))
  /\ executeChunk (F:=Toy.interp)
       (mkChunk "error('@main.luau:7: custom', 0)" "main.luau") []
       (mkMachine (F:=Toy.interp) [] [("warn", Logger "[warn] "); ("print", Logger "")] [] 6%Z)
     = Normal [ mkError "custom" "main.luau" (Some 7%Z) None None error ]
              (mkMachine (F:=Toy.interp) [] [("warn", Logger "[warn] "); ("print", Logger "")] [] 9%Z).
Proof.
  split; [| split].
  - exact (proj1 (chunk_diagnostic_carries_chunkName (F:=Toy.interp)
                    (mkChunk "error('@main.luau:7: custom', 0)" "main.luau") []
                    [ mkError "custom" "main.luau" (Some 7%Z) None None error ]
                    (mkMachine (F:=Toy.interp) []
                       [("warn", Logger "[warn] "); ("print", Logger "")] [] 6%Z)
                    (mkMachine (F:=Toy.interp) []
                       [("warn", Logger "[warn] "); ("print", Logger "")] [] 9%Z)
                    ltac:(vm_compute; reflexivity))).
  - left. exists "@"%char, "main.luau", "7"%char, "", " custom".
    repeat split.
  - vm_compute. reflexivity.
Defined.

(** C8 as stated fails: a chunk whose name starts with the sigil is
    compiled under the identity with two of them, the interpreter reports
    the error under the name with one, and the Diagnostic carries the name
    with none, which is not the chunk's original name. *)
Lemma chunk_diagnostic_drops_a_sigil_of_the_name :
  executeChunk (F:=Toy.interp)
    (mkChunk "print('before') error('boom')" "@lib") []
    (mkMachine (F:=Toy.interp) [] [("warn", Logger "[warn] "); ("print", Logger "")] [] 6%Z)
  = Normal [ mkError "boom" "lib" (Some 1%Z) None None error ]
           (mkMachine (F:=Toy.interp) [] [("warn", Logger "[warn] "); ("print", Logger "")]
              ["before"] 9%Z)
  /\ chunkName (mkError "boom" "lib" (Some 1%Z) None None error)
     <> Chunk.chunkName (mkChunk "print('before') error('boom')" "@lib").
Proof. split; [vm_compute; reflexivity | discriminate]. Qed.

(** Two failing setups on the toy interpreter: one whose error text has
    no position, one whose error text names the setup chunk. *)
Lemma prelude_diagnostic_identity_witness :
  (exists raw,
      extractErrors raw "@roblox-prelude"
      = [ mkError "plain" "@roblox-prelude" None None None error ])
  /\ (exists raw,
      extractErrors raw "@roblox-prelude"
      = [ mkError "boom" "roblox-prelude" (Some 1%Z) None None error ])
  /\ namesIdentity "roblox-prelude" (headlineOf (trim "roblox-prelude:1: boom")).
Proof.
  split; [| split].
  - destruct (prelude_diagnostic_identity (F:=Toy.interp)
                (Some ["error('plain', 0)"])
                (mkMachine (F:=Toy.interp) []
                   [("warn", Logger "[warn] "); ("print", Logger "")] [] 6%Z)
                (mkMachine (F:=Toy.interp) [TString "plain"]
                   [("warn", Logger "[warn] "); ("print", Logger "")] [] 9%Z)
                (mkError "plain" "@roblox-prelude" None None None error)
                ltac:(vm_compute; reflexivity)) as (text & raw & _ & _ & _ & H & _).
    now exists raw.
  - destruct (prelude_diagnostic_identity (F:=Toy.interp)
                (Some ["print('before') error('boom')"])
                (mkMachine (F:=Toy.interp) []
                   [("warn", Logger "[warn] "); ("print", Logger "")] [] 6%Z)
                (mkMachine (F:=Toy.interp) [TString "roblox-prelude:1: boom"]
                   [("warn", Logger "[warn] "); ("print", Logger "")] ["before"] 9%Z)
                (mkError "boom" "roblox-prelude" (Some 1%Z) None None error)
                ltac:(vm_compute; reflexivity)) as (text & raw & _ & _ & _ & H & _).
    now exists raw.
  - left. exists "r"%char, "oblox-prelude", "1"%char, "", " boom".
    repeat split.
Defined.

(** C10 as stated fails in its second half: a setup failure whose headline
    matches a shape and names another chunk yields that chunk's name, not
    the name of the setup chunk. *)
Lemma prelude_diagnostic_names_another_chunk :
  initializePrelude (F:=Toy.interp) (Some ["error('@main.luau:7: custom', 0)"])
    (mkMachine (F:=Toy.interp) [] [("warn", Logger "[warn] "); ("print", Logger "")] [] 6%Z)
  = Normal (Some (mkError "custom" "main.luau" (Some 7%Z) None None error))
           (mkMachine (F:=Toy.interp) [TString "@main.luau:7: custom"]
              [("warn", Logger "[warn] "); ("print", Logger "")] [] 9%Z)
  /\ (exists mt, exec pattern (headlineOf (trim "@main.luau:7: custom")) = Some mt)
  /\ chunkName (mkError "custom" "main.luau" (Some 7%Z) None None error)
     <> "roblox-prelude".
Proof.
  split; [vm_compute; reflexivity |]. split; [| discriminate].
  eexists. vm_compute. reflexivity.
Qed.

(** * Further properties *)

(** ** The error translator: what a Diagnostic holds *)

Section MatchInversion.
Open Scope string_scope.

Lemma greedy_inv p : forall s i g k r,
  greedy p s i g k = Some r ->
  exists a b, s = a ++ b /\ allChars p a = true
              /\ k (MState (i + String.length a) b g) = Some r.
Proof.
  induction s as [| c s IH]; intros i g k r H; cbn [greedy] in H.
  - exists "", "". cbn. now rewrite Nat.add_0_r.
  - destruct (p c) eqn:Hc.
    + destruct (greedy p s (S i) g k) as [r' |] eqn:G.
      * injection H as ->. apply IH in G as (a & b & -> & Ha & Hk).
        exists (String c a), b. cbn. rewrite Hc, Ha. repeat split.
        now replace (i + S (String.length a))%nat with (S i + String.length a)%nat by lia.
      * exists "", (String c s). cbn. now rewrite Nat.add_0_r.
    + exists "", (String c s). cbn. now rewrite Nat.add_0_r.
Qed.

Lemma lit_inv c i s g k r :
  rmatch (Lit c) (MState i s g) k = Some r ->
  exists s', s = String c s' /\ k (MState (S i) s' g) = Some r.
Proof.
  cbn [rmatch rest pos groups]. destruct s as [| c' s']; [discriminate |].
  destruct (Ascii.eqb c c') eqn:E; [| discriminate].
  apply Ascii.eqb_eq in E as <-. intros H. now exists s'.
Qed.

Lemma lits_inv s : forall c i t g k r,
  rmatch (lits c s) (MState i t g) k = Some r ->
  exists t', t = String c s ++ t'
             /\ k (MState (i + S (String.length s)) t' g) = Some r.
Proof.
  induction s as [| c' s IH]; intros c i t g k r H; cbn [lits] in H.
  - apply lit_inv in H as (t' & -> & H). exists t'. cbn. now rewrite Nat.add_1_r.
  - cbn [rmatch] in H. change (rmatch (Lit c) (MState i t g) (fun st' => rmatch (lits c' s) st' k) = Some r) in H.
    apply lit_inv in H as (t1 & -> & H).
    apply IH in H as (t' & -> & H). exists t'. split; [reflexivity |].
    cbn [String.length].
    now replace (i + S (S (String.length s)))%nat with (S i + S (String.length s))%nat by lia.
Qed.

Lemma group_plus_inv name p i s g k r :
  rmatch (Group name (Plus p)) (MState i s g) k = Some r ->
  exists c a b, s = String c a ++ b /\ allChars p (String c a) = true
                /\ k (MState (i + S (String.length a)) b ((name, String c a) :: g)) = Some r.
Proof.
  cbn [rmatch rest pos groups]. destruct s as [| c s]; [discriminate |].
  destruct (p c) eqn:Hc; [| discriminate].
  intros H. apply greedy_inv in H as (a & b & -> & Ha & H).
  exists c, a, b. cbn [allChars]. rewrite Hc, Ha. repeat split.
  cbn [pos rest groups] in H.
  rewrite (consumed_prefix _ _ (String c a) b) in H;
    [| reflexivity | cbn [pos String.length]; lia].
  now replace (i + S (String.length a))%nat with (S i + String.length a)%nat by lia.
Qed.

Lemma patternTail_inv i s g m :
  rmatch patternTail (MState i s g) Some = Some m ->
  exists d D ws M,
    s = ":" ++ String d D ++ ":" ++ ws ++ M
    /\ allChars isDigit (String d D) = true
    /\ allChars isWhiteSpace ws = true
    /\ groups m = ("message", M) :: ("line", String d D) :: g.
Proof.
  unfold patternTail. intros H.
  change (rmatch (Lit ":"%char) (MState i s g)
            (fun st1 => rmatch (Group "line" (Plus isDigit)) st1
            (fun st2 => rmatch (Lit ":"%char) st2
            (fun st3 => rmatch (Star isWhiteSpace) st3
            (fun st4 => rmatch (Group "message" (Star anyChar)) st4
            (fun st5 => rmatch AssertEnd st5 Some))))) = Some m) in H.
  apply lit_inv in H as (s1 & -> & H).
  apply group_plus_inv in H as (d & D & s2 & -> & HD & H).
  apply lit_inv in H as (s3 & -> & H).
  cbn [rmatch rest pos groups] in H.
  apply greedy_inv in H as (ws & s4 & -> & Hws & H).
  cbn [rmatch rest pos groups] in H.
  apply greedy_inv in H as (M & b & -> & _ & H).
  cbn [rest pos groups] in H.
  destruct b as [| cb b]; [| discriminate H].
  cbn [isEmpty] in H. injection H as <-.
  exists d, D, ws, (M ++ "").
  rewrite (consumed_prefix _ _ (M ++ "") ""); 
    [| cbn [rest]; now rewrite !append_empty_r | cbn [pos]; now rewrite append_empty_r].
  cbn [groups]. repeat split; try assumption.
Qed.


Lemma execFrom_pattern_later s : forall i, execFrom pattern (S i) s = None.
Proof.
  induction s as [| c s IH]; intros i; cbn [execFrom]; unfold pattern at 1;
    cbn [rmatch pos Nat.eqb]; [reflexivity | apply IH].
Qed.

Lemma exec_pattern_at_start h m :
  exec pattern h = Some m -> rmatch pattern (MState 0 h []) Some = Some m.
Proof.
  unfold exec. destruct h as [| c h]; cbn [execFrom];
    destruct (rmatch pattern _ Some) as [r |]; try discriminate; try easy.
  now rewrite execFrom_pattern_later.
Qed.

(** A match of the pattern: the headline has one of the two shapes. *)
Lemma exec_pattern_inv h m :
  exec pattern h = Some m ->
  exists c I d D ws M,
    allChars isDigit (String d D) = true
    /\ allChars isWhiteSpace ws = true
    /\ group "line" (groups m) = Some (String d D)
    /\ group "message" (groups m) = Some M
    /\ ((h = "[string " ++ quoted (String c I) ++ "]:" ++ String d D ++ ":" ++ ws ++ M
         /\ allChars notQuote (String c I) = true
         /\ group "chunk" (groups m) = Some (String c I))
        \/ (h = String c I ++ ":" ++ String d D ++ ":" ++ ws ++ M
            /\ allChars notColon (String c I) = true
            /\ group "chunk" (groups m) = None
            /\ group "direct" (groups m) = Some (String c I))).
Proof.
  intros H. apply exec_pattern_at_start in H.
  unfold pattern in H. cbn [rmatch pos Nat.eqb] in H.
  destruct (rmatch patternQuoted (MState 0 h []) (fun st' => rmatch patternTail st' Some))
    as [r |] eqn:Q.
  - injection H as ->. unfold patternQuoted in Q.
    change (rmatch (lits "["%char "string ") (MState 0 h [])
              (fun st1 => rmatch (Lit dquote) st1
              (fun st2 => rmatch (Group "chunk" (Plus notQuote)) st2
              (fun st3 => rmatch (Lit dquote) st3
              (fun st4 => rmatch (Lit "]"%char) st4
              (fun st5 => rmatch patternTail st5 Some))))) = Some m) in Q.
    apply lits_inv in Q as (t1 & -> & Q).
    apply lit_inv in Q as (t2 & -> & Q).
    apply group_plus_inv in Q as (c & I & t3 & -> & HI & Q).
    apply lit_inv in Q as (t4 & -> & Q).
    apply lit_inv in Q as (t5 & -> & Q).
    apply patternTail_inv in Q as (d & D & ws & M & -> & HD & Hws & Hg).
    exists c, I, d, D, ws, M. rewrite Hg. repeat split; try assumption.
    left. repeat split; try assumption.
    unfold quoted. cbn [append]. now rewrite append_assoc.
  - unfold patternDirect in H.
    apply group_plus_inv in H as (c & I & t & -> & HI & H).
    apply patternTail_inv in H as (d & D & ws & M & -> & HD & Hws & Hg).
    exists c, I, d, D, ws, M. rewrite Hg. repeat split; try assumption.
    right. repeat split; assumption.
Qed.

End MatchInversion.

Section TranslatorSoundness.
Open Scope string_scope.

Lemma allChars_app p a b : allChars p (a ++ b) = allChars p a && allChars p b.
Proof. induction a as [| c a IH]; cbn; [reflexivity |]. now rewrite IH, andb_assoc. Qed.

Lemma allChars_trimStart p s : allChars p s = true -> allChars p (trimStart s) = true.
Proof.
  induction s as [| c s IH]; cbn; [easy |]. intros H.
  apply andb_true_iff in H as [Hc Hs].
  destruct (isWhiteSpace c); [auto |]. cbn. now rewrite Hc, Hs.
Qed.

Lemma allChars_trimEnd p s : allChars p s = true -> allChars p (trimEnd s) = true.
Proof.
  induction s as [| c s IH]; cbn; [easy |]. intros H.
  apply andb_true_iff in H as [Hc Hs]. specialize (IH Hs).
  destruct (trimEnd s) as [| c' t].
  - destruct (isWhiteSpace c); cbn; [reflexivity | now rewrite Hc].
  - cbn [allChars] in *. now rewrite Hc, IH.
Qed.

Lemma allChars_trim p s : allChars p s = true -> allChars p (trim s) = true.
Proof. intros H. unfold trim. now apply allChars_trimEnd, allChars_trimStart. Qed.

Lemma trimStart_head s c t : trimStart s = String c t -> isWhiteSpace c = false.
Proof.
  induction s as [| c0 s IH]; cbn; [discriminate |].
  destruct (isWhiteSpace c0) eqn:E; [exact IH |].
  intros H. injection H as <- _. exact E.
Qed.

Lemma trimEnd_head c s : isWhiteSpace c = false ->
  exists t, trimEnd (String c s) = String c t.
Proof.
  intros H. cbn. destruct (trimEnd s) as [| c' t']; [rewrite H |]; eauto.
Qed.

Lemma trim_head s c t : trim s = String c t -> isWhiteSpace c = false.
Proof.
  unfold trim. destruct (trimStart s) as [| c0 t0] eqn:E; [discriminate |].
  pose proof (trimStart_head _ _ _ E) as Hc.
  destruct (trimEnd_head c0 t0 Hc) as (t' & ->).
  intros H. now injection H as <- _.
Qed.

Lemma trimStart_whitespace ws s :
  allChars isWhiteSpace ws = true -> trimStart (ws ++ s) = trimStart s.
Proof.
  induction ws as [| c ws IH]; cbn; [easy |]. intros H.
  apply andb_true_iff in H as [-> H]. auto.
Qed.

Lemma splitLines_cons s : exists h t, splitLines s = h :: t.
Proof.
  assert (Q : (exists h t, splitLines s = h :: t)
              /\ forall c, exists h t, splitLines (String c s) = h :: t).
  { induction s as [| a s [IH1 IH2]].
    - split; [cbn; eauto |]. intros c. cbn.
      destruct (Ascii.eqb c LF); [eauto |]. destruct (Ascii.eqb c CR); eauto.
    - split; [apply IH2 |]. intros c.
      destruct (IH2 a) as (h & t & E).
      cbn [splitLines]. cbn [splitLines] in E. rewrite E.
      destruct (Ascii.eqb c LF); [eauto |].
      destruct (Ascii.eqb c CR); [| eauto].
      destruct (Ascii.eqb a LF); eauto. }
  apply Q.
Qed.

Lemma headline_nonempty s c t : trim s = String c t -> headlineOf (trim s) <> "".
Proof.
  intros E. pose proof (trim_head _ _ _ E) as Hc. rewrite E.
  unfold headlineOf. destruct (splitLines_cons t) as (h & l & Ht).
  cbn [splitLines]. rewrite Ht.
  assert (Ascii.eqb c LF = false /\ Ascii.eqb c CR = false) as [-> ->].
  { split; apply Ascii.eqb_neq; intros ->; discriminate Hc. }
  cbn. discriminate.
Qed.

(** X1.  Every Diagnostic the translator builds has a message that is not
    the empty string, whatever the raw text. *)
Theorem diagnostic_message_never_empty (rawMessage fallbackChunk : string) :
  Forall (fun d => message d <> "") (extractErrors rawMessage fallbackChunk).
Proof.
  apply Forall_forall. intros d.
  unfold extractErrors. destruct (trim rawMessage) as [| c t] eqn:E; cbn [isEmpty].
  - intros [<- | []]. discriminate.
  - rewrite <- E. destruct (exec pattern (headlineOf (trim rawMessage))) as [m |].
    + intros [<- | []]. cbn [message]. unfold orElse.
      match goal with |- context [isEmpty ?x] => destruct x end; cbn; discriminate.
    + intros [<- | []]. cbn [message]. now apply (headline_nonempty _ c t).
Qed.

Lemma digit_facts (c : ascii) :
  isDigit c = true ->
  isWhiteSpace c = false /\ Ascii.eqb c "-"%char = false
  /\ Ascii.eqb c "+"%char = false /\ (0 <= digitValue c <= 9)%Z.
Proof.
  destruct c as [[] [] [] [] [] [] [] []]; vm_compute; intros H;
    first [discriminate H | repeat split; discriminate].
Qed.

Lemma readDigits_decimal s : forall a,
  allChars isDigit s = true ->
  readDigits s (Some a) = Some (decimalFrom s a).
Proof.
  induction s as [| c s IH]; intros a Hs; cbn [readDigits decimalFrom].
  - reflexivity.
  - cbn [allChars] in Hs. apply andb_true_iff in Hs as [Hc Hs]. rewrite Hc.
    now apply IH.
Qed.

Lemma decimalFrom_nonneg s : forall a,
  allChars isDigit s = true -> (0 <= a)%Z -> (0 <= decimalFrom s a)%Z.
Proof.
  induction s as [| c s IH]; intros a Hs Ha; cbn [decimalFrom]; [exact Ha |].
  cbn [allChars] in Hs. apply andb_true_iff in Hs as [Hc Hs].
  apply IH; [exact Hs |].
  destruct (digit_facts c Hc) as (_ & _ & _ & Hv). lia.
Qed.

(** [parseInt] on a string of digits: the double nearest to the integer
    they write. *)
Lemma parseInt_digits d D :
  allChars isDigit (String d D) = true ->
  parseInt (String d D) = Some (toNumber (decimal (String d D))).
Proof.
  intros H. pose proof H as H'. cbn [allChars] in H'.
  apply andb_true_iff in H' as [Hd HD].
  destruct (digit_facts d Hd) as (Hws & Hminus & Hplus & Hv).
  unfold parseInt. cbn [trimStart]. rewrite Hws, Hminus, Hplus.
  cbn [readDigits]. rewrite Hd, (readDigits_decimal D _ HD).
  reflexivity.
Qed.

Lemma toNumber_small (n : Z) : (n < 2 ^ 53)%Z -> toNumber n = n.
Proof. intros H. unfold toNumber. now rewrite (proj2 (Z.ltb_lt _ _) H). Qed.

(** The integer 2^53 + 1 is not a double: it is read as 2^53. *)
Example parseInt_rounds_to_a_double :
  parseInt "9007199254740993" = Some 9007199254740992%Z.
Proof. vm_compute. reflexivity. Qed.

(** X2.  When the pattern matches the headline of a raw text, the headline
    is an identity that is not empty (bare and without a colon, or in the
    quoted form and without a double quote), a colon, decimal digits, a
    colon and a rest; the Diagnostic names the identity without its leading
    at-sign, it has a line, which is the integer the digits write when
    that is below 2^53, and its message is the trimmed rest, or the default
    text when that is empty. *)
Theorem matched_headline_has_a_known_shape
    (rawMessage fallbackChunk : string) (m : mstate) (d : SimulationError) :
  isEmpty (trim rawMessage) = false ->
  exec pattern (headlineOf (trim rawMessage)) = Some m ->
  In d (extractErrors rawMessage fallbackChunk) ->
  exists identity digits rest,
    ((headlineOf (trim rawMessage)
        = "[string " ++ quoted identity ++ "]:" ++ digits ++ ":" ++ rest
      /\ allChars notQuote identity = true)
     \/ (headlineOf (trim rawMessage) = identity ++ ":" ++ digits ++ ":" ++ rest
         /\ allChars notColon identity = true))
    /\ identity <> ""
    /\ digits <> "" /\ allChars isDigit digits = true
    /\ chunkName d = stripSigil identity
    /\ line d <> None
    /\ ((decimal digits < 2 ^ 53)%Z -> line d = Some (decimal digits))
    /\ message d = orElse (trim rest) "Runtime error".
Proof.
  intros Hblank Hmatch Hd.
  unfold extractErrors in Hd. rewrite Hblank, Hmatch in Hd.
  destruct Hd as [<- | []]. cbn [chunkName line message].
  destruct (exec_pattern_inv _ _ Hmatch)
    as (c & I & dg & D & ws & M & HD & Hws & Hline & Hmsg & Hshape).
  exists (String c I), (String dg D), (ws ++ M).
  assert (Htrim : trim (ws ++ M) = trim M).
  { unfold trim. now rewrite trimStart_whitespace. }
  rewrite Hline, Hmsg, Htrim. cbn [coalesce]. rewrite (parseInt_digits dg D HD).
  assert (Hid : capturedIdentity m fallbackChunk = String c I).
  { unfold capturedIdentity.
    destruct Hshape as [(_ & _ & ->) | (_ & _ & -> & ->)]; reflexivity. }
  rewrite Hid.
  split.
  { destruct Hshape as [(-> & Hq & _) | (-> & Hc & _)]; [left | right];
      (split; [reflexivity | assumption]). }
  repeat split; try assumption; try discriminate.
  intros Hsmall. now rewrite (toNumber_small _ Hsmall).
Qed.

Lemma splitLines_noLF s : Forall (fun l => allChars notLF l = true) (splitLines s).
Proof.
  assert (Q : Forall (fun l => allChars notLF l = true) (splitLines s)
              /\ forall c, Forall (fun l => allChars notLF l = true)
                             (splitLines (String c s))).
  { induction s as [| a s [IH1 IH2]].
    - split; [cbn; auto |]. intros c. cbn [splitLines].
      destruct (Ascii.eqb c LF) eqn:E; [cbn; auto |].
      assert (K : Forall (fun l => allChars notLF l = true) [String c ""]).
      { constructor; [| constructor]. cbn. unfold notLF. now rewrite E. }
      destruct (Ascii.eqb c CR); exact K.
    - split; [apply IH2 |]. intros c.
      pose proof (IH2 a) as Ha.
      cbn [splitLines]. cbn [splitLines] in Ha.
      destruct (Ascii.eqb c LF) eqn:E; [constructor; [reflexivity | exact Ha] |].
      match goal with
      | |- context [match ?x with [] => _ | h :: t => _ end] =>
          assert (K : Forall (fun l => allChars notLF l = true)
                        (match x with [] => [String c ""] | h :: t => String c h :: t end))
      end.
      { match goal with |- context [match ?x with [] => _ | h :: t => _ end] =>
          destruct x as [| h t] end.
        - constructor; [| constructor]. cbn. unfold notLF. now rewrite E.
        - inversion Ha; subst. constructor; [| assumption].
          cbn. unfold notLF at 1. now rewrite E. }
      destruct (Ascii.eqb c CR); [| exact K].
      destruct (Ascii.eqb a LF); [| exact K].
      constructor; [reflexivity | exact IH1]. }
  apply Q.
Qed.

Lemma headline_noLF s : allChars notLF (headlineOf s) = true.
Proof.
  unfold headlineOf. pose proof (splitLines_noLF s) as H.
  destruct (splitLines s); [reflexivity |]. now inversion H.
Qed.

(** X3.  The message of every Diagnostic the translator builds is one
    line: it holds no line feed. *)
Theorem diagnostic_message_is_one_line (rawMessage fallbackChunk : string) :
  Forall (fun d => allChars notLF (message d) = true)
         (extractErrors rawMessage fallbackChunk).
Proof.
  apply Forall_forall. intros d Hd.
  destruct (isEmpty (trim rawMessage)) eqn:Hblank.
  - unfold extractErrors in Hd. rewrite Hblank in Hd.
    destruct Hd as [<- | []]. vm_compute. reflexivity.
  - destruct (exec pattern (headlineOf (trim rawMessage))) as [m |] eqn:Hmatch.
    + unfold extractErrors in Hd. rewrite Hblank, Hmatch in Hd.
      destruct Hd as [<- | []]. cbn [message].
      destruct (exec_pattern_inv _ _ Hmatch)
        as (c & I & dg & D & ws & M & _ & _ & _ & Hmsg & Hshape).
      rewrite Hmsg. cbn [coalesce].
      pose proof (headline_noLF (trim rawMessage)) as Hh.
      assert (HM : allChars notLF M = true).
      { destruct Hshape as [(E & _) | (E & _)]; rewrite E in Hh;
          repeat (rewrite allChars_app in Hh; apply andb_true_iff in Hh as [_ Hh]);
          exact Hh. }
      unfold orElse. destruct (isEmpty (trim M)); [vm_compute; reflexivity |].
      now apply allChars_trim.
    + unfold extractErrors in Hd. rewrite Hblank, Hmatch in Hd.
      destruct Hd as [<- | []]. apply headline_noLF.
Qed.

Lemma join_cons2 sep x y l : join sep (x :: y :: l) = x ++ sep ++ join sep (y :: l).
Proof. reflexivity. Qed.

Lemma join_splitLines s :
  allChars notCR s = true -> join (String LF "") (splitLines s) = s.
Proof.
  induction s as [| c s IH]; [reflexivity |]. cbn [allChars]. intros H.
  apply andb_true_iff in H as [Hc Hs]. specialize (IH Hs).
  unfold notCR in Hc. apply negb_true_iff in Hc.
  cbn [splitLines]. rewrite Hc.
  destruct (splitLines_cons s) as (h & t & E). rewrite E in *.
  destruct (Ascii.eqb c LF) eqn:L.
  - apply Ascii.eqb_eq in L as ->. rewrite join_cons2, IH. reflexivity.
  - destruct t as [| y l].
    + cbn in *. now rewrite IH.
    + rewrite join_cons2 in *. rewrite <- IH. reflexivity.
Qed.

Lemma trimEnd_last s : forall a c,
  trimEnd s = a ++ String c "" -> isWhiteSpace c = false.
Proof.
  induction s as [| c0 s IH]; intros a c H; cbn [trimEnd] in H.
  - destruct a; discriminate.
  - destruct (trimEnd s) as [| x t] eqn:E.
    + destruct (isWhiteSpace c0) eqn:W.
      * destruct a; discriminate.
      * destruct a as [| a0 a]; cbn in H.
        -- now injection H as <-.
        -- injection H as _ H. destruct a; discriminate.
    + destruct a as [| a0 a]; cbn in H.
      * discriminate.
      * injection H as _ H. now apply (IH a c).
Qed.

(** The text a Diagnostic keeps: its message, and its stack on the lines
    below when it has one. *)
(** X4.  When the raw text holds no carriage return and its headline does
    not match the pattern, nothing of the trimmed text is lost: the message
    and the stack of the Diagnostic, joined by a line feed, are the trimmed
    text. *)
Theorem fallback_diagnostic_keeps_the_text
    (rawMessage fallbackChunk : string) (d : SimulationError) :
  allChars notCR rawMessage = true ->
  isEmpty (trim rawMessage) = false ->
  exec pattern (headlineOf (trim rawMessage)) = None ->
  In d (extractErrors rawMessage fallbackChunk) ->
  keptText d = trim rawMessage.
Proof.
  intros Hcr Hblank Hmatch Hd.
  unfold extractErrors in Hd. rewrite Hblank, Hmatch in Hd.
  destruct Hd as [<- | []]. unfold keptText. cbn [message stack].
  pose proof (join_splitLines (trim rawMessage) (allChars_trim _ _ Hcr)) as J.
  unfold headlineOf, stackOf.
  destruct (splitLines (trim rawMessage)) as [| h [| y l]] eqn:E.
  - destruct (splitLines_cons (trim rawMessage)) as (? & ? & E'). congruence.
  - cbn in *. now rewrite append_empty_r.
  - cbn [hd tl]. rewrite join_cons2 in J.
    unfold orUndefined. destruct (join (String LF "") (y :: l)) as [| c t] eqn:K.
    + cbn [isEmpty]. exfalso. cbn [append] in J.
      assert (L : isWhiteSpace LF = false).
      { apply (trimEnd_last (trimStart rawMessage) h). symmetry. exact J. }
      discriminate L.
    + cbn [isEmpty]. exact J.
Qed.

Lemma first_colon a : forall b x y,
  allChars notColon a = true -> allChars notColon b = true ->
  (a ++ String ":"%char x)%string = (b ++ String ":"%char y)%string -> a = b /\ x = y.
Proof.
  induction a as [| c a IH]; intros [| c' b] x y Ha Hb E; cbn [append] in E.
  - injection E as ->. now split.
  - injection E as <- _. cbn in Hb. discriminate Hb.
  - injection E as -> _. cbn in Ha. discriminate Ha.
  - injection E as -> E. cbn [allChars] in Ha, Hb.
    apply andb_true_iff in Ha as [_ Ha]. apply andb_true_iff in Hb as [_ Hb].
    destruct (IH b x y Ha Hb E) as [-> ->]. now split.
Qed.

Lemma unlocated_headline identity c rest :
  allChars notColon identity = true ->
  isDigit c = false ->
  prefix "[string " (identity ++ ":" ++ String c rest) = false ->
  exec pattern (identity ++ ":" ++ String c rest) = None.
Proof.
  intros Hid Hc Hp.
  destruct (exec pattern _) as [m |] eqn:E; [exfalso | reflexivity].
  apply exec_pattern_inv in E
    as (c' & I & d & D & ws & M & HD & _ & _ & _ & [(E & _) | (E & HI & _)]).
  - rewrite E in Hp. discriminate Hp.
  - change (identity ++ String ":"%char (String c rest)
            = String c' I ++ String ":"%char (String d D ++ ":" ++ ws ++ M)) in E.
    apply first_colon in E as [_ E]; [| exact Hid | exact HI].
    cbn [append] in E. injection E as -> _. cbn [allChars] in HD. rewrite Hc in HD. discriminate HD.
Qed.

(** X5.  A headline whose first colon is followed by a character that is
    not a digit, and that does not start with the quoted form (a path with
    a drive letter, say), is not located: the Diagnostic has the fallback
    chunk name, no line, and the whole headline as its message. *)
Theorem colon_before_a_non_digit_is_not_located
    (rawMessage fallbackChunk identity : string) (c : ascii) (rest : string) :
  headlineOf (trim rawMessage) = identity ++ ":" ++ String c rest ->
  allChars notColon identity = true ->
  isDigit c = false ->
  prefix "[string " (headlineOf (trim rawMessage)) = false ->
  exists trailer,
    extractErrors rawMessage fallbackChunk
    = [ mkError (headlineOf (trim rawMessage)) fallbackChunk None None trailer error ].
Proof.
  intros Hh Hid Hc Hp. unfold extractErrors.
  destruct (isEmpty (trim rawMessage)) eqn:B.
  - destruct (trim rawMessage); [| discriminate B].
    cbn in Hh. destruct identity; discriminate Hh.
  - rewrite Hh in Hp |- *. rewrite (unlocated_headline identity c rest Hid Hc Hp).
    eexists. reflexivity.
Qed.

End TranslatorSoundness.

(** ** [executeChunk] and the output of a run *)

Section ChunkFacts.
Context {F : Fengari}.

Lemma status_failing (status : Z) : status <> LUA_OK -> negb (status =? LUA_OK)%Z = true.
Proof. intros H. apply negb_true_iff. now apply Z.eqb_neq. Qed.

(** X6.  A chunk that does not compile is reported without being run: when
    the error value has a text that [to_jsstring] decodes, the Diagnostics
    of that text are appended, the error value is popped, and the stack
    and the output are as before. *)
Theorem compile_failure_is_reported_without_running
    (c : SimulationChunk) (errs : list SimulationError) (m : machine)
    (status : Z) (v : value) (w : world) (raw : string) :
  loadbuffer (Chunk.code c) (String.length (Chunk.code c))
             (String "@"%char (Chunk.chunkName c)) (host m) = Normal (status, v) w ->
  status <> LUA_OK ->
  to_jsstring (valueText v) = inr raw ->
  executeChunk c errs m
  = Normal (errs ++ extractErrors raw (Chunk.chunkName c))
           (mkMachine (lstack m) (natives m) (transcript m) w).
Proof.
  intros Hload Hstatus Htext.
  unfold executeChunk, chunkIdentity, bind at 1, luaL_loadbuffer.
  rewrite Hload, (status_failing _ Hstatus).
  unfold bind, topToJsString, pop, ret. cbn [lstack natives transcript host].
  rewrite lua_tostring_pushed, Htext. cbn [lstack natives transcript host].
  now rewrite lua_pop_pushed.
Qed.

(** X7.  A chunk that fails while it runs keeps what it wrote before: when
    the error value has a text that [to_jsstring] decodes, the Diagnostics
    of that text are appended, the error value is popped, and the output
    holds the lines of the calls the chunk made. *)
Theorem runtime_failure_keeps_output
    (c : SimulationChunk) (errs : list SimulationError) (m : machine)
    (f : value) (w w2 : world) (rep : CallReport TObject)
    (out : list string) (vs : list value) (ev : value) (raw : string) :
  loadbuffer (Chunk.code c) (String.length (Chunk.code c))
             (String "@"%char (Chunk.chunkName c)) (host m) = Normal (LUA_OK, f) w ->
  pcall (lstack m ++ [f]) w = Normal rep w2 ->
  serveCalls (natives m) (calls rep) (transcript m) = inr out ->
  callStatus rep <> LUA_OK ->
  results rep = vs ++ [ev] ->
  to_jsstring (valueText ev) = inr raw ->
  executeChunk c errs m
  = Normal (errs ++ extractErrors raw (Chunk.chunkName c))
           (mkMachine (lstack m ++ vs) (natives m) out w2).
Proof.
  intros Hload Hcall Hserve Hstatus Hres Htext.
  unfold executeChunk, chunkIdentity, bind at 1, luaL_loadbuffer.
  rewrite Hload. cbn [negb Z.eqb LUA_OK].
  unfold bind at 1, lua_pcall. cbn [lstack natives transcript host].
  rewrite Hcall, Hserve, (status_failing _ Hstatus).
  unfold bind, topToJsString, pop, ret. cbn [lstack natives transcript host].
  rewrite lua_pop_pushed, Hres, app_assoc, lua_tostring_pushed, Htext.
  cbn [lstack natives transcript host]. now rewrite lua_pop_pushed.
Qed.

(** X8.  When the error value of a failed compilation or of a failed call
    has no string form, [executeChunk] throws, from [to_jsstring], and the
    error value stays on the stack. *)
Theorem error_value_without_text_throws
    (c : SimulationChunk) (errs : list SimulationError) (m : machine) :
  (forall status v w,
      loadbuffer (Chunk.code c) (String.length (Chunk.code c))
                 (String "@"%char (Chunk.chunkName c)) (host m) = Normal (status, v) w ->
      status <> LUA_OK ->
      valueText v = None ->
      executeChunk c errs m
      = Throw (JsError "to_jsstring expects a Uint8Array")
              (mkMachine (lstack m ++ [v]) (natives m) (transcript m) w))
  /\ (forall f w rep w2 out vs ev,
        loadbuffer (Chunk.code c) (String.length (Chunk.code c))
                   (String "@"%char (Chunk.chunkName c)) (host m) = Normal (LUA_OK, f) w ->
        pcall (lstack m ++ [f]) w = Normal rep w2 ->
        serveCalls (natives m) (calls rep) (transcript m) = inr out ->
        callStatus rep <> LUA_OK ->
        results rep = vs ++ [ev] ->
        valueText ev = None ->
        executeChunk c errs m
        = Throw (JsError "to_jsstring expects a Uint8Array")
                (mkMachine (lstack m ++ vs ++ [ev]) (natives m) out w2)).
Proof.
  split.
  - intros status v w Hload Hstatus Htext.
    unfold executeChunk, chunkIdentity, bind at 1, luaL_loadbuffer.
    rewrite Hload, (status_failing _ Hstatus).
    unfold bind, topToJsString. cbn [lstack natives transcript host].
    now rewrite lua_tostring_pushed, Htext.
  - intros f w rep w2 out vs ev Hload Hcall Hserve Hstatus Hres Htext.
    unfold executeChunk, chunkIdentity, bind at 1, luaL_loadbuffer.
    rewrite Hload. cbn [negb Z.eqb LUA_OK].
    unfold bind at 1, lua_pcall. cbn [lstack natives transcript host].
    rewrite Hcall, Hserve, (status_failing _ Hstatus).
    unfold bind, topToJsString. cbn [lstack natives transcript host].
    rewrite lua_pop_pushed, Hres.
    replace (lstack m ++ vs ++ [ev]) with ((lstack m ++ vs) ++ [ev]) by now rewrite app_assoc.
    now rewrite lua_tostring_pushed, Htext.
Qed.

End ChunkFacts.

Section OutputFacts.
Context {F : Fengari}.

(** The calls of a report, served: the output grows by their lines. *)
Lemma serveCalls_lines registry cs : forall out out',
  serveCalls registry cs out = inr out' ->
  out' = out ++ linesOfCalls registry cs.
Proof.
  induction cs as [| [name args] cs IH]; intros out out' H;
    cbn [serveCalls linesOfCalls] in *.
  - injection H as <-. now rewrite app_nil_r.
  - destruct (lookupNative name registry) as [[prefix] |]; [| now apply IH].
    pose proof (logger_line prefix args out) as L.
    destruct (displayTexts args) as [texts |].
    + rewrite L in H. apply IH in H as ->. now rewrite <- app_assoc.
    + destruct L as [L | (e & bytes & _ & L)]; rewrite L in H;
        [now apply IH | discriminate].
Qed.

Lemma luaL_loadbuffer_Normal code size identity m status m1 :
  luaL_loadbuffer code size identity m = Normal status m1 ->
  exists v w,
    loadbuffer code size identity (host m) = Normal (status, v) w
    /\ m1 = mkMachine (lstack m ++ [v]) (natives m) (transcript m) w.
Proof.
  unfold luaL_loadbuffer.
  destruct (loadbuffer _ _ _ (host m)) as [[st v] w | e w]; [| discriminate].
  intros H. injection H as <- <-. eauto.
Qed.

Lemma lua_pcall_Normal (stk : list value) (v : value) registry out0 w status m2 :
  lua_pcall (mkMachine (stk ++ [v]) registry out0 w) = Normal status m2 ->
  exists rep w2,
    pcall (stk ++ [v]) w = Normal rep w2
    /\ status = callStatus rep
    /\ natives m2 = registry
    /\ transcript m2 = out0 ++ linesOfCalls registry (calls rep).
Proof.
  unfold lua_pcall. cbn [lstack natives transcript host].
  destruct (pcall (stk ++ [v]) w) as [rep w2 | e w2]; [| discriminate].
  destruct (serveCalls registry (calls rep) out0) as [e | out] eqn:S; [discriminate |].
  intros H. injection H as <- <-. exists rep, w2. cbn [natives transcript].
  apply serveCalls_lines in S. now repeat split.
Qed.

Lemma topToJsString_same m s m' : topToJsString m = Normal s m' -> m' = m.
Proof.
  unfold topToJsString. destruct (to_jsstring _); [discriminate |].
  intros H. now injection H.
Qed.

(** X9.  Whenever [executeChunk] returns, the registered functions are the
    same, and the output has grown by exactly the lines of the calls of
    logging functions the interpreter reported for the chunk, in order:
    one line for each call whose arguments all have a display text, and
    nothing when the chunk did not compile. *)
Theorem executeChunk_appends_the_lines_of_its_calls
    (c : SimulationChunk) (errs errs' : list SimulationError) (m m' : machine) :
  executeChunk c errs m = Normal errs' m' ->
  natives m' = natives m
  /\ transcript m'
     = transcript m
       ++ linesOfCalls (natives m)
            (callsOf (Chunk.code c) (String "@"%char (Chunk.chunkName c)) m).
Proof.
  unfold executeChunk, chunkIdentity, callsOf. intros H.
  apply bind_Normal in H as (status & m1 & H1 & H).
  apply luaL_loadbuffer_Normal in H1 as (v & w & -> & ->).
  destruct (status =? LUA_OK)%Z; cbn [negb] in H.
  - apply bind_Normal in H as (cs & m2 & H2 & H).
    apply lua_pcall_Normal in H2 as (rep & w2 & -> & _ & N2 & T2).
    destruct (negb (cs =? LUA_OK)%Z).
    + apply bind_Normal in H as (msg & m3 & H3 & H).
      apply topToJsString_same in H3 as ->.
      apply bind_Normal in H as ([] & m4 & H4 & H).
      injection H4 as <-. injection H as _ <-. now split.
    + injection H as _ <-. now split.
  - apply bind_Normal in H as (msg & m2 & H2 & H).
    apply topToJsString_same in H2 as ->.
    apply bind_Normal in H as ([] & m3 & H3 & H).
    injection H3 as <-. injection H as _ <-. cbn [natives transcript linesOfCalls].
    now rewrite app_nil_r.
Qed.

(** A stage that returns, likewise. *)
Lemma runStage_lines s m errs m' :
  runStage s m = Normal errs m' ->
  natives m' = natives m
  /\ transcript m'
     = transcript m ++ linesOfCalls (natives m) (callsOf (codeOf s) (identityOf s) m).
Proof.
  destruct s as [services | c]; cbn [runStage codeOf identityOf]; intros H.
  - apply bind_Normal in H as (oe & m0 & H & K). injection K as _ <-.
    unfold initializePrelude, callsOf in *.
    apply bind_Normal in H as (status & m1 & H1 & H).
    apply luaL_loadbuffer_Normal in H1 as (v & w & -> & ->).
    destruct (status =? LUA_OK)%Z; cbn [negb] in H.
    + apply bind_Normal in H as (cs & m2 & H2 & H).
      apply lua_pcall_Normal in H2 as (rep & w2 & -> & _ & N2 & T2).
      destruct (negb (cs =? LUA_OK)%Z).
      * apply bind_Normal in H as (msg & m3 & H3 & H).
        apply topToJsString_same in H3 as ->. injection H as _ <-. now split.
      * injection H as _ <-. now split.
    + apply bind_Normal in H as (msg & m2 & H2 & H).
      apply topToJsString_same in H2 as ->. injection H as _ <-.
      cbn [natives transcript linesOfCalls]. now rewrite app_nil_r.
  - unfold executeChunk, chunkIdentity, callsOf in *.
    apply bind_Normal in H as (status & m1 & H1 & H).
    apply luaL_loadbuffer_Normal in H1 as (v & w & -> & ->).
    destruct (status =? LUA_OK)%Z; cbn [negb] in H.
    + apply bind_Normal in H as (cs & m2 & H2 & H).
      apply lua_pcall_Normal in H2 as (rep & w2 & -> & _ & N2 & T2).
      destruct (negb (cs =? LUA_OK)%Z).
      * apply bind_Normal in H as (msg & m3 & H3 & H).
        apply topToJsString_same in H3 as ->.
        apply bind_Normal in H as ([] & m4 & H4 & H).
        injection H4 as <-. injection H as _ <-. now split.
      * injection H as _ <-. now split.
    + apply bind_Normal in H as (msg & m2 & H2 & H).
      apply topToJsString_same in H2 as ->.
      apply bind_Normal in H as ([] & m3 & H3 & H).
      injection H3 as <-. injection H as _ <-. cbn [natives transcript linesOfCalls].
      now rewrite app_nil_r.
Qed.

Lemma firstFailure_lines l : forall m errs m',
  firstFailure l m = Normal errs m' ->
  transcript m' = transcript m ++ linesOfStages l m.
Proof.
  induction l as [| s l IH]; intros m errs m' H; cbn [firstFailure linesOfStages] in *.
  - injection H as _ <-. now rewrite app_nil_r.
  - unfold bind in H.
    destruct (runStage s m) as [errs1 m1 | e1 m1] eqn:R; [| discriminate].
    apply runStage_lines in R as (_ & T).
    destruct errs1 as [| d errs1]; cbn [nonEmpty] in H.
    + apply IH in H. now rewrite H, T, <- app_assoc.
    + injection H as _ <-. now rewrite T, app_nil_r.
Qed.

Lemma prepare_transcript m0 m : prepare m0 = Normal tt m -> transcript m = [].
Proof.
  unfold prepare. intros H.
  apply bind_Normal in H as ([] & m1 & H1 & H).
  apply bind_Normal in H as ([] & m2 & H2 & H).
  apply bind_Normal in H as ([] & m3 & H3 & H).
  apply bind_Normal in H as ([] & m4 & H4 & H).
  injection H3 as <-.
  unfold registerLoggingFunction in H4, H.
  next_outcome H4. injection H4 as <-.
  next_outcome H. injection H as <-.
  reflexivity.
Qed.

(** X10.  The output of a returning run is exactly the lines of the calls
    of the two hooks the interpreter reported for the stages that ran, in
    order, from the machine the run prepared, in which [print] is the
    logging function without prefix and [warn] the one with the prefix
    [[warn] ]: one line for each call whose arguments all have a display
    text, and no other line. *)
Theorem run_output_is_the_lines_of_the_hook_calls
    (options : SimulationOptions) (w w' : world) (r : SimulationResult) :
  run options w = Normal r w' ->
  exists m1,
    prepare (boot w) = Normal tt m1
    /\ natives m1 = [("warn", Logger "[warn] "); ("print", Logger "")]
    /\ output r = linesOfStages (stagesOf options) m1.
Proof.
  intros H.
  apply run_returnedAt in H as (m1 & m2 & Hprep & Hpipe & _ & Hout & _).
  exists m1. split; [exact Hprep |]. split; [exact (prepare_natives _ _ Hprep) |].
  rewrite pipeline_in_order in Hpipe. unfold pipelineInOrder in Hpipe.
  apply bind_Normal in Hpipe as (errs & mE & Hff & Hres).
  injection Hres as _ <-.
  apply firstFailure_lines in Hff.
  now rewrite Hout, Hff, (prepare_transcript _ _ Hprep).
Qed.

End OutputFacts.

(** ** The interpreter state is closed once *)

Section CountedFacts.

Context (F : Fengari).

Lemma mirrors_bind {A B} c' c (k' : A -> @M (Counted F) B) k :
  mirrors c' c -> (forall a, mirrors (k' a) (k a)) ->
  mirrors (bind c' k') (bind c k).
Proof.
  intros Hc Hk m n. unfold bind. rewrite Hc.
  destruct (c m) as [a m1 | e m1]; cbn [counted]; [apply Hk | reflexivity].
Qed.

Lemma mirrors_ret {A} (a : A) : mirrors (ret a) (ret a).
Proof. intros m n. reflexivity. Qed.

Lemma mirrors_liftHost {A} (op : @world F -> outcome (@world F) A) :
  mirrors (liftHost (F:=Counted F) (countedOp op (fun n => n))) (liftHost op).
Proof.
  intros m n. unfold liftHost, countedOp. cbn [host withCount fst snd].
  destruct (op (host m)); reflexivity.
Qed.

Lemma mirrors_luaL_newstate : mirrors (luaL_newstate (F:=Counted F)) luaL_newstate.
Proof.
  intros m n. unfold luaL_newstate. cbn [newstate Counted host withCount].
  unfold countedOp. cbn [fst snd]. destruct (newstate (host m)); reflexivity.
Qed.

Lemma mirrors_register name prefix :
  mirrors (registerLoggingFunction (F:=Counted F) name prefix)
          (registerLoggingFunction name prefix).
Proof.
  intros m n. unfold registerLoggingFunction. cbn [setglobal Counted host withCount].
  unfold countedOp. cbn [fst snd]. destruct (setglobal name (host m)); reflexivity.
Qed.

Lemma mirrors_prepare : mirrors (prepare (F:=Counted F)) prepare.
Proof.
  unfold prepare.
  repeat (apply mirrors_bind; [| intros ?]);
    first [ apply mirrors_luaL_newstate | apply mirrors_liftHost
          | apply mirrors_register | intros m n; reflexivity ].
Qed.

Lemma mirrors_luaL_loadbuffer code size identity :
  mirrors (luaL_loadbuffer (F:=Counted F) code size identity)
          (luaL_loadbuffer code size identity).
Proof.
  intros m n. unfold luaL_loadbuffer. cbn [loadbuffer Counted host withCount].
  unfold countedOp. cbn [fst snd].
  destruct (loadbuffer code size identity (host m)) as [[st v] w | e w]; reflexivity.
Qed.

Lemma mirrors_lua_pcall : mirrors (lua_pcall (F:=Counted F)) lua_pcall.
Proof.
  intros m n. unfold lua_pcall. cbn [pcall Counted host withCount lstack natives transcript].
  unfold countedOp. cbn [fst snd].
  destruct (pcall (lstack m) (host m)) as [rep w | e w]; [| reflexivity].
  change (serveCalls (F:=Counted F) (natives m) (calls rep) (transcript m))
    with (serveCalls (F:=F) (natives m) (calls rep) (transcript m)).
  destruct (serveCalls (natives m) (calls rep) (transcript m)); reflexivity.
Qed.

Lemma mirrors_topToJsString : mirrors (topToJsString (F:=Counted F)) topToJsString.
Proof.
  intros m n. unfold topToJsString. cbn [lstack withCount].
  change (lua_tostring (F:=Counted F) (lstack m) (-1))
    with (lua_tostring (F:=F) (lstack m) (-1)).
  destruct (to_jsstring _); reflexivity.
Qed.

Lemma mirrors_pop k : mirrors (pop (F:=Counted F) k) (pop k).
Proof. intros m n. reflexivity. Qed.

Lemma mirrors_executeChunk c errs :
  mirrors (executeChunk (F:=Counted F) c errs) (executeChunk c errs).
Proof.
  unfold executeChunk.
  apply mirrors_bind; [apply mirrors_luaL_loadbuffer | intros status].
  destruct (negb (status =? LUA_OK)%Z).
  - apply mirrors_bind; [apply mirrors_topToJsString | intros msg].
    apply mirrors_bind; [apply mirrors_pop | intros _]. apply mirrors_ret.
  - apply mirrors_bind; [apply mirrors_lua_pcall | intros cs].
    destruct (negb (cs =? LUA_OK)%Z); [| apply mirrors_ret].
    apply mirrors_bind; [apply mirrors_topToJsString | intros msg].
    apply mirrors_bind; [apply mirrors_pop | intros _]. apply mirrors_ret.
Qed.

Lemma mirrors_initializePrelude services :
  mirrors (initializePrelude (F:=Counted F) services) (initializePrelude services).
Proof.
  unfold initializePrelude.
  apply mirrors_bind; [apply mirrors_luaL_loadbuffer | intros status].
  destruct (negb (status =? LUA_OK)%Z).
  - apply mirrors_bind; [apply mirrors_topToJsString | intros msg]. apply mirrors_ret.
  - apply mirrors_bind; [apply mirrors_lua_pcall | intros cs].
    destruct (negb (cs =? LUA_OK)%Z); [| apply mirrors_ret].
    apply mirrors_bind; [apply mirrors_topToJsString | intros msg]. apply mirrors_ret.
Qed.

Lemma mirrors_result ok rs errs :
  mirrors (result (F:=Counted F) ok rs errs) (result ok rs errs).
Proof. intros m n. reflexivity. Qed.

Lemma mirrors_forPreloads l rs k' k :
  (forall errs, mirrors (k' errs) (k errs)) ->
  forall errs, mirrors (forPreloads (F:=Counted F) l rs errs k') (forPreloads l rs errs k).
Proof.
  intros Hk. induction l as [| p l IH]; intros errs; cbn [forPreloads]; [apply Hk |].
  apply mirrors_bind; [apply mirrors_executeChunk | intros errs1].
  destruct (nonEmpty errs1); [apply mirrors_result | apply IH].
Qed.

Lemma mirrors_pipeline options rs errs :
  mirrors (pipeline (F:=Counted F) options rs errs) (pipeline options rs errs).
Proof.
  unfold pipeline.
  apply mirrors_bind; [apply mirrors_initializePrelude | intros [e |]];
    [apply mirrors_result |].
  assert (Hafter : forall errs0,
    mirrors
      (forPreloads (F:=Counted F)
         (match preloads options with Some l => l | None => [] end) rs errs0
         (fun errors =>
            bind (executeChunk (F:=Counted F) (chunk options) errors)
                 (fun errors => result (F:=Counted F) (negb (nonEmpty errors)) rs errors)))
      (forPreloads
         (match preloads options with Some l => l | None => [] end) rs errs0
         (fun errors =>
            bind (executeChunk (chunk options) errors)
                 (fun errors => result (negb (nonEmpty errors)) rs errors)))).
  { apply mirrors_forPreloads. intros errs1.
    apply mirrors_bind; [apply mirrors_executeChunk | intros ?; apply mirrors_result]. }
  destruct (prelude options) as [p |]; [| apply Hafter].
  apply mirrors_bind; [apply mirrors_executeChunk | intros errs1].
  destruct (nonEmpty errs1); [apply mirrors_result | apply Hafter].
Qed.


Lemma closeState_counted m n :
  closeState (F:=Counted F) (withCount m n)
  = counted (closeState m) (match @lua_close F with Some _ => S n | None => n end).
Proof.
  unfold closeState. cbn [lua_close Counted].
  destruct (@lua_close F) as [close |]; cbn [option_map]; [| reflexivity].
  unfold liftHost, countedOp. cbn [host withCount fst snd].
  destruct (close (host m)); reflexivity.
Qed.

(** X11.  On the counting host a run does what it does on the host, and
    adds to the counter exactly one call of [lua_close] when the statements
    before the [try] block returned and [lua_close] is a function, whether
    the run returns or throws; it adds none otherwise. *)
Theorem run_closes_the_interpreter_once
    (options : SimulationOptions) (w : @world F) (n : nat) :
  run (F:=Counted F) options (w, n)
  = match run (F:=F) options w with
    | Normal r w' => Normal r (w', closesOf w + n)
    | Throw e w' => Throw e (w', closesOf w + n)
    end.
Proof.
  unfold run, runM, closesOf, prepared.
  change (boot (F:=Counted F) (w, n)) with (withCount (boot w) n).
  unfold bind at 1 3. rewrite mirrors_prepare.
  destruct (prepare (boot w)) as [[] m1 | e m1]; cbn [counted].
  2: { destruct (@lua_close F); reflexivity. }
  unfold bind, now. cbn [performance_now Counted host withCount fst].
  unfold tryFinally. rewrite mirrors_pipeline.
  destruct (pipeline options (performance_now (host m1)) [] m1) as [r m2 | e m2];
    cbn [counted]; rewrite closeState_counted;
    destruct (closeState m2) as [[] m3 | e' m3]; cbn [counted host withCount];
    destruct (@lua_close F); reflexivity.
Qed.

End CountedFacts.

(** ** The extension host *)

Section ExtensionFacts.
Context {H : ExtensionHost}.

Lemma clampToDocument_bounds (document : TextDocument) (line : Z) :
  (1 <= lineCount document)%Z ->
  (0 <= clampToDocument document line < lineCount document)%Z.
Proof.
  intros Hn. unfold clampToDocument.
  destruct (Z.ltb_spec line 0); [lia |].
  rewrite Z.geb_leb. destruct (Z.leb_spec (lineCount document) line); lia.
Qed.

(** X12.  In a document with at least one line, [clampToDocument] gives
    the index of a line of the document: the line itself when it is one,
    the first line for a negative index, the last line for an index past
    the end. *)
Theorem clampToDocument_is_a_line (document : TextDocument) (line : Z) :
  (1 <= lineCount document)%Z ->
  (0 <= clampToDocument document line < lineCount document)%Z
  /\ ((0 <= line < lineCount document)%Z -> clampToDocument document line = line)
  /\ ((line < 0)%Z -> clampToDocument document line = 0%Z)
  /\ ((lineCount document <= line)%Z ->
      clampToDocument document line = (lineCount document - 1)%Z).
Proof.
  intros Hn. unfold clampToDocument.
  destruct (line <? 0)%Z eqn:E1; [apply Z.ltb_lt in E1 | apply Z.ltb_ge in E1].
  - repeat split; lia.
  - destruct (line >=? lineCount document)%Z eqn:E2;
      [apply Z.geb_le in E2 | rewrite Z.geb_leb in E2; apply Z.leb_gt in E2];
      repeat split; lia.
Qed.

Lemma toDiagnostic_returns document e :
  (1 <= lineCount document)%Z ->
  exists g, toDiagnostic document e = inr g
    /\ (0 <= Vscode.startLine (Vscode.range g) < lineCount document)%Z
    /\ Vscode.startLine (Vscode.range g)
       = clampToDocument document ((match line e with Some n => n | None => 1 end) - 1)
    /\ Vscode.endLine (Vscode.range g) = Vscode.startLine (Vscode.range g)
    /\ Vscode.startCharacter (Vscode.range g) = 0%Z
    /\ Vscode.endCharacter (Vscode.range g)
       = lineEnd document (Vscode.startLine (Vscode.range g))
    /\ Vscode.message g = message e
    /\ Vscode.severity g = match severity e with
                            | warning => Vscode.Warning
                            | error => Vscode.Error
                            end
    /\ Vscode.source g = "Roblox simulator".
Proof.
  intros Hn. unfold toDiagnostic, lineAt.
  set (z := clampToDocument document _).
  pose proof (clampToDocument_bounds document
                ((match line e with Some n => n | None => 1 end) - 1) Hn) as Hz.
  fold z in Hz.
  replace ((0 <=? z) && (z <? lineCount document))%Z with true
    by (symmetry; apply andb_true_iff; split; [apply Z.leb_le | apply Z.ltb_lt]; lia).
  eexists. split; [reflexivity |]. cbn. repeat split; lia.
Qed.


Lemma mapThrowing_toDiagnostic document l :
  (1 <= lineCount document)%Z ->
  exists gs, mapThrowing (toDiagnostic document) l = inr gs
             /\ Forall2 (marks document) l gs.
Proof.
  intros Hn. induction l as [| e l (gs & E & IH)]; cbn [mapThrowing].
  - exists []. split; [reflexivity | constructor].
  - destruct (toDiagnostic_returns document e Hn) as (g & -> & Hg).
    rewrite E. exists (g :: gs). split; [reflexivity |]. constructor; assumption.
Qed.

Lemma applyDiagnostics_marks (document : TextDocument) (result : SimulationResult) :
  (1 <= lineCount document)%Z ->
  exists diagnostics,
    applyDiagnostics document result = inr diagnostics
    /\ Forall2 (marks document)
         (filter (fun e => equalsPath (chunkName e) (getChunkName document))
                 (errors result))
         diagnostics.
Proof.
  intros Hn. unfold applyDiagnostics.
  destruct (filter _ (errors result)) as [| e l] eqn:E.
  - exists []. split; [reflexivity | constructor].
  - cbn [length Nat.eqb]. apply mapThrowing_toDiagnostic. exact Hn.
Qed.

(** X13.  In a document with at least one line, [applyDiagnostics] does
    not throw, and sets one editor diagnostic for each Diagnostic of the
    result whose chunk name equals the one of the document, in order: on a
    line of the document (the reported line less one, clamped; the first
    line when none is reported), over the whole line, with the message of
    the Diagnostic. *)
Theorem applyDiagnostics_marks_lines_of_the_document
    (document : TextDocument) (result : SimulationResult) :
  (1 <= lineCount document)%Z ->
  exists diagnostics,
    applyDiagnostics document result = inr diagnostics
    /\ Forall2 (marks document)
         (filter (fun e => equalsPath (chunkName e) (getChunkName document))
                 (errors result))
         diagnostics.
Proof.
  intros Hn. unfold applyDiagnostics.
  destruct (filter _ (errors result)) as [| e l] eqn:E.
  - exists []. split; [reflexivity | constructor].
  - cbn [length Nat.eqb]. apply mapThrowing_toDiagnostic. exact Hn.
Qed.


Lemma Forall_isAppendLine_map (f : string -> string) l :
  Forall (fun e => isAppendLine e = true) (map (fun x => AppendLine (f x)) l).
Proof. induction l; cbn; constructor; auto. Qed.

Lemma errorLines_append e : Forall (fun ev => isAppendLine ev = true) (errorLines e).
Proof.
  unfold errorLines. constructor; [reflexivity |].
  destruct (stack e) as [t |]; [| constructor].
  destruct (isEmpty t); repeat constructor.
Qed.

Lemma flat_map_errorLines_append l :
  Forall (fun ev => isAppendLine ev = true) (flat_map errorLines l).
Proof.
  induction l as [| e l IH]; cbn [flat_map]; [constructor |].
  apply Forall_app. split; [apply errorLines_append | exact IH].
Qed.

Lemma logResult_shape document result mode showOutputOnSuccess :
  exists outputBlock errorsHeader failureText successText,
    Forall (fun e => isAppendLine e = true) outputBlock
    /\ (forall l, In l (output result) ->
                  In (AppendLine ("  " ++ l)%string) outputBlock)
    /\ logResult document result mode showOutputOnSuccess
       = if negb (success result) then
           outputBlock
           ++ AppendLine errorsHeader
           :: flat_map errorLines (errors result)
           ++ [ShowErrorMessage failureText; ShowChannel]
         else
           outputBlock
           ++ match mode with
              | single =>
                  SetStatusBarMessage successText 4000
                  :: (if showOutputOnSuccess && nonEmpty (output result)
                      then [ShowChannel] else [])
              | _ => []
              end.
Proof.
  unfold logResult.
  set (outputBlock := if nonEmpty (output result) then _ :: map _ _ else []).
  exists outputBlock. eexists _, _, _.
  split; [| split; [| reflexivity]].
  - unfold outputBlock. destruct (nonEmpty (output result)); [| constructor].
    constructor; [reflexivity |].
    apply (Forall_isAppendLine_map (fun l => ("  " ++ l)%string)).
  - intros l Hl. unfold outputBlock. destruct (output result) as [| x xs]; [easy |].
    cbn [nonEmpty]. right.
    now apply (in_map (fun line => AppendLine ("  " ++ line)%string)).
Qed.

(** X14.  What [logResult] does besides appending lines: every output
    line is appended, indented; a failed result ends with one error
    notification and the channel revealed, in every mode; a successful one
    sets the status bar in mode single only, and reveals the channel only
    there, when asked to and when there is output. *)
Theorem logResult_notifications
    (document : TextDocument) (result : SimulationResult)
    (mode : SimulationMode) (showOutputOnSuccess : bool) :
  (forall l, In l (output result) ->
             In (AppendLine ("  " ++ l)%string)
                (logResult document result mode showOutputOnSuccess))
  /\ (success result = false ->
      exists lines text,
        logResult document result mode showOutputOnSuccess
        = lines ++ [ShowErrorMessage text; ShowChannel]
        /\ Forall (fun e => isAppendLine e = true) lines)
  /\ (success result = true ->
      exists lines,
        Forall (fun e => isAppendLine e = true) lines
        /\ match mode with
           | single =>
               exists text,
                 logResult document result mode showOutputOnSuccess
                 = lines ++ SetStatusBarMessage text 4000
                   :: (if showOutputOnSuccess && nonEmpty (output result)
                       then [ShowChannel] else [])
           | _ => logResult document result mode showOutputOnSuccess = lines
           end).
Proof.
  destruct (logResult_shape document result mode showOutputOnSuccess)
    as (outputBlock & errorsHeader & failureText & successText & Hblock & Hin & ->).
  split; [| split].
  - intros l Hl.
    destruct (negb (success result)); apply in_or_app; left; now apply Hin.
  - intros ->. cbn [negb].
    exists (outputBlock ++ AppendLine errorsHeader :: flat_map errorLines (errors result)),
           failureText.
    split.
    + rewrite <- app_assoc. reflexivity.
    + apply Forall_app. split; [exact Hblock |].
      constructor; [reflexivity | apply flat_map_errorLines_append].
  - intros ->. cbn [negb].
    exists outputBlock. split; [exact Hblock |].
    destruct mode; [eexists; reflexivity | now rewrite app_nil_r | now rewrite app_nil_r].
Qed.

(** The loop over the entries, whatever the two arrays hold when it starts. *)
Lemma resolveEntries_spec ws docFolder entries : forall chunks missing,
  resolveEntries ws docFolder entries chunks missing
  = (chunks ++ resolvedChunks ws docFolder (nonBlankEntries entries),
     missing ++ unresolved ws docFolder (nonBlankEntries entries)).
Proof.
  induction entries as [| rawEntry rest IH]; intros chunks missing;
    cbn [resolveEntries].
  - cbn. now rewrite !app_nil_r.
  - unfold nonBlankEntries. cbn [map filter].
    fold (nonBlankEntries rest).
    destruct (isEmpty (trim rawEntry)) eqn:E; cbn [negb]; [apply IH |].
    unfold resolvedChunks, unresolved. cbn [flat_map filter]. unfold resolveEntry at 1 3.
    destruct (firstReadable ws (candidateUris ws docFolder (trim rawEntry)))
      as [[content uri] |]; rewrite IH.
    + now rewrite <- app_assoc.
    + cbn [app]. now rewrite <- app_assoc.
Qed.

Lemma resolved_partition ws docFolder l :
  (length (resolvedChunks ws docFolder l) + length (unresolved ws docFolder l))%nat
  = length l.
Proof.
  induction l as [| e l IH]; [reflexivity |].
  unfold resolvedChunks, unresolved in *. cbn [flat_map filter].
  destruct (resolveEntry ws docFolder e); cbn [app length]; lia.
Qed.

(** X15.  [resolvePreloadChunks] sorts every entry that is not blank into
    one of its two arrays, keeping the order: the chunks are the entries
    one of whose candidates can be read, the missing ones are the others,
    by their trimmed text. *)
Theorem resolvePreloadChunks_sorts_every_entry
    (ws : Workspace) (entries : list string) (document : TextDocument) :
  let docFolder :=
    if String.eqb (uriScheme document) "file"
    then Some (path_dirname (uriFsPath document)) else None in
  resolvePreloadChunks ws entries document
  = (resolvedChunks ws docFolder (nonBlankEntries entries),
     unresolved ws docFolder (nonBlankEntries entries))
  /\ (length (fst (resolvePreloadChunks ws entries document))
      + length (snd (resolvePreloadChunks ws entries document)))%nat
     = length (nonBlankEntries entries).
Proof.
  intros docFolder. unfold resolvePreloadChunks. fold docFolder.
  rewrite resolveEntries_spec. cbn [app fst snd].
  split; [reflexivity | apply resolved_partition].
Qed.

End ExtensionFacts.

Section ResolutionFacts.
Context {H : ExtensionHost}.

Lemma candidateUris_absolute ws docFolder entry :
  path_isAbsolute entry = true -> candidateUris ws docFolder entry = [Uri_file entry].
Proof. unfold candidateUris. now intros ->. Qed.

Lemma firstReadable_ext ws ws' l :
  (forall u, readFile ws u = readFile ws' u) ->
  firstReadable ws l = firstReadable ws' l.
Proof.
  intros Hr. induction l as [| u l IH]; cbn [firstReadable]; [reflexivity |].
  rewrite <- Hr, IH. reflexivity.
Qed.

Lemma resolveEntries_absolute ws ws' docFolder docFolder' entries :
  (forall u, readFile ws u = readFile ws' u) ->
  Forall (fun entry => path_isAbsolute entry = true) (nonBlankEntries entries) ->
  forall chunks missing,
    resolveEntries ws docFolder entries chunks missing
    = resolveEntries ws' docFolder' entries chunks missing.
Proof.
  intros Hr. induction entries as [| rawEntry rest IH]; intros Habs chunks missing;
    cbn [resolveEntries]; [reflexivity |].
  unfold nonBlankEntries in Habs. cbn [map filter] in Habs.
  destruct (isEmpty (trim rawEntry)) eqn:E; cbn [negb] in Habs.
  - apply IH. exact Habs.
  - inversion Habs as [| ? ? Ha Hrest]; subst.
    rewrite !candidateUris_absolute by exact Ha.
    rewrite (firstReadable_ext ws ws' _ Hr).
    destruct (firstReadable ws' _) as [[content uri] |]; apply IH; exact Hrest.
Qed.

(** X16.  Entries that are absolute paths resolve alike from every
    document and whatever the workspace folders, as long as the files read
    the same. *)
Theorem absolute_entries_resolve_alike
    (ws ws' : Workspace) (entries : list string) (document document' : TextDocument) :
  (forall u, readFile ws u = readFile ws' u) ->
  Forall (fun entry => path_isAbsolute entry = true) (nonBlankEntries entries) ->
  resolvePreloadChunks ws entries document = resolvePreloadChunks ws' entries document'.
Proof.
  intros Hr Habs. unfold resolvePreloadChunks.
  now apply resolveEntries_absolute.
Qed.

Lemma resolvedChunks_In ws docFolder entry c l :
  In entry l -> resolveEntry ws docFolder entry = Some c ->
  In c (resolvedChunks ws docFolder l) /\ ~ In entry (unresolved ws docFolder l).
Proof.
  intros Hin Hc. split.
  - unfold resolvedChunks. apply in_flat_map. exists entry. split; [exact Hin |].
    rewrite Hc. now left.
  - unfold unresolved. rewrite filter_In. intros [_ Hf]. rewrite Hc in Hf. discriminate.
Qed.

(** X17.  A relative entry that can be read in the folder of a document on
    disk resolves to that file, whatever the workspace folders hold, and is
    not reported missing. *)
Theorem document_folder_is_tried_first
    (ws : Workspace) (entries : list string) (document : TextDocument)
    (entry : string) (content : Bytes) :
  uriScheme document = "file" ->
  isEmpty (path_dirname (uriFsPath document)) = false ->
  In entry (nonBlankEntries entries) ->
  path_isAbsolute entry = false ->
  readFile ws (Uri_file (path_join (path_dirname (uriFsPath document)) entry))
  = Some content ->
  In (mkChunk (utf8 content)
        (fsPath (Uri_file (path_join (path_dirname (uriFsPath document)) entry))))
     (fst (resolvePreloadChunks ws entries document))
  /\ ~ In entry (snd (resolvePreloadChunks ws entries document)).
Proof.
  intros Hs Hf Hin Hrel Hread.
  unfold resolvePreloadChunks. rewrite Hs. cbn [String.eqb Ascii.eqb Bool.eqb].
  rewrite resolveEntries_spec. cbn [app fst snd].
  apply resolvedChunks_In; [exact Hin |].
  unfold resolveEntry, candidateUris. rewrite Hrel, Hf. cbn [app firstReadable].
  rewrite Hread. reflexivity.
Qed.

End ResolutionFacts.

(** ** Sessions *)

Section SessionFacts.
Context {F : Fengari} {H : ExtensionHost}.

Lemma simulateDocument_shape c pre services w :
  let r := fst (simulateDocument c pre services w) in
  (success r = true /\ errors r = [])
  \/ (success r = false /\ exists d, errors r = [d] /\ severity d = error).
Proof.
  unfold simulateDocument.
  destruct (run _ w) as [r w' | e w'] eqn:E; cbn [fst].
  - apply run_returnedAt in E as (m1 & m2 & _ & _ & _ & _ & Hshape). exact Hshape.
  - right. split; [reflexivity |]. eexists. split; reflexivity.
Qed.

Lemma equalsPath_refl x : equalsPath x x = true.
Proof. unfold equalsPath. apply String.eqb_refl. Qed.

Lemma session_unfold ws document mode w :
  exists missingEvents showOutputOnSuccess,
    simulateDocumentSession ws document mode w
    = let (result, w') :=
        simulateDocument (sessionChunk document)
          (fst (resolvePreloadChunks ws (sessionEntries ws document) document))
          (sessionServices ws document) w in
      match applyDiagnostics document result with
      | inl ex => mkSession missingEvents None (inl ex) w'
      | inr diagnostics =>
          mkSession (missingEvents ++ logResult document result mode showOutputOnSuccess)
                    (Some diagnostics) (inr result) w'
      end.
Proof.
  unfold simulateDocumentSession.
  destruct (resolvePreloadChunks ws (sessionEntries ws document) document)
    as [preloads missing].
  cbn [fst]. eexists _, _. reflexivity.
Qed.

Lemma session_returns ws document mode w :
  (1 <= lineCount document)%Z ->
  exists diagnostics result,
    published (simulateDocumentSession ws document mode w) = Some diagnostics
    /\ returned (simulateDocumentSession ws document mode w) = inr result
    /\ result = fst (simulateDocument (sessionChunk document)
                       (fst (resolvePreloadChunks ws (sessionEntries ws document) document))
                       (sessionServices ws document) w)
    /\ worldAfter (simulateDocumentSession ws document mode w)
       = snd (simulateDocument (sessionChunk document)
                (fst (resolvePreloadChunks ws (sessionEntries ws document) document))
                (sessionServices ws document) w)
    /\ Forall2 (marks document)
         (filter (fun e => equalsPath (chunkName e) (getChunkName document))
                 (errors result))
         diagnostics.
Proof.
  intros Hn.
  destruct (session_unfold ws document mode w) as (me & so & ->).
  destruct (simulateDocument _ _ _ w) as [result w'].
  destruct (applyDiagnostics_marks document result Hn) as (diags & -> & Hm).
  exists diags, result. cbn. repeat split. exact Hm.
Qed.

(** X18.  A simulation of a document with at least one line returns a
    result and publishes at most one editor diagnostic, none when the
    result is a success; a published diagnostic is an error on a line of
    the document. *)
Theorem session_marks_at_most_one_line
    (ws : Workspace) (document : TextDocument) (mode : SimulationMode) (w : world) :
  (1 <= lineCount document)%Z ->
  exists diagnostics result,
    published (simulateDocumentSession ws document mode w) = Some diagnostics
    /\ returned (simulateDocumentSession ws document mode w) = inr result
    /\ (length diagnostics <= 1)%nat
    /\ (success result = true -> diagnostics = [])
    /\ Forall (fun g =>
                 (0 <= Vscode.startLine (Vscode.range g) < lineCount document)%Z
                 /\ Vscode.severity g = Vscode.Error) diagnostics.
Proof.
  intros Hn.
  destruct (session_returns ws document mode w Hn)
    as (diags & result & Hp & Hr & Hres & _ & Hm).
  exists diags, result. split; [exact Hp |]. split; [exact Hr |].
  pose proof (simulateDocument_shape (sessionChunk document)
                (fst (resolvePreloadChunks ws (sessionEntries ws document) document))
                (sessionServices ws document) w) as Hshape.
  cbv zeta in Hshape. rewrite <- Hres in Hshape.
  destruct Hshape as [(Hs & He) | (Hs & d & He & Hd)]; rewrite He in Hm; cbn [filter] in Hm.
  - inversion Hm; subst. repeat split; [cbn; lia | constructor].
  - destruct (equalsPath (chunkName d) (getChunkName document)).
    + inversion Hm as [| ? g ? gs Hg Hrest]; subst. inversion Hrest; subst.
      repeat split; [cbn; lia | congruence |].
      constructor; [| constructor].
      destruct Hg as (Hl & _ & _ & _ & _ & _ & Hsev & _). rewrite Hd in Hsev. now split.
    + inversion Hm; subst. repeat split; [cbn; lia | constructor].
Qed.

(** X19.  When [run] throws, the simulation of a document with at least
    one line publishes one error diagnostic over the first line of the
    document, with the message of the exception, and returns a failed
    result of duration 0 with no output. *)
Theorem simulator_crash_is_shown_on_the_first_line
    (ws : Workspace) (document : TextDocument) (mode : SimulationMode)
    (w w' : world) (e : JsException) :
  (1 <= lineCount document)%Z ->
  run (sessionOptions ws document) w = Throw e w' ->
  published (simulateDocumentSession ws document mode w)
  = Some [ Vscode.mkDiagnostic (Vscode.mkRange 0 0 0 (lineEnd document 0))
             (exceptionMessage e) Vscode.Error "Roblox simulator" ]
  /\ returned (simulateDocumentSession ws document mode w)
     = inr (mkResult false 0
              [ mkError (exceptionMessage e) (getChunkName document) None None None error ]
              [])
  /\ worldAfter (simulateDocumentSession ws document mode w) = w'.
Proof.
  intros Hn Hrun.
  destruct (session_unfold ws document mode w) as (me & so & ->).
  unfold simulateDocument. unfold sessionOptions in Hrun. rewrite Hrun.
  unfold applyDiagnostics. cbn [errors filter chunkName Chunk.chunkName sessionChunk mkChunk].
  change (Chunk.chunkName (mkChunk (getText document) (getChunkName document)))
    with (getChunkName document).
  rewrite equalsPath_refl. cbn [length Nat.eqb mapThrowing].
  unfold toDiagnostic. cbn [line Z.sub Z.add Z.opp Z.pos_sub].
  assert (Hc : clampToDocument document 0 = 0%Z).
  { unfold clampToDocument. cbn [Z.ltb Z.compare].
    replace (0 >=? lineCount document)%Z with false; [reflexivity |].
    symmetry. rewrite Z.geb_leb. apply Z.leb_gt. lia. }
  rewrite Hc. unfold lineAt.
  replace ((0 <=? 0) && (0 <? lineCount document))%Z with true
    by (symmetry; apply andb_true_iff; split; [reflexivity | apply Z.ltb_lt; lia]).
  cbn. repeat split.
Qed.

End SessionFacts.

Section WorkspaceFacts.
Context {F : Fengari} {H : ExtensionHost}.

Lemma last_cons {A} (l : list A) : forall a d, last (a :: l) d = last l a.
Proof.
  induction l as [| b l IH]; intros a d; [reflexivity |].
  change (last (a :: b :: l) d) with (last (b :: l) d).
  rewrite !IH. reflexivity.
Qed.

Lemma simulateAll_sessions ws documents :
  Forall (fun document => (1 <= lineCount document)%Z) documents ->
  forall failed log w,
    simulateAll ws documents failed log w
    = inr ((failed + Z.of_nat (length (filter failedSession (sessionsOf ws documents w))))%Z,
           log ++ flat_map events (sessionsOf ws documents w),
           lastWorld (sessionsOf ws documents w) w).
Proof.
  induction 1 as [| document rest Hn _ IH]; intros failed log w;
    cbn [simulateAll sessionsOf].
  - cbn. now rewrite Z.add_0_r, app_nil_r.
  - destruct (session_returns ws document batch w Hn)
      as (diags & result & _ & Hr & _).
    rewrite Hr, IH. cbn [filter flat_map]. unfold failedSession at 2. rewrite Hr.
    unfold lastWorld. cbn [map].
    f_equal. f_equal; [f_equal |].
    + destruct (negb (success result)); cbn [length]; lia.
    + now rewrite app_assoc.
    + symmetry. apply last_cons.
Qed.

(** X20.  On documents of at least one line each, the workspace command
    simulates every document, in order and in mode batch, each from the
    host state the one before left; then it appends the summary for the
    number of sessions whose result is not a success, and shows it in the
    status bar when that number is 0, as an error notification with the
    channel revealed otherwise. *)
Theorem runWorkspace_counts_failed_sessions
    (ws : Workspace) (candidateFiles : list TextDocument) (w : world) :
  candidateFiles <> [] ->
  Forall (fun document => (1 <= lineCount document)%Z) candidateFiles ->
  let sessions := sessionsOf ws candidateFiles w in
  let failed := Z.of_nat (length (filter failedSession sessions)) in
  length sessions = length candidateFiles
  /\ runWorkspace ws candidateFiles w
     = inr (flat_map events sessions
              ++ AppendLine (workspaceSummary failed)
              :: (if (failed =? 0)%Z
                  then [SetStatusBarMessage (workspaceSummary failed) 4000]
                  else [ShowErrorMessage (workspaceSummary failed); ShowChannel]),
            lastWorld sessions w).
Proof.
  intros Hne Hn sessions failed. split.
  - unfold sessions. clear. revert w.
    induction candidateFiles as [| d l IH]; intros w; cbn [sessionsOf length];
      [reflexivity | now rewrite IH].
  - unfold runWorkspace. destruct candidateFiles as [| d l]; [contradiction |].
    cbn [length Nat.eqb]. rewrite (simulateAll_sessions ws (d :: l) Hn).
    cbn [app Z.add]. reflexivity.
Qed.

End WorkspaceFacts.

(** ** Examples on the toy interpreter and the toy editor *)

(** A located error text with blanks around its message. *)
Lemma matched_headline_has_a_known_shape_witness :
  exists identity digits rest,
    ((headlineOf (trim "main.luau:7:   custom  ")
        = ("[string " ++ quoted identity ++ "]:" ++ digits ++ ":" ++ rest)%string
      /\ allChars notQuote identity = true)
     \/ (headlineOf (trim "main.luau:7:   custom  ")
         = (identity ++ ":" ++ digits ++ ":" ++ rest)%string
         /\ allChars notColon identity = true))
    /\ identity <> ""
    /\ digits <> "" /\ allChars isDigit digits = true
    /\ chunkName (mkError "custom" "main.luau" (Some 7%Z) None None error)
       = stripSigil identity
    /\ line (mkError "custom" "main.luau" (Some 7%Z) None None error) <> None
    /\ ((decimal digits < 2 ^ 53)%Z ->
        line (mkError "custom" "main.luau" (Some 7%Z) None None error)
        = Some (decimal digits))
    /\ message (mkError "custom" "main.luau" (Some 7%Z) None None error)
       = orElse (trim rest) "Runtime error".
Proof.
  refine (matched_headline_has_a_known_shape "main.luau:7:   custom  " "fallback" _
            (mkError "custom" "main.luau" (Some 7%Z) None None error) _ _ _).
  - vm_compute. reflexivity.
  - vm_compute. reflexivity.
  - vm_compute. left. reflexivity.
Defined.

(** An error text without a position, with a traceback. *)
Lemma fallback_diagnostic_keeps_the_text_witness :
  keptText (mkError "attempt to call a nil value" "main.luau" None None
              (Some ("stack traceback:" ++ String LF "  [C]: in ?")%string) error)
  = trim ("  attempt to call a nil value" ++ String LF "stack traceback:"
             ++ String LF "  [C]: in ?" ++ String LF "")%string.
Proof.
  apply (fallback_diagnostic_keeps_the_text
           ("  attempt to call a nil value" ++ String LF "stack traceback:"
             ++ String LF "  [C]: in ?" ++ String LF "")%string "main.luau");
    vm_compute; auto.
Defined.

(** An error text that names a chunk by a path with a drive letter. *)
Lemma colon_before_a_non_digit_is_not_located_witness :
  exists trailer,
    extractErrors "C:\game\main.luau:12: attempt to call a nil value" "C:\game\main.luau"
    = [ mkError "C:\game\main.luau:12: attempt to call a nil value" "C:\game\main.luau"
          None None trailer error ].
Proof.
  apply (colon_before_a_non_digit_is_not_located
           "C:\game\main.luau:12: attempt to call a nil value" "C:\game\main.luau"
           "C" "\"%char "game\main.luau:12: attempt to call a nil value");
    vm_compute; reflexivity.
Defined.

(** A chunk the toy compiler rejects. *)
Lemma compile_failure_is_reported_without_running_witness :
  executeChunk (F:=Toy.interp) (mkChunk "x = = 1" "broken.luau") []
    (mkMachine (F:=Toy.interp) [] [("warn", Logger "[warn] "); ("print", Logger "")]
       ["earlier"] 6%Z)
  = Normal ([] ++ extractErrors "broken.luau:1: unexpected symbol near '='" "broken.luau")
      (mkMachine (F:=Toy.interp) [] [("warn", Logger "[warn] "); ("print", Logger "")]
         ["earlier"] 7%Z).
Proof.
  refine (compile_failure_is_reported_without_running (F:=Toy.interp)
            (mkChunk "x = = 1" "broken.luau") []
            (mkMachine (F:=Toy.interp) []
               [("warn", Logger "[warn] "); ("print", Logger "")] ["earlier"] 6%Z)
            3%Z (TString "broken.luau:1: unexpected symbol near '='") 7%Z
            "broken.luau:1: unexpected symbol near '='" _ _ _).
  - vm_compute. reflexivity.
  - vm_compute. discriminate.
  - vm_compute. reflexivity.
Defined.

(** A chunk that prints, then raises an error. *)
Lemma runtime_failure_keeps_output_witness :
  executeChunk (F:=Toy.interp) (mkChunk "print('before') error('boom')" "main.luau") []
    (mkMachine (F:=Toy.interp) [] [("warn", Logger "[warn] "); ("print", Logger "")]
       ["earlier"] 6%Z)
  = Normal ([] ++ extractErrors "main.luau:1: boom" "main.luau")
      (mkMachine (F:=Toy.interp) ([] ++ [])
         [("warn", Logger "[warn] "); ("print", Logger "")] ["earlier"; "before"] 9%Z).
Proof.
  refine (runtime_failure_keeps_output (F:=Toy.interp)
            (mkChunk "print('before') error('boom')" "main.luau") []
            (mkMachine (F:=Toy.interp) []
               [("warn", Logger "[warn] "); ("print", Logger "")] ["earlier"] 6%Z)
            (TOther (Toy.Function "print('before') error('boom')" "@main.luau"))
            7%Z 9%Z
            (mkReport [("print", [TString "before"])] 2%Z [TString "main.luau:1: boom"])
            ["earlier"; "before"] [] (TString "main.luau:1: boom") "main.luau:1: boom"
            _ _ _ _ _ _).
  - vm_compute. reflexivity.
  - vm_compute. reflexivity.
  - vm_compute. reflexivity.
  - vm_compute. discriminate.
  - vm_compute. reflexivity.
  - vm_compute. reflexivity.
Defined.

(** The same chunk: the output grows by the line of its call of print. *)
Lemma executeChunk_appends_the_lines_of_its_calls_witness :
  transcript (mkMachine (F:=Toy.interp) []
                [("warn", Logger "[warn] "); ("print", Logger "")]
                ["earlier"; "before"] 9%Z)
  = ["earlier"] ++ ["before"].
Proof.
  refine (proj2 (executeChunk_appends_the_lines_of_its_calls (F:=Toy.interp)
            (mkChunk "print('before') error('boom')" "main.luau") []
            [ mkError "boom" "main.luau" (Some 1%Z) None None error ]
            (mkMachine (F:=Toy.interp) []
               [("warn", Logger "[warn] "); ("print", Logger "")] ["earlier"] 6%Z)
            (mkMachine (F:=Toy.interp) []
               [("warn", Logger "[warn] "); ("print", Logger "")] ["earlier"; "before"] 9%Z)
            _)).
  vm_compute. reflexivity.
Defined.

(** A run with a preload that warns, a preload that prints a value whose
    __tostring metamethod raises, and a target that is not reached. *)
Lemma run_output_is_the_lines_of_the_hook_calls_witness :
  exists r w' m1,
    run (F:=Toy.bytes)
        (Toy.options (mkChunk "print('hello', 'world')" "main.luau")
           [mkChunk "warn('careful', 42)" "lib.luau";
            mkChunk "print('before') print(guarded) print('after')" "odd.luau"]) 0%Z
    = Normal r w'
    /\ output r = [("[warn] careful" ++ String TAB "42")%string; "before"]
    /\ prepare (F:=Toy.bytes) (boot (F:=Toy.bytes) 0%Z) = Normal tt m1
    /\ output r
       = linesOfStages (F:=Toy.bytes)
           (stagesOf
              (Toy.options (mkChunk "print('hello', 'world')" "main.luau")
                 [mkChunk "warn('careful', 42)" "lib.luau";
                  mkChunk "print('before') print(guarded) print('after')" "odd.luau"]))
           m1.
Proof.
  destruct (run_output_is_the_lines_of_the_hook_calls (F:=Toy.bytes)
              (Toy.options (mkChunk "print('hello', 'world')" "main.luau")
                 [mkChunk "warn('careful', 42)" "lib.luau";
                  mkChunk "print('before') print(guarded) print('after')" "odd.luau"])
              0%Z _ _ ltac:(vm_compute; reflexivity)) as (m1 & Hprep & _ & Hout).
  eexists _, _, m1. split; [vm_compute; reflexivity |].
  split; [reflexivity |]. split; [exact Hprep | exact Hout].
Defined.

(** An index past the end of a document of three lines. *)
Lemma clampToDocument_is_a_line_witness :
  clampToDocument (ToyEditor.document "/game/main.luau" "print('hello', 'world')") 7 = 2%Z.
Proof.
  refine (proj2 (proj2 (proj2
            (clampToDocument_is_a_line
               (ToyEditor.document "/game/main.luau" "print('hello', 'world')") 7 _))) _);
    vm_compute; discriminate.
Defined.

(** A result with a Diagnostic of the document, past its end, and one of
    another chunk. *)
Lemma applyDiagnostics_marks_lines_of_the_document_witness :
  exists diagnostics,
    applyDiagnostics (H:=ToyEditor.posix)
      (ToyEditor.document "/game/main.luau" "print('hello', 'world')")
      (mkResult false 9
         [ mkError "boom" "/game/main.luau" (Some 40%Z) None None error;
           mkError "other" "/game/lib.luau" (Some 1%Z) None None error ] [])
    = inr diagnostics
    /\ Forall2 (marks (ToyEditor.document "/game/main.luau" "print('hello', 'world')"))
         (filter (fun e => equalsPath (H:=ToyEditor.posix) (chunkName e)
                             (getChunkName
                                (ToyEditor.document "/game/main.luau"
                                   "print('hello', 'world')")))
            (errors (mkResult false 9
                       [ mkError "boom" "/game/main.luau" (Some 40%Z) None None error;
                         mkError "other" "/game/lib.luau" (Some 1%Z) None None error ] [])))
         diagnostics.
Proof.
  refine (applyDiagnostics_marks_lines_of_the_document (H:=ToyEditor.posix)
            (ToyEditor.document "/game/main.luau" "print('hello', 'world')")
            (mkResult false 9
               [ mkError "boom" "/game/main.luau" (Some 40%Z) None None error;
                 mkError "other" "/game/lib.luau" (Some 1%Z) None None error ] []) _).
  vm_compute. discriminate.
Defined.

(** An absolute entry, from two documents in workspaces with other folders. *)
Lemma absolute_entries_resolve_alike_witness :
  resolvePreloadChunks (H:=ToyEditor.posix)
    (ToyEditor.workspace ["/game"] []) [" /opt/shared.luau "; "  "]
    (ToyEditor.document "/game/main.luau" "print('hello', 'world')")
  = resolvePreloadChunks (H:=ToyEditor.posix)
      (ToyEditor.workspace ["/elsewhere"; "/opt"] []) [" /opt/shared.luau "; "  "]
      (ToyEditor.document "/elsewhere/other.luau" "warn('careful', 42)").
Proof.
  refine (absolute_entries_resolve_alike (H:=ToyEditor.posix)
            (ToyEditor.workspace ["/game"] [])
            (ToyEditor.workspace ["/elsewhere"; "/opt"] [])
            [" /opt/shared.luau "; "  "]
            (ToyEditor.document "/game/main.luau" "print('hello', 'world')")
            (ToyEditor.document "/elsewhere/other.luau" "warn('careful', 42)") _ _).
  - intros u. reflexivity.
  - vm_compute. constructor; [reflexivity | constructor].
Defined.

(** A relative entry that is a file beside the document. *)
Lemma document_folder_is_tried_first_witness :
  In (mkChunk "warn('careful', 42)" "/game/lib.luau")
     (fst (resolvePreloadChunks (H:=ToyEditor.posix)
             (ToyEditor.workspace ["/elsewhere"] []) ["nope.luau"; " lib.luau"]
             (ToyEditor.document "/game/main.luau" "print('hello', 'world')")))
  /\ ~ In "lib.luau"
       (snd (resolvePreloadChunks (H:=ToyEditor.posix)
               (ToyEditor.workspace ["/elsewhere"] []) ["nope.luau"; " lib.luau"]
               (ToyEditor.document "/game/main.luau" "print('hello', 'world')"))).
Proof.
  refine (document_folder_is_tried_first (H:=ToyEditor.posix)
            (ToyEditor.workspace ["/elsewhere"] []) ["nope.luau"; " lib.luau"]
            (ToyEditor.document "/game/main.luau" "print('hello', 'world')")
            "lib.luau" "warn('careful', 42)" _ _ _ _ _).
  - vm_compute. reflexivity.
  - vm_compute. reflexivity.
  - vm_compute. right. left. reflexivity.
  - vm_compute. reflexivity.
  - vm_compute. reflexivity.
Defined.

(** A session whose target fails, with a preload and a missing entry. *)
Lemma session_marks_at_most_one_line_witness :
  exists diagnostics result,
    published (simulateDocumentSession (F:=Toy.interp) (H:=ToyEditor.posix)
                 (ToyEditor.workspace ["/game"] ["lib.luau"; "/opt/missing.luau"])
                 (ToyEditor.document "/game/main.luau" "print('before') error('boom')")
                 single 0%Z)
    = Some diagnostics
    /\ returned (simulateDocumentSession (F:=Toy.interp) (H:=ToyEditor.posix)
                   (ToyEditor.workspace ["/game"] ["lib.luau"; "/opt/missing.luau"])
                   (ToyEditor.document "/game/main.luau" "print('before') error('boom')")
                   single 0%Z)
       = inr result
    /\ (length diagnostics <= 1)%nat
    /\ (success result = true -> diagnostics = [])
    /\ Forall (fun g =>
                 (0 <= Vscode.startLine (Vscode.range g)
                  < lineCount (ToyEditor.document "/game/main.luau"
                                 "print('before') error('boom')"))%Z
                 /\ Vscode.severity g = Vscode.Error) diagnostics.
Proof.
  refine (session_marks_at_most_one_line (F:=Toy.interp) (H:=ToyEditor.posix)
            (ToyEditor.workspace ["/game"] ["lib.luau"; "/opt/missing.luau"])
            (ToyEditor.document "/game/main.luau" "print('before') error('boom')")
            single 0%Z _).
  vm_compute. discriminate.
Defined.

(** A session whose target raises a table: [run] throws. *)
Lemma simulator_crash_is_shown_on_the_first_line_witness :
  published (simulateDocumentSession (F:=Toy.tables) (H:=ToyEditor.posix)
               (ToyEditor.workspace ["/game"] [])
               (ToyEditor.document "/game/main.luau" "error({})") single 0%Z)
  = Some [ Vscode.mkDiagnostic (Vscode.mkRange 0 0 0 20)
             "to_jsstring expects a Uint8Array" Vscode.Error "Roblox simulator" ].
Proof.
  refine (proj1 (simulator_crash_is_shown_on_the_first_line
                   (F:=Toy.tables) (H:=ToyEditor.posix)
                   (ToyEditor.workspace ["/game"] [])
                   (ToyEditor.document "/game/main.luau" "error({})") single
                   0%Z 12%Z (JsError "to_jsstring expects a Uint8Array") _ _)).
  - vm_compute. discriminate.
  - vm_compute. reflexivity.
Defined.

(** A workspace of two documents, the first of which fails. *)
Lemma runWorkspace_counts_failed_sessions_witness :
  runWorkspace (F:=Toy.interp) (H:=ToyEditor.posix)
    (ToyEditor.workspace ["/game"] ["lib.luau"])
    [ ToyEditor.document "/game/main.luau" "print('before') error('boom')";
      ToyEditor.document "/game/ok.luau" "print('hello', 'world')" ] 0%Z
  = inr ([ AppendLine "[/game/main.luau] Output (9ms):";
           AppendLine ("  [warn] careful" ++ String TAB "42")%string;
           AppendLine "  before";
           AppendLine "[/game/main.luau] Errors (9ms):";
           AppendLine "  [/game/main.luau] boom";
           ShowErrorMessage
             "Roblox simulation failed for main.luau. See the output channel for details.";
           ShowChannel;
           AppendLine "[/game/ok.luau] Output (9ms):";
           AppendLine ("  [warn] careful" ++ String TAB "42")%string;
           AppendLine ("  hello" ++ String TAB "world")%string;
           AppendLine "Roblox workspace simulation found issues in 1 file.";
           ShowErrorMessage "Roblox workspace simulation found issues in 1 file.";
           ShowChannel ],
         30%Z).
Proof.
  refine (eq_trans
            (proj2 (runWorkspace_counts_failed_sessions (F:=Toy.interp) (H:=ToyEditor.posix)
                      (ToyEditor.workspace ["/game"] ["lib.luau"])
                      [ ToyEditor.document "/game/main.luau" "print('before') error('boom')";
                        ToyEditor.document "/game/ok.luau" "print('hello', 'world')" ]
                      0%Z _ _)) _).
  - discriminate.
  - repeat constructor; vm_compute; discriminate.
  - vm_compute. reflexivity.
Defined.
